(** * AI Data Storyteller: a shallow embedding of the application logic

    The development follows the TypeScript sources:

    - [services/geminiService.ts]: the base64 helpers [encode] / [decode],
      the Analysis Client [analyzeCsvData] and the chat aggregation
      [sendMessageToChat];
    - [components/DataAnalysisDisplay.tsx]: the Chart Data Mapper
      ([parseValue], [prepareChartData]);
    - [components/ChatInput.tsx]: the chat input [handleSendMessage];
    - [App.tsx]: the application state controller ([handleFileSelect],
      [analyzeAndChat], [handleSendMessage], [stopCurrentAudio],
      [handlePlayAudio]).

    Conventions.  A JavaScript string is modelled by a Rocq [string]: a
    sequence of code units, restricted to the range 0..255.  A JavaScript
    number that is used as an integer (a byte, a length, a counter) is a [Z]
    or an [N]; the numbers produced by [Number(cell)] are IEEE-754 binary64
    values and are modelled in [Module Js] with their rounding.  A
    JavaScript object used as a dictionary is the association list of its
    own properties in creation order; the order in which the engine
    enumerates them is computed from it. *)

From Stdlib Require Import ZArith List String Ascii Bool Lia Arith.
From Stdlib Require Import DecimalString DecimalPos Sorted Permutation.
Import ListNotations.

Local Open Scope string_scope.
Local Open Scope list_scope.
Local Open Scope Z_scope.

(* ================================================================== *)
(** * The fragment of ECMAScript the application relies on             *)
(* ================================================================== *)

Module Js.

(** ** Strings *)

Definition chars (s : string) : list ascii := list_ascii_of_string s.
Definition str (l : list ascii) : string := string_of_list_ascii l.

Definition code (c : ascii) : Z := Z.of_N (N_of_ascii c).

(** [WhiteSpace] and [LineTerminator] code points below 256: TAB, LF, VT,
    FF, CR, SP and NBSP. *)
Definition isWhiteSpace (c : ascii) : bool :=
  let n := code c in
  ((9 <=? n) && (n <=? 13)) || (n =? 32) || (n =? 160).

Fixpoint trimStartChars (l : list ascii) : list ascii :=
  match l with
  | c :: r => if isWhiteSpace c then trimStartChars r else l
  | [] => []
  end.

Definition trimChars (l : list ascii) : list ascii :=
  rev (trimStartChars (rev (trimStartChars l))).

(** [s.trim()] *)
Definition trim (s : string) : string := str (trimChars (chars s)).

(** [parts.join(sep)] on an array of strings. *)
Definition join (sep : string) (parts : list string) : string :=
  String.concat sep parts.

(** [arr.slice(0, n)] *)
Definition slice0 {A} (n : nat) (arr : list A) : list A := firstn n arr.

(** [arr.slice(n)] *)
Definition sliceFrom {A} (n : nat) (arr : list A) : list A := skipn n arr.

Fixpoint isPrefixChars (p l : list ascii) : bool :=
  match p, l with
  | [], _ => true
  | c :: p', d :: l' => Ascii.eqb c d && isPrefixChars p' l'
  | _ :: _, [] => false
  end.

(** [s.startsWith(p)], [s.endsWith(p)], and [s.substring(a, b)] for
    [a <= b]. *)
Definition startsWith (s p : string) : bool :=
  isPrefixChars (chars p) (chars s).
Definition endsWith (s p : string) : bool :=
  isPrefixChars (rev (chars p)) (rev (chars s)).
Definition substring (s : string) (a b : nat) : string :=
  str (firstn (b - a) (skipn a (chars s))).

(** ** Numbers *)

(** A Number value: an IEEE-754 binary64.  A finite non-zero value is kept
    as [m * 2^e] with [m] odd, so that equal numbers are equal terms. *)
Inductive JsNumber : Type :=
  | NaN
  | Inf (neg : bool)
  | Zero (neg : bool)
  | Dyadic (neg : bool) (m : positive) (e : Z).

Definition isNaNNumber (x : JsNumber) : bool :=
  match x with NaN => true | _ => false end.

Fixpoint oddPart (m : positive) (e : Z) : positive * Z :=
  match m with
  | xO m' => oddPart m' (e + 1)
  | _ => (m, e)
  end.

(** The binary64 nearest to the positive rational [n / d], ties to even:
    53 significant bits, least exponent -1074, overflow to infinity. *)
Definition roundRatio (neg : bool) (n d : positive) : JsNumber :=
  let L := Z.log2 (Zpos n) - Z.log2 (Zpos d) in
  let atLeast :=
    if 0 <=? L then Zpos d * 2 ^ L <=? Zpos n
    else Zpos d <=? Zpos n * 2 ^ (- L) in
  let magnitude := if atLeast then L else L - 1 in
  let e := Z.max (magnitude - 52) (-1074) in
  let num := if 0 <=? e then Zpos n else Zpos n * 2 ^ (- e) in
  let den := if 0 <=? e then Zpos d * 2 ^ e else Zpos d in
  let q := num / den in
  let r := num mod den in
  let m :=
    match 2 * r ?= den with
    | Lt => q
    | Gt => q + 1
    | Eq => if Z.even q then q else q + 1
    end in
  match m with
  | Zpos p =>
      if 1024 <=? Z.log2 m + e then Inf neg
      else let (p', e') := oddPart p e in Dyadic neg p' e'
  | _ => Zero neg
  end.

(** The Number for [mant * 10^exp10]: the exact value is rounded, also
    when the literal has more than 20 significant digits. *)
Definition roundDecimal (neg : bool) (mant : N) (exp10 : Z) : JsNumber :=
  match mant with
  | N0 => Zero neg
  | Npos p =>
      if 0 <=? exp10
      then roundRatio neg (p * Z.to_pos (10 ^ exp10)) 1
      else roundRatio neg p (Z.to_pos (10 ^ (- exp10)))
  end.

Definition ofZ (z : Z) : JsNumber :=
  match z with
  | Z0 => Zero false
  | Zpos p => roundRatio false p 1
  | Zneg p => roundRatio true p 1
  end.

(** *** [StringToNumber] *)

Definition isDigit (c : ascii) : bool :=
  let n := code c in (48 <=? n) && (n <=? 57).

Definition digitValue (base : Z) (c : ascii) : option Z :=
  let n := code c in
  let v :=
    if (48 <=? n) && (n <=? 57) then n - 48
    else if (97 <=? n) && (n <=? 102) then n - 87
    else if (65 <=? n) && (n <=? 70) then n - 55
    else base in
  if v <? base then Some v else None.

(** The value of a non-empty run of digits in [base]; [None] on an empty
    run or a foreign character. *)
Fixpoint digitsFrom (base : Z) (l : list ascii) (acc : Z) : option Z :=
  match l with
  | [] => Some acc
  | c :: r =>
      match digitValue base c with
      | Some v => digitsFrom base r (acc * base + v)
      | None => None
      end
  end.

Definition digits (base : Z) (l : list ascii) : option Z :=
  match l with
  | [] => None
  | _ => digitsFrom base l 0
  end.

Fixpoint spanDigits (l : list ascii) : list ascii * list ascii :=
  match l with
  | c :: r =>
      if isDigit c then let (ds, rest) := spanDigits r in (c :: ds, rest)
      else ([], l)
  | [] => ([], [])
  end.

(** What a [StrNumericLiteral] denotes, before rounding. *)
Inductive Literal : Type :=
  | LitInfinity (neg : bool)
  | LitDecimal (neg : bool) (mant : N) (exp10 : Z).

(** [ExponentPart_opt] at the end of the literal: the exponent it adds. *)
Definition exponentPart (l : list ascii) : option Z :=
  match l with
  | [] => Some 0
  | c :: r =>
      if (Ascii.eqb c "e" || Ascii.eqb c "E")%char then
        match r with
        | s :: r' =>
            if Ascii.eqb s "+"%char then digits 10 r'
            else if Ascii.eqb s "-"%char then option_map Z.opp (digits 10 r')
            else digits 10 r
        | [] => None
        end
      else None
  end.

(** [StrUnsignedDecimalLiteral]: [Infinity], [ddd.ddd], [.ddd] or [ddd],
    the last three with an optional exponent. *)
Definition unsignedDecimal (neg : bool) (l : list ascii) : option Literal :=
  if String.eqb (str l) "Infinity" then Some (LitInfinity neg)
  else
    let (ip, r1) := spanDigits l in
    let (fp, r2) :=
      match r1 with
      | c :: r => if Ascii.eqb c "."%char then spanDigits r else ([], r1)
      | [] => ([], r1)
      end in
    match ip ++ fp with
    | [] => None
    | ds =>
        match digitsFrom 10 ds 0, exponentPart r2 with
        | Some mant, Some ex =>
            Some (LitDecimal neg (Z.to_N mant) (ex - Z.of_nat (List.length fp)))
        | _, _ => None
        end
    end.

(** [NonDecimalIntegerLiteral]: [0b], [0o] and [0x] prefixes, unsigned. *)
Definition nonDecimal (l : list ascii) : option Literal :=
  match l with
  | z :: p :: r =>
      if Ascii.eqb z "0"%char then
        let base :=
          if (Ascii.eqb p "x" || Ascii.eqb p "X")%char then 16
          else if (Ascii.eqb p "o" || Ascii.eqb p "O")%char then 8
          else if (Ascii.eqb p "b" || Ascii.eqb p "B")%char then 2
          else 0 in
        if base =? 0 then None
        else option_map (fun v => LitDecimal false (Z.to_N v) 0) (digits base r)
      else None
  | _ => None
  end.

(** [StrNumericLiteral], on a string without surrounding white space. *)
Definition strNumericLiteral (l : list ascii) : option Literal :=
  match nonDecimal l with
  | Some lit => Some lit
  | None =>
      match l with
      | c :: r =>
          if Ascii.eqb c "+"%char then unsignedDecimal false r
          else if Ascii.eqb c "-"%char then unsignedDecimal true r
          else unsignedDecimal false l
      | [] => None
      end
  end.

(** The literal a string denotes: [None] when the string, trimmed, is empty
    or is not a [StrNumericLiteral]. *)
Definition numericLiteral (s : string) : option Literal :=
  strNumericLiteral (trimChars (chars s)).

Definition literalValue (lit : Literal) : JsNumber :=
  match lit with
  | LitInfinity neg => Inf neg
  | LitDecimal neg mant exp10 => roundDecimal neg mant exp10
  end.

(** [Number(s)] on a string: white space only is [+0], a numeric literal is
    its rounded value, anything else is [NaN]. *)
Definition Number (s : string) : JsNumber :=
  match trimChars (chars s) with
  | [] => Zero false
  | l =>
      match strNumericLiteral l with
      | Some lit => literalValue lit
      | None => NaN
      end
  end.

(** *** [Number::toString] in radix 10 *)

Definition decimalString (n : N) : string :=
  NilZero.string_of_uint (N.to_uint n).

(** [10^p <= n / d] *)
Definition pow10Le (p : Z) (n d : positive) : bool :=
  if 0 <=? p then Zpos d * 10 ^ p <=? Zpos n
  else Zpos d <=? Zpos n * 10 ^ (- p).

(** The [n] with [10^(n-1) <= x < 10^n], for [x = n / d]. *)
Definition decimalPoint (n d : positive) : Z :=
  let est := (Z.log2 (Zpos n) - Z.log2 (Zpos d)) * 1233 / 4096 in
  if pow10Le (est + 1) n d then est + 2
  else if pow10Le est n d then est + 1
  else est.

Fixpoint stripZeros (fuel : nat) (s sc : Z) : Z * Z :=
  match fuel with
  | O => (s, sc)
  | S fuel' =>
      if (s mod 10 =? 0) && (0 <? s) then stripZeros fuel' (s / 10) (sc + 1)
      else (s, sc)
  end.

(** The least number of digits [k], from [k] on, and the [k]-digit [s]
    such that [s * 10^(pt - k)] reads back as [x]; of two such [s] the one
    nearer to [n / d], the even one on a tie. *)
Fixpoint shortest (x : JsNumber) (n d : positive) (pt : Z) (fuel : nat) (k : Z)
  : Z * Z :=
  let sc := pt - k in
  let a := if 0 <=? sc then Zpos n else Zpos n * 10 ^ (- sc) in
  let b := if 0 <=? sc then Zpos d * 10 ^ sc else Zpos d in
  let lo := a / b in
  let hi := lo + 1 in
  let back (s : Z) :=
    match x, roundDecimal false (Z.to_N s) sc with
    | Dyadic _ m e, Dyadic _ m' e' => Pos.eqb m m' && (e =? e')
    | _, _ => false
    end in
  let pick :=
    match back lo, back hi with
    | true, true =>
        match 2 * (a - lo * b) ?= b with
        | Lt => Some lo
        | Gt => Some hi
        | Eq => Some (if Z.even lo then lo else hi)
        end
    | true, false => Some lo
    | false, true => Some hi
    | false, false => None
    end in
  match pick, fuel with
  | Some s, _ => (s, sc)
  | None, S fuel' => shortest x n d pt fuel' (k + 1)
  | None, O => (lo, sc)
  end.

Definition zeros (n : Z) : string := str (repeat "0"%char (Z.to_nat n)).

(** The text of the positive number [m * 2^e]. *)
Definition positiveToString (m : positive) (e : Z) : string :=
  let n := if 0 <=? e then (m * Z.to_pos (2 ^ e))%positive else m in
  let d := if 0 <=? e then 1%positive else Z.to_pos (2 ^ (- e)) in
  let (s0, sc0) := shortest (Dyadic false m e) n d (decimalPoint n d) 17 1 in
  let (s, sc) := stripZeros 400 s0 sc0 in
  let ds := chars (decimalString (Z.to_N s)) in
  let k := Z.of_nat (List.length ds) in
  let pt := k + sc in
  if (k <=? pt) && (pt <=? 21) then
    (str ds ++ zeros (pt - k))%string
  else if (0 <? pt) && (pt <=? 21) then
    (str (firstn (Z.to_nat pt) ds) ++ "." ++ str (skipn (Z.to_nat pt) ds))%string
  else if (-6 <? pt) && (pt <=? 0) then
    ("0." ++ zeros (- pt) ++ str ds)%string
  else
    let ex := pt - 1 in
    let sign := if 0 <=? ex then "+" else "-" in
    let mantissa :=
      match ds with
      | c :: r =>
          match r with
          | [] => str ds
          | _ => (str [c] ++ "." ++ str r)%string
          end
      | [] => str ds
      end in
    (mantissa ++ "e" ++ sign ++ decimalString (Z.to_N (Z.abs ex)))%string.

(** [String(x)] on a Number. *)
Definition NumberToString (x : JsNumber) : string :=
  match x with
  | NaN => "NaN"
  | Inf false => "Infinity"
  | Inf true => "-Infinity"
  | Zero _ => "0"
  | Dyadic false m e => positiveToString m e
  | Dyadic true m e => ("-" ++ positiveToString m e)%string
  end.

(** ** Objects used as dictionaries *)

(** The own properties of an object, in creation order. *)
Definition Obj (V : Type) : Type := list (string * V).

Fixpoint ownGet {V} (o : Obj V) (k : string) : option V :=
  match o with
  | [] => None
  | (k', v) :: r => if String.eqb k' k then Some v else ownGet r k
  end.

(** Defines or overwrites the own property [k]; a new property comes last,
    an overwritten one keeps its place. *)
Fixpoint ownSet {V} (o : Obj V) (k : string) (v : V) : Obj V :=
  match o with
  | [] => [(k, v)]
  | (k', v') :: r =>
      if String.eqb k' k then (k', v) :: r else (k', v') :: ownSet r k v
  end.

(** The properties every plain object inherits from [Object.prototype]. *)
Definition objectPrototypeKeys : list string :=
  ["constructor"; "__defineGetter__"; "__defineSetter__"; "hasOwnProperty";
   "__lookupGetter__"; "__lookupSetter__"; "isPrototypeOf";
   "propertyIsEnumerable"; "toString"; "valueOf"; "__proto__";
   "toLocaleString"].

Definition isInherited (k : string) : bool :=
  existsb (String.eqb k) objectPrototypeKeys.

(** [o[k] = v] on a plain object, [v] a primitive value: an own property
    is overwritten; otherwise the accessor [__proto__] of
    [Object.prototype] ignores a primitive, and every other key becomes an
    own property. *)
Definition assign {V} (o : Obj V) (k : string) (v : V) : Obj V :=
  match ownGet o k with
  | Some _ => ownSet o k v
  | None => if String.eqb k "__proto__" then o else ownSet o k v
  end.

(** An array index: the canonical decimal text of an integer below
    [2^32 - 1]. *)
Definition arrayIndex (k : string) : option N :=
  match digits 10 (chars k) with
  | Some v =>
      if (v <=? 4294967294) && String.eqb (decimalString (Z.to_N v)) k
      then Some (Z.to_N v) else None
  | None => None
  end.

Definition isArrayIndex (k : string) : bool :=
  match arrayIndex k with Some _ => true | None => false end.

Fixpoint insertIndex (i : N) (l : list N) : list N :=
  match l with
  | [] => [i]
  | j :: r => if (i <=? j)%N then i :: l else j :: insertIndex i r
  end.

Definition sortIndices (l : list N) : list N :=
  fold_right insertIndex [] l.

Definition indicesOf (ks : list string) : list N :=
  flat_map (fun k => match arrayIndex k with Some i => [i] | None => [] end) ks.

(** [OrdinaryOwnPropertyKeys]: the array indices in ascending numeric order,
    then the other string keys in creation order. *)
Definition orderKeys (ks : list string) : list string :=
  map decimalString (sortIndices (indicesOf ks))
  ++ filter (fun k => negb (isArrayIndex k)) ks.

Definition ownKeys {V} (o : Obj V) : list string := orderKeys (map fst o).

(** [Object.entries(o)] *)
Definition entries {V} (o : Obj V) : list (string * V) :=
  flat_map (fun k => match ownGet o k with
                     | Some v => [(k, v)]
                     | None => []
                     end) (ownKeys o).

(** ** Values *)

Inductive JsValue : Type :=
  | VUndefined
  | VNumber (x : JsNumber)
  | VString (s : string)
  | VInherited (k : string).   (* the member [k] of [Object.prototype] *)

(** [o[k]] on a plain object. *)
Definition get (o : Obj JsValue) (k : string) : JsValue :=
  match ownGet o k with
  | Some v => v
  | None => if isInherited k then VInherited k else VUndefined
  end.

(** The text of a member of [Object.prototype]: [__proto__] is the
    prototype object itself, [constructor] is the function [Object], the
    others are built-in functions named by their key.  The layout of a
    built-in function's text is the engine's; the one of V8 is used. *)
Definition inheritedText (k : string) : string :=
  if String.eqb k "__proto__" then "[object Object]"
  else
    let name := if String.eqb k "constructor" then "Object" else k in
    ("function " ++ name ++ "() { [native code] }")%string.

(** [String(v)] *)
Definition ToString (v : JsValue) : string :=
  match v with
  | VUndefined => "undefined"
  | VNumber x => NumberToString x
  | VString s => s
  | VInherited k => inheritedText k
  end.

(** [isNaN(v)]: [v] is converted to a Number first. *)
Definition isNaN (v : JsValue) : bool :=
  match v with
  | VUndefined => true
  | VNumber x => isNaNNumber x
  | VString s => isNaNNumber (Number s)
  | VInherited _ => true
  end.

End Js.

(* ================================================================== *)
(** * Base64 helpers of [services/geminiService.ts]                    *)
(* ================================================================== *)

Module Base64.

(** ** Code units *)

(** [String.fromCharCode(n)] for a code unit [n]; [s.charCodeAt(i)] is
    [charCode] of the [i]-th code unit. *)
Definition fromCharCode (n : Z) : ascii := ascii_of_N (Z.to_N n).
Definition charCode (c : ascii) : Z := Z.of_N (N_of_ascii c).

(** ** [btoa]: the browser's base64 encoder (RFC 4648, with padding) *)

Definition alphabet : list ascii :=
  list_ascii_of_string
    "ABCDEFGHIJKLMNOPQRSTUVWXYZabcdefghijklmnopqrstuvwxyz0123456789+/".

Definition pad : ascii := "="%char.

Definition sextetChar (i : Z) : ascii := nth (Z.to_nat i) alphabet pad.

Fixpoint indexFrom (c : ascii) (l : list ascii) (i : Z) : option Z :=
  match l with
  | [] => None
  | d :: r => if Ascii.eqb c d then Some i else indexFrom c r (i + 1)
  end.

Definition charSextet (c : ascii) : option Z := indexFrom c alphabet 0.

(** The 6-bit groups of a byte sequence, three bytes to four groups; a last
    group of one or two bytes is completed with zero bits. *)
Fixpoint sextets (bytes : list Z) : list Z :=
  match bytes with
  | a :: b :: c :: r =>
      Z.shiftr a 2
      :: Z.lor (Z.shiftl (Z.land a 3) 4) (Z.shiftr b 4)
      :: Z.lor (Z.shiftl (Z.land b 15) 2) (Z.shiftr c 6)
      :: Z.land c 63
      :: sextets r
  | [a; b] =>
      [Z.shiftr a 2;
       Z.lor (Z.shiftl (Z.land a 3) 4) (Z.shiftr b 4);
       Z.shiftl (Z.land b 15) 2]
  | [a] => [Z.shiftr a 2; Z.shiftl (Z.land a 3) 4]
  | [] => []
  end.

Definition padding (n : nat) : list ascii :=
  match Nat.modulo n 3 with
  | 1%nat => [pad; pad]
  | 2%nat => [pad]
  | _ => []
  end.

(** [btoa(binary)]: every code unit of [binary] is a byte. *)
Definition btoa (binary : string) : string :=
  let bytes := map charCode (list_ascii_of_string binary) in
  string_of_list_ascii (map sextetChar (sextets bytes) ++ padding (List.length bytes)).

(** ** [atob]: the browser's forgiving base64 decoder *)

Definition isAsciiWhitespace (c : ascii) : bool :=
  let n := charCode c in
  (n =? 9) || (n =? 10) || (n =? 12) || (n =? 13) || (n =? 32).

(** When the length is a multiple of four, one or two trailing [=] are
    removed. *)
Definition stripPadding (l : list ascii) : list ascii :=
  if Nat.eqb (Nat.modulo (List.length l) 4) 0 then
    match rev l with
    | p :: q :: r =>
        if Ascii.eqb p pad then
          if Ascii.eqb q pad then rev r else rev (q :: r)
        else l
    | _ => l
    end
  else l.

Fixpoint mapM {A B} (f : A -> option B) (l : list A) : option (list B) :=
  match l with
  | [] => Some []
  | x :: r =>
      match f x, mapM f r with
      | Some y, Some ys => Some (y :: ys)
      | _, _ => None
      end
  end.

(** Four groups give three bytes; two or three remaining groups give one or
    two bytes, the left-over bits being dropped. *)
Fixpoint bytesOfSextets (l : list Z) : list Z :=
  match l with
  | s1 :: s2 :: s3 :: s4 :: r =>
      Z.lor (Z.shiftl s1 2) (Z.shiftr s2 4)
      :: Z.lor (Z.shiftl (Z.land s2 15) 4) (Z.shiftr s3 2)
      :: Z.lor (Z.shiftl (Z.land s3 3) 6) s4
      :: bytesOfSextets r
  | [s1; s2; s3] =>
      [Z.lor (Z.shiftl s1 2) (Z.shiftr s2 4);
       Z.lor (Z.shiftl (Z.land s2 15) 4) (Z.shiftr s3 2)]
  | [s1; s2] => [Z.lor (Z.shiftl s1 2) (Z.shiftr s2 4)]
  | _ => []
  end.

(** [atob(base64)]: [None] stands for the [InvalidCharacterError]. *)
Definition atob (base64 : string) : option string :=
  let data := filter (fun c => negb (isAsciiWhitespace c))
                     (list_ascii_of_string base64) in
  let data := stripPadding data in
  if Nat.eqb (Nat.modulo (List.length data) 4) 1 then None
  else
    match mapM charSextet data with
    | None => None
    | Some sx =>
        Some (string_of_list_ascii (map fromCharCode (bytesOfSextets sx)))
    end.

(** ** The helpers themselves *)

(** [encode(bytes)]: the loop appends [String.fromCharCode(bytes[i])] for
    [i = 0 .. len-1]; the result goes through [btoa]. *)
Definition encode (bytes : list Z) : string :=
  let binary := string_of_list_ascii (map fromCharCode bytes) in
  btoa binary.

(** [decode(base64)]: [atob], then [bytes[i] = binaryString.charCodeAt(i)]. *)
Definition decode (base64 : string) : option (list Z) :=
  match atob base64 with
  | None => None
  | Some binaryString =>
      Some (map charCode (list_ascii_of_string binaryString))
  end.

(** A [Uint8Array]: every element is in 0..255. *)
Definition isByte (b : Z) : Prop := 0 <= b < 256.

(** A 6-bit group. *)
Definition isSextet (s : Z) : Prop := 0 <= s < 64.

End Base64.

(* ================================================================== *)
(** * Data model ([types.ts])                                          *)
(* ================================================================== *)

Module Types.

(** [type: 'bar' | 'line' | 'scatter']; the value comes from [JSON.parse]
    without a check, [otherType] stands for any other text. *)
Inductive ChartType : Type :=
  | bar
  | line
  | scatter
  | otherType (name : string).

Record ChartParameter : Type := {
  type : ChartType;
  title : string;
  description : string;
  xAxisLabel : option string;
  yAxisLabel : option string;
  columns : list string
}.

(** A field of the reply that should hold an array of strings.  The value
    of [JSON.parse] is cast to [DataAnalysisResult] without a check, so the
    field can hold anything: [NotArray] stands for a value that is not an
    array, known by the message of the [TypeError] that calling [.join] on
    it raises. *)
Inductive ArrayField : Type :=
  | IsArray (items : list string)
  | NotArray (typeError : string).

Record DataAnalysisResult : Type := {
  summary : string;
  keyInsights : ArrayField;
  dataQualityIssues : ArrayField;
  narrativeHook : string;
  chartParameters : list ChartParameter;
  analysisNotes : option (list string)
}.

Inductive Sender : Type := user | ai.

Record Message : Type := {
  id : string;
  sender : Sender;
  text : string;
  timestamp : string;
  audioAvailable : option bool;
  isPlaying : option bool
}.

Record CSVData : Type := {
  headers : list string;
  rows : list (list string)
}.

End Types.

(* ================================================================== *)
(** * Chart Data Mapper ([components/DataAnalysisDisplay.tsx])          *)
(* ================================================================== *)

Module Mapper.
Import Js Types.

(** [parseValue(value)]; [None] is an [undefined] or [null] argument, which
    is what [row[i]] gives past the end of a row. *)
Definition parseValue (value : option string) : JsValue :=
  match value with
  | None => VNumber NaN
  | Some value =>
      if String.eqb (trim value) "" then VNumber NaN
      else
        let num := Number value in
        if isNaNNumber num then VString value else VNumber num
  end.

(** The loop [data.headers.forEach((header, i) => ...)] from index [i] on. *)
Fixpoint fillRow (hs : list string) (i : nat) (row : list string)
                 (rowObject : Obj JsValue) : Obj JsValue :=
  match hs with
  | [] => rowObject
  | header :: hs' =>
      fillRow hs' (S i) row
              (assign rowObject header (parseValue (nth_error row i)))
  end.

Definition rawRows (data : CSVData) : list (Obj JsValue) :=
  map (fun row => fillRow (headers data) 0 row []) (rows data).

(** A value of the [counts] dictionary: a number of rows (far below
    [2^53], where [+ 1] is exact), or the text that
    [(counts[value] || 0) + 1] produces when [counts[value]] is not a number. *)
Inductive Count : Type :=
  | Num (n : N)
  | Text (s : string).

(** [(counts[value] || 0) + 1] *)
Definition increment (counts : Obj Count) (value : string) : Count :=
  match ownGet counts value with
  | Some (Num n) => Num (n + 1)
  | Some (Text s) => if String.eqb s "" then Num 1 else Text (s ++ "1")
  | None =>
      if isInherited value then Text (inheritedText value ++ "1")
      else Num 1
  end.

(** The body of [rawRows.forEach(row => ...)] of the bar case. *)
Definition countRow (column : string) (counts : Obj Count)
                    (row : Obj JsValue) : Obj Count :=
  let value := ToString (get row column) in
  if negb (String.eqb value "NaN") && negb (String.eqb value "undefined")
  then assign counts value (increment counts value)
  else counts.

(** A record of the returned array: [{ name, count }] for a bar chart, an
    object keyed by column names for the other charts. *)
Inductive ChartRecord : Type :=
  | CountRecord (name : string) (count : Count)
  | PointRecord (fields : Obj JsValue).

(** The body of [yCols.forEach(yCol => ...)] of the line case. *)
Definition addSeries (row : Obj JsValue) (obj : Obj JsValue) (yCol : string)
  : Obj JsValue :=
  if negb (isNaN (get row yCol)) then assign obj yCol (get row yCol) else obj.

Definition prepareChartData (chartParam : ChartParameter) (data : CSVData)
  : list ChartRecord :=
  let rawRows := rawRows data in
  match type chartParam with
  | bar =>
      match columns chartParam with
      | [column] =>
          let counts := fold_left (countRow column) rawRows [] in
          map (fun '(name, count) => CountRecord name count) (entries counts)
      | _ => []
      end
  | scatter =>
      match columns chartParam with
      | [xCol; yCol] =>
          map (fun row =>
                 PointRecord
                   (ownSet (ownSet [] xCol (get row xCol)) yCol (get row yCol)))
              (filter (fun row => negb (isNaN (get row xCol))
                                  && negb (isNaN (get row yCol))) rawRows)
      | _ => []
      end
  | line =>
      match columns chartParam with
      | xCol :: _ :: _ =>
          let yCols := sliceFrom 1 (columns chartParam) in
          map (fun row =>
                 PointRecord
                   (fold_left (addSeries row) yCols
                              (ownSet [] xCol (get row xCol))))
              rawRows
      | _ => []
      end
  | otherType _ => []
  end.

(** ** The mapping rules in the words of the specification *)

(** The distinct elements of a list, in first-seen order. *)
Fixpoint firstSeen (l : list string) : list string :=
  match l with
  | [] => []
  | k :: r => k :: filter (fun k' => negb (String.eqb k' k)) (firstSeen r)
  end.

Definition occurrences (k : string) (l : list string) : N :=
  N.of_nat (List.length (filter (String.eqb k) l)).




(** The keys the bar case counts: the text of the column's value in every
    row, except the texts [NaN] and [undefined]. *)
Definition countedKeys (column : string) (data : CSVData) : list string :=
  filter (fun value => negb (String.eqb value "NaN")
                       && negb (String.eqb value "undefined"))
         (map (fun row => ToString (get row column)) (rawRows data)).

(** What the bar case does with one counted key. *)
Definition countKey (counts : Obj Count) (value : string) : Obj Count :=
  assign counts value (increment counts value).

(** The dictionary of the occurrences of the keys [ks], one entry per
    distinct key in first-seen order. *)
Definition tally (ks : list string) : Obj Count :=
  map (fun k => (k, Num (occurrences k ks))) (firstSeen ks).

(** ** Notions used to state the properties of the mapper *)





Definition mem (k : string) (l : list string) : bool :=
  existsb (String.eqb k) l.

(** The position of the last header named [col]. *)
Fixpoint lastIndexOf (col : string) (hs : list string) : option nat :=
  match hs with
  | [] => None
  | h :: hs' =>
      match lastIndexOf col hs' with
      | Some j => Some (S j)
      | None => if String.eqb h col then Some 0%nat else None
      end
  end.


(** ** The table, cell by cell *)







End Mapper.

(* ================================================================== *)
(** * Chat input ([components/ChatInput.tsx])                           *)
(* ================================================================== *)

Module ChatInput.
Import Js.

(** A string in a condition: the empty string is false. *)
Definition truthy (s : string) : bool := negb (String.eqb s "").

(** What a run of the handler did: the argument [onSendMessage] was called
    with, if it was called, and the content of the input afterwards. *)
Record Outcome : Type := {
  sent : option string;
  inputAfter : string
}.

(** [handleSendMessage()] with the current [inputValue] and [isDisabled]. *)
Definition handleSendMessage (inputValue : string) (isDisabled : bool)
  : Outcome :=
  if truthy (trim inputValue) && negb isDisabled then
    {| sent := Some (trim inputValue); inputAfter := "" |}
  else
    {| sent := None; inputAfter := inputValue |}.

(** [handleKeyPress(event)]: Enter without Shift sends. *)
Definition handleKeyPress (key : string) (shiftKey : bool)
                          (inputValue : string) (isDisabled : bool)
  : Outcome :=
  if String.eqb key "Enter" && negb shiftKey
  then handleSendMessage inputValue isDisabled
  else {| sent := None; inputAfter := inputValue |}.

End ChatInput.

(* ================================================================== *)
(** * Analysis Client and chat ([services/geminiService.ts])            *)
(* ================================================================== *)

Module Service.
Import Js Types.

(** How a promise settles; a rejection carries the message of its error. *)
Inductive Settled (A : Type) : Type :=
  | Resolved (value : A)
  | Rejected (message : string).
Arguments Resolved {A} value.
Arguments Rejected {A} message.

Definition nl : string := String (ascii_of_nat 10) EmptyString.

Definition maxRowsForPrompt : nat := 100.

(** [csvContent]: the header line and the lines of the first rows. *)
Definition csvContent (csvData : CSVData) : string :=
  join nl (join "," (headers csvData)
           :: map (fun row => join "," row)
                  (slice0 maxRowsForPrompt (rows csvData))).

(** The note about the rows left out of the prompt. *)
Definition truncationText : string :=
  "Only the first 100 rows of your CSV were sent to the AI for analysis due to prompt length limitations. The full dataset was used for chart generation.".

Definition truncationNote (csvData : CSVData) : option string :=
  if Nat.ltb maxRowsForPrompt (List.length (rows csvData))
  then Some truncationText else None.

(** The text of the prompt before and after the CSV sample. *)
Definition promptHead : string :=
  "You are an expert data analyst. Analyze the following CSV data and provide a structured JSON response.
  
  CSV Data:
".

Definition promptTail : string :=
  "

  
  Please provide:
  1. A high-level 'summary' of the dataset (around 2-3 sentences).
  2. An array of 'keyInsights' (3-5 concise, interesting findings).
  3. An array of 'dataQualityIssues' (e.g., missing values, inconsistencies, potential outliers; 0-3 issues).
  4. A 'narrativeHook' (an engaging start or idea for a data story, 1-2 sentences).
  5. An array of 'chartParameters', each specifying:
     - 'type': 'bar', 'line', or 'scatter' (choose based on data suitability).
     - 'title': A descriptive title for the chart.
     - 'description': What the plot would show and why it's relevant.
     - 'xAxisLabel' (optional): Label for the x-axis.
     - 'yAxisLabel' (optional): Label for the y-axis.
     - 'columns': An array of column names from the CSV data to be used in the chart. For 'bar' charts with a single column, it implies a count of unique values. For 'scatter' or 'line' charts, the first column is typically X and subsequent are Y. Ensure the columns selected are appropriate for the chart type (e.g., numerical for scatter/line axes).
  
  Return the response in JSON format according to the following schema. Ensure all fields are present, even if empty arrays for lists.
  
  Schema for chartParameters:
  interface ChartParameter {
    type: 'bar' | 'line' | 'scatter';
    title: string;
    description: string;
    xAxisLabel?: string;
    yAxisLabel?: string;
    columns: string[];
  }
  
  Schema for DataAnalysisResult:
  interface DataAnalysisResult {
    summary: string;
    keyInsights: string[];
    dataQualityIssues: string[];
    narrativeHook: string;
    chartParameters: ChartParameter[];
    analysisNotes?: string[]; // Use this to pass truncation notes if any
  }
  
  Make sure your JSON is valid and complete.
  ".

Definition prompt (csvData : CSVData) : string :=
  (promptHead ++ csvContent csvData ++ promptTail)%string.

(** The code-fence markers some models wrap the JSON in. *)
Definition stripFence (text : string) : string :=
  let jsonStr := trim text in
  let jsonStr :=
    if startsWith jsonStr "```json"
    then substring jsonStr 7 (String.length jsonStr) else jsonStr in
  if endsWith jsonStr "```"
  then substring jsonStr 0 (String.length jsonStr - 3) else jsonStr.

(** [result.analysisNotes.unshift(note)], after [analysisNotes] was set to
    the empty array when missing. *)
Definition unshiftNote (note : string) (result : DataAnalysisResult)
  : DataAnalysisResult :=
  {| summary := summary result;
     keyInsights := keyInsights result;
     dataQualityIssues := dataQualityIssues result;
     narrativeHook := narrativeHook result;
     chartParameters := chartParameters result;
     analysisNotes :=
       Some (note :: match analysisNotes result with
                     | Some notes => notes
                     | None => []
                     end) |}.

(** The notes of a result, an absent list counting as empty. *)
Definition notesOf (result : DataAnalysisResult) : list string :=
  match analysisNotes result with
  | Some notes => notes
  | None => []
  end.

Section Client.

(** The hosted model, for the fixed model name and response schema: how
    the request for a prompt settles; the response may carry no text. *)
Variable generateContent : string -> Settled (option string).

(** [JSON.parse], followed by the unchecked cast to [DataAnalysisResult]:
    a rejection is the [SyntaxError], [None] is the value [null]. *)
Variable JSON_parse : string -> Settled (option DataAnalysisResult).

(** The message of the [TypeError] raised by a property access on
    [undefined] or [null]. *)
Variable typeErrorMessage : string.

Definition analysisFailure {A} (message : string) : Settled A :=
  Rejected ("Failed to analyze CSV data: " ++ message)%string.

Definition analyzeCsvData (csvData : CSVData)
  : Settled (option DataAnalysisResult * option string) :=
  let truncationNote := truncationNote csvData in
  match generateContent (prompt csvData) with
  | Rejected message => analysisFailure message
  | Resolved None => analysisFailure typeErrorMessage
  | Resolved (Some text) =>
      match JSON_parse (stripFence text) with
      | Rejected message => analysisFailure message
      | Resolved result =>
          match truncationNote, result with
          | Some note, Some result =>
              Resolved (Some (unshiftNote note result), truncationNote)
          | Some _, None => analysisFailure typeErrorMessage
          | None, _ => Resolved (result, truncationNote)
          end
      end
  end.

End Client.

(** ** Chat and speech *)

(** A chat session: the model name is fixed, the session is known by its
    system instruction. *)
Record Chat : Type := { systemInstruction : string }.

Definition createChatSession (initialContext : string) : Chat :=
  {| systemInstruction :=
       ("You are an AI data scientist assisting a user with insights about their uploaded CSV data.
      You have already provided an initial analysis. Now, respond to follow-up questions about the data.
      Keep responses concise and helpful. Remember the context of the initial data analysis: " ++ initialContext)%string |}.

Record Usage : Type := { inputTokens : N; outputTokens : N }.

(** A fragment of a streamed reply. *)
Record Chunk : Type := {
  chunkText : option string;
  chunkCandidates : option string;
  chunkUsage : option Usage
}.

(** What the stream of a reply delivers: fragments in arrival order, then
    its end or an error. *)
Record Stream : Type := {
  chunks : list Chunk;
  streamError : option string
}.

Record GenerateContentResponse : Type := {
  responseText : string;
  candidates : option string;
  usage : Usage
}.

(** [fullText]: the texts of the fragments that have one, in order. *)
Definition fullText (cs : list Chunk) : string :=
  fold_left (fun acc chunk =>
               match chunkText chunk with
               | Some t => if String.eqb t "" then acc else (acc ++ t)%string
               | None => acc
               end) cs "".

Definition sumUsage (cs : list Chunk) : Usage :=
  fold_left (fun acc chunk =>
               {| inputTokens :=
                    (inputTokens acc
                     + match chunkUsage chunk with
                       | Some u => inputTokens u | None => 0 end)%N;
                  outputTokens :=
                    (outputTokens acc
                     + match chunkUsage chunk with
                       | Some u => outputTokens u | None => 0 end)%N |})
            cs {| inputTokens := 0; outputTokens := 0 |}.

(** [sendMessageToChat(chat, message)], given how the request
    [chat.sendMessageStream({ message })] went. *)
Definition sendMessageToChat (stream : Settled Stream)
  : Settled GenerateContentResponse :=
  match stream with
  | Rejected message => Rejected ("Failed to send message: " ++ message)%string
  | Resolved s =>
      match streamError s with
      | Some message => Rejected ("Failed to send message: " ++ message)%string
      | None =>
          Resolved {| responseText := fullText (chunks s);
                      candidates :=
                        match chunks s with
                        | first :: _ => chunkCandidates first
                        | [] => None
                        end;
                      usage := sumUsage (chunks s) |}
      end
  end.

(** [generateSpeech(text)], given how the request went: the payload
    [candidates[0].content.parts[0].inlineData.data] of the response, if
    there is one. *)
Definition generateSpeech (response : Settled (option string))
  : Settled string :=
  match response with
  | Rejected message =>
      Rejected ("Failed to generate speech: " ++ message)%string
  | Resolved None =>
      Rejected "Failed to generate speech: No audio data received from TTS API."
  | Resolved (Some base64Audio) =>
      if String.eqb base64Audio "" then
        Rejected
          "Failed to generate speech: No audio data received from TTS API."
      else Resolved base64Audio
  end.

(** An [AudioBuffer] with one channel: sample [i] is [samples[i] / 32768]. *)
Record AudioBuffer : Type := {
  sampleRate : Z;
  samples : list Z
}.

(** The 16-bit little-endian signed integers of a byte array, as
    [new Int16Array(data.buffer)] reads them; [None] when the byte length
    is odd. *)
Fixpoint int16s (data : list Z) : option (list Z) :=
  match data with
  | [] => Some []
  | lo :: hi :: r =>
      match int16s r with
      | Some l =>
          let u := lo + 256 * hi in
          Some ((if u <? 32768 then u else u - 65536) :: l)
      | None => None
      end
  | [_] => None
  end.

(** [decodeAudioData(data, ctx, sampleRate, 1)]: [None] when the typed
    array or the buffer cannot be created (odd byte length, no frame). *)
Definition decodeAudioData (data : list Z) (sampleRate : Z)
  : option AudioBuffer :=
  match int16s data with
  | Some [] => None
  | Some dataInt16 => Some {| sampleRate := sampleRate; samples := dataInt16 |}
  | None => None
  end.


End Service.

(* ================================================================== *)
(** * Application state controller ([App.tsx])                          *)
(* ================================================================== *)

Module App.
Import Js Types Service.

(** ** State *)

Record File : Type := { fileName : string; size : Z }.

(** An [AudioBufferSourceNode]; its [onended] handler is the one
    [handlePlayAudio] installed for [sourceMessage]. *)
Record AudioSource : Type := {
  sourceMessage : string;
  buffer : AudioBuffer
}.

(** The state variables and refs of the component. *)
Record AppState : Type := {
  selectedFile : option File;
  csvData : option CSVData;
  analysisResult : option DataAnalysisResult;
  chatMessages : list Message;
  isLoadingAnalysis : bool;
  isSendingChat : bool;
  error : option string;
  currentChatSession : option Chat;
  outputAudioContext : bool;
  currentAudioSource : option AudioSource;
  playingMessageId : option string
}.

Definition initialState : AppState :=
  {| selectedFile := None; csvData := None; analysisResult := None;
     chatMessages := []; isLoadingAnalysis := false; isSendingChat := false;
     error := None; currentChatSession := None; outputAudioContext := false;
     currentAudioSource := None; playingMessageId := None |}.

Definition setSelectedFile (v : option File) (st : AppState) : AppState :=
  {| selectedFile := v; csvData := csvData st;
     analysisResult := analysisResult st; chatMessages := chatMessages st;
     isLoadingAnalysis := isLoadingAnalysis st;
     isSendingChat := isSendingChat st; error := error st;
     currentChatSession := currentChatSession st;
     outputAudioContext := outputAudioContext st;
     currentAudioSource := currentAudioSource st;
     playingMessageId := playingMessageId st |}.

Definition setCsvData (v : option CSVData) (st : AppState) : AppState :=
  {| selectedFile := selectedFile st; csvData := v;
     analysisResult := analysisResult st; chatMessages := chatMessages st;
     isLoadingAnalysis := isLoadingAnalysis st;
     isSendingChat := isSendingChat st; error := error st;
     currentChatSession := currentChatSession st;
     outputAudioContext := outputAudioContext st;
     currentAudioSource := currentAudioSource st;
     playingMessageId := playingMessageId st |}.

Definition setAnalysisResult (v : option DataAnalysisResult) (st : AppState)
  : AppState :=
  {| selectedFile := selectedFile st; csvData := csvData st;
     analysisResult := v; chatMessages := chatMessages st;
     isLoadingAnalysis := isLoadingAnalysis st;
     isSendingChat := isSendingChat st; error := error st;
     currentChatSession := currentChatSession st;
     outputAudioContext := outputAudioContext st;
     currentAudioSource := currentAudioSource st;
     playingMessageId := playingMessageId st |}.

Definition setChatMessages (v : list Message) (st : AppState) : AppState :=
  {| selectedFile := selectedFile st; csvData := csvData st;
     analysisResult := analysisResult st; chatMessages := v;
     isLoadingAnalysis := isLoadingAnalysis st;
     isSendingChat := isSendingChat st; error := error st;
     currentChatSession := currentChatSession st;
     outputAudioContext := outputAudioContext st;
     currentAudioSource := currentAudioSource st;
     playingMessageId := playingMessageId st |}.

Definition setIsLoadingAnalysis (v : bool) (st : AppState) : AppState :=
  {| selectedFile := selectedFile st; csvData := csvData st;
     analysisResult := analysisResult st; chatMessages := chatMessages st;
     isLoadingAnalysis := v;
     isSendingChat := isSendingChat st; error := error st;
     currentChatSession := currentChatSession st;
     outputAudioContext := outputAudioContext st;
     currentAudioSource := currentAudioSource st;
     playingMessageId := playingMessageId st |}.

Definition setIsSendingChat (v : bool) (st : AppState) : AppState :=
  {| selectedFile := selectedFile st; csvData := csvData st;
     analysisResult := analysisResult st; chatMessages := chatMessages st;
     isLoadingAnalysis := isLoadingAnalysis st;
     isSendingChat := v; error := error st;
     currentChatSession := currentChatSession st;
     outputAudioContext := outputAudioContext st;
     currentAudioSource := currentAudioSource st;
     playingMessageId := playingMessageId st |}.

Definition setError (v : option string) (st : AppState) : AppState :=
  {| selectedFile := selectedFile st; csvData := csvData st;
     analysisResult := analysisResult st; chatMessages := chatMessages st;
     isLoadingAnalysis := isLoadingAnalysis st;
     isSendingChat := isSendingChat st; error := v;
     currentChatSession := currentChatSession st;
     outputAudioContext := outputAudioContext st;
     currentAudioSource := currentAudioSource st;
     playingMessageId := playingMessageId st |}.

Definition setCurrentChatSession (v : option Chat) (st : AppState)
  : AppState :=
  {| selectedFile := selectedFile st; csvData := csvData st;
     analysisResult := analysisResult st; chatMessages := chatMessages st;
     isLoadingAnalysis := isLoadingAnalysis st;
     isSendingChat := isSendingChat st; error := error st;
     currentChatSession := v;
     outputAudioContext := outputAudioContext st;
     currentAudioSource := currentAudioSource st;
     playingMessageId := playingMessageId st |}.

Definition setOutputAudioContext (v : bool) (st : AppState) : AppState :=
  {| selectedFile := selectedFile st; csvData := csvData st;
     analysisResult := analysisResult st; chatMessages := chatMessages st;
     isLoadingAnalysis := isLoadingAnalysis st;
     isSendingChat := isSendingChat st; error := error st;
     currentChatSession := currentChatSession st;
     outputAudioContext := v;
     currentAudioSource := currentAudioSource st;
     playingMessageId := playingMessageId st |}.

Definition setCurrentAudioSource (v : option AudioSource) (st : AppState)
  : AppState :=
  {| selectedFile := selectedFile st; csvData := csvData st;
     analysisResult := analysisResult st; chatMessages := chatMessages st;
     isLoadingAnalysis := isLoadingAnalysis st;
     isSendingChat := isSendingChat st; error := error st;
     currentChatSession := currentChatSession st;
     outputAudioContext := outputAudioContext st;
     currentAudioSource := v;
     playingMessageId := playingMessageId st |}.

Definition setPlayingMessageId (v : option string) (st : AppState)
  : AppState :=
  {| selectedFile := selectedFile st; csvData := csvData st;
     analysisResult := analysisResult st; chatMessages := chatMessages st;
     isLoadingAnalysis := isLoadingAnalysis st;
     isSendingChat := isSendingChat st; error := error st;
     currentChatSession := currentChatSession st;
     outputAudioContext := outputAudioContext st;
     currentAudioSource := currentAudioSource st;
     playingMessageId := v |}.

(** ** Handlers *)

(** What a handler asks of its environment: the operations it starts and
    the audio nodes it drives.  [ParseCsv] marks a run of the Tabular
    Parser. *)
Inductive Call : Type :=
  | ReadAsText (file : File)
  | ParseCsv (text : string)
  | AnalyzeCsvData (data : CSVData)
  | CreateChatSession (initialContext : string)
  | SendMessageToChat (chat : Chat) (newUserMessage : Message)
  | GenerateSpeech (messageId : string) (text : string)
  | CreateAudioContext
  | SourceStart (source : AudioSource)
  | SourceStop (source : AudioSource)
  | SourceDisconnect (source : AudioSource).

(** A piece of a handler: the state it leaves and the calls it made. *)
Definition Handler : Type := AppState -> AppState * list Call.

Definition skip : Handler := fun st => (st, []).

Definition update (f : AppState -> AppState) : Handler :=
  fun st => (f st, []).

Definition call (c : Call) : Handler := fun st => (st, [c]).

Definition read {A} (g : AppState -> A) (k : A -> Handler) : Handler :=
  fun st => k (g st) st.

Definition andThen (h1 h2 : Handler) : Handler :=
  fun st =>
    let (st1, calls1) := h1 st in
    let (st2, calls2) := h2 st1 in
    (st2, calls1 ++ calls2).

Notation "h1 ;; h2" := (andThen h1 h2) (at level 61, right associativity).

(** [setChatMessages(prev => f(prev))] *)
Definition updateChatMessages (f : list Message -> list Message) : Handler :=
  update (fun st => setChatMessages (f (chatMessages st)) st).

(** *** Upload *)

Definition sizeLimit : Z := 20 * 1024 * 1024.

(** [handleFileSelect(file)] up to the call of [reader.readAsText]. *)
Definition handleFileSelect (file : File) : Handler :=
  update (setSelectedFile (Some file)) ;;
  update (setError None) ;;
  update (setAnalysisResult None) ;;
  update (setChatMessages []) ;;
  if sizeLimit <? size file then
    update (setError (Some "File size exceeds 20MB limit.")) ;;
    update (setSelectedFile None)
  else
    call (ReadAsText file).

(** [s.split(sep)] for a separator of one code unit. *)
Fixpoint splitChars (sep : ascii) (l : list ascii) : list (list ascii) :=
  match l with
  | [] => [[]]
  | c :: r =>
      if Ascii.eqb c sep then [] :: splitChars sep r
      else match splitChars sep r with
           | part :: parts => (c :: part) :: parts
           | [] => [[c]]
           end
  end.

Definition split (sep : ascii) (s : string) : list string :=
  map str (splitChars sep (chars s)).

(** The Tabular Parser, inlined in [reader.onload]; [None] when no line is
    left after the blank ones are dropped. *)
Definition parseCsv (text : string) : option CSVData :=
  let lines := filter (fun line => negb (String.eqb (trim line) ""))
                      (split (ascii_of_nat 10) text) in
  match lines with
  | [] => None
  | first :: rest =>
      Some {| headers := map trim (split ","%char first);
              rows := map (fun line => map trim (split ","%char line)) rest |}
  end.

(** [analyzeAndChat(data)] up to the call of [analyzeCsvData]. *)
Definition analyzeAndChat (data : CSVData) : Handler :=
  update (setIsLoadingAnalysis true) ;;
  update (setError None) ;;
  call (AnalyzeCsvData data).

(** [reader.onload] *)
Definition onload (text : string) : Handler :=
  call (ParseCsv text) ;;
  match parseCsv text with
  | None =>
      update (setError (Some "CSV file is empty.")) ;;
      update (setSelectedFile None)
  | Some data =>
      update (setCsvData (Some data)) ;;
      analyzeAndChat data
  end.

Definition dq : string := String (ascii_of_nat 34) EmptyString.

(** [field.join(', ')]: a [TypeError] when the field holds no array. *)
Definition joinField (field : ArrayField) : Settled string :=
  match field with
  | IsArray items => Resolved (join ", " items)
  | NotArray typeError => Rejected typeError
  end.

(** The text of the template for a summary and the two joined lists. *)
Definition contextText (summary insights issues : string) : string :=
  ("The CSV data you analyzed has the following summary: " ++ dq
   ++ summary ++ dq ++ ". Key insights: "
   ++ insights ++ ". Data quality issues: "
   ++ issues ++ ".")%string.

(** The template literal of [analyzeAndChat]: its parts are evaluated in
    order, and the first [.join] that fails raises its [TypeError]. *)
Definition initialContext (result : DataAnalysisResult) : Settled string :=
  match joinField (keyInsights result) with
  | Rejected message => Rejected message
  | Resolved insights =>
      match joinField (dataQualityIssues result) with
      | Rejected message => Rejected message
      | Resolved issues =>
          Resolved (contextText (summary result) insights issues)
      end
  end.

(** [analyzeAndChat] from the point where [analyzeCsvData] settled.  The
    result is stored first; an error raised by the template after that is
    caught like a failure of the analysis, and what follows the template
    in the [try] block (the new session, the cleared transcript) is
    skipped. *)
Definition analysisSettled
    (outcome : Settled (option DataAnalysisResult * option string))
  : Handler :=
  match outcome with
  | Resolved (newAnalysisResult, _) =>
      update (setAnalysisResult newAnalysisResult) ;;
      match newAnalysisResult with
      | Some result =>
          match initialContext result with
          | Resolved context =>
              call (CreateChatSession context) ;;
              update (setCurrentChatSession
                        (Some (createChatSession context))) ;;
              update (setChatMessages [])
          | Rejected message =>
              update (setError
                        (Some ("Failed to perform data analysis: "
                               ++ message)%string))
          end
      | None => update (setChatMessages [])
      end
  | Rejected message =>
      update (setError
                (Some ("Failed to perform data analysis: " ++ message)%string))
  end ;;
  update (setIsLoadingAnalysis false).

(** *** Chat *)

(** [handleSendMessage(text)] up to the call of [sendMessageToChat];
    [userId] and [userTime] are what [uuidv4()] and the clock gave. *)
Definition handleSendMessage (text userId userTime : string) : Handler :=
  read (fun st => (currentChatSession st, analysisResult st))
       (fun '(session, result) =>
          match session, result with
          | Some chat, Some _ =>
              let newUserMessage :=
                {| id := userId; sender := user; text := text;
                   timestamp := userTime; audioAvailable := None;
                   isPlaying := None |} in
              update (setIsSendingChat true) ;;
              update (setError None) ;;
              updateChatMessages (fun prev => prev ++ [newUserMessage]) ;;
              call (SendMessageToChat chat newUserMessage)
          | _, _ =>
              update (setError (Some "Please upload and analyze data first."))
          end).

(** [handleSendMessage] from the point where [sendMessageToChat] settled. *)
Definition chatSettled (newUserMessage : Message)
                       (response : Settled GenerateContentResponse)
                       (aiId aiTime : string) : Handler :=
  match response with
  | Resolved response =>
      let aiResponseText :=
        if String.eqb (responseText response) ""
        then "I'm sorry, I couldn't generate a response."
        else responseText response in
      let newAiMessage :=
        {| id := aiId; sender := ai; text := aiResponseText;
           timestamp := aiTime; audioAvailable := Some true;
           isPlaying := None |} in
      updateChatMessages (fun prev => prev ++ [newAiMessage])
  | Rejected message =>
      update (setError (Some ("Failed to send message: " ++ message)%string)) ;;
      updateChatMessages
        (filter (fun msg => negb (String.eqb (id msg) (id newUserMessage))))
  end ;;
  update (setIsSendingChat false).

(** *** Playback *)

Definition stopCurrentAudio : Handler :=
  read currentAudioSource
       (fun source =>
          match source with
          | Some source =>
              call (SourceStop source) ;;
              call (SourceDisconnect source) ;;
              update (setCurrentAudioSource None)
          | None => skip
          end) ;;
  update (setPlayingMessageId None).

Definition initAudioContext : Handler :=
  read outputAudioContext
       (fun created =>
          if created then skip
          else call CreateAudioContext ;; update (setOutputAudioContext true)).

(** [{ ...msg, isPlaying: flag }] *)
Definition withIsPlaying (flag : bool) (msg : Message) : Message :=
  {| id := id msg; sender := sender msg; text := text msg;
     timestamp := timestamp msg; audioAvailable := audioAvailable msg;
     isPlaying := Some flag |}.

(** [setChatMessages(prev => prev.map(msg => msg.id === messageId
    ? { ...msg, isPlaying: flag } : msg))] *)
Definition markPlaying (messageId : string) (flag : bool) : Handler :=
  updateChatMessages
    (map (fun msg => if String.eqb (id msg) messageId
                     then withIsPlaying flag msg else msg)).

(** [handlePlayAudio(messageId, text)] up to the call of [generateSpeech]. *)
Definition handlePlayAudio (messageId text : string) : Handler :=
  stopCurrentAudio ;;
  initAudioContext ;;
  update (setPlayingMessageId (Some messageId)) ;;
  markPlaying messageId true ;;
  call (GenerateSpeech messageId text).

(** The [catch] block of [handlePlayAudio]. *)
Definition playbackFailed (messageId message : string) : Handler :=
  update (setError (Some ("Failed to play audio: " ++ message)%string)) ;;
  update (setPlayingMessageId None) ;;
  markPlaying messageId false.

(** [handlePlayAudio] from the point where [generateSpeech] settled;
    [audioErrorMessage] is the message of the error raised when the audio
    cannot be decoded. *)
Definition speechSettled (audioErrorMessage : string) (messageId : string)
                         (speech : Settled string) : Handler :=
  match speech with
  | Rejected message => playbackFailed messageId message
  | Resolved base64Audio =>
      match Base64.decode base64Audio with
      | None => playbackFailed messageId audioErrorMessage
      | Some data =>
          match decodeAudioData data 24000 with
          | None => playbackFailed messageId audioErrorMessage
          | Some audioBuffer =>
              let source := {| sourceMessage := messageId;
                               buffer := audioBuffer |} in
              call (SourceStart source) ;;
              update (setCurrentAudioSource (Some source))
          end
      end
  end.

(** [source.onended] *)
Definition onended (source : AudioSource) : Handler :=
  update (setPlayingMessageId None) ;;
  markPlaying (sourceMessage source) false ;;
  update (setCurrentAudioSource None).

(** ** The component as a transition system *)

(** Equality tests on the data that identifies an operation in flight. *)
Definition File_eq_dec (a b : File) : {a = b} + {a <> b}.
Proof. decide equality; [apply Z.eq_dec | apply string_dec]. Defined.

Definition CSVData_eq_dec (a b : CSVData) : {a = b} + {a <> b}.
Proof.
  decide equality; repeat apply list_eq_dec; apply string_dec.
Defined.

Definition Chat_eq_dec (a b : Chat) : {a = b} + {a <> b}.
Proof. decide equality; apply string_dec. Defined.

Definition Message_eq_dec (a b : Message) : {a = b} + {a <> b}.
Proof.
  decide equality;
    try apply string_dec;
    try (decide equality; apply bool_dec);
    decide equality.
Defined.

Definition AudioSource_eq_dec (a b : AudioSource) : {a = b} + {a <> b}.
Proof.
  decide equality; [| apply string_dec].
  decide equality; [apply list_eq_dec |]; apply Z.eq_dec.
Defined.

Definition Call_eq_dec (a b : Call) : {a = b} + {a <> b}.
Proof.
  decide equality;
    first [ apply string_dec | apply File_eq_dec | apply CSVData_eq_dec
          | apply Chat_eq_dec | apply Message_eq_dec
          | apply AudioSource_eq_dec ].
Defined.

(** The calls that settle later: a read, a request to the hosted model, a
    started audio source (which ends later). *)
Definition settlesLater (c : Call) : bool :=
  match c with
  | ReadAsText _ | AnalyzeCsvData _ | SendMessageToChat _ _
  | GenerateSpeech _ _ | SourceStart _ => true
  | _ => false
  end.

(** The component between two events: its state and the operations in
    flight. *)
Record World : Type := {
  app : AppState;
  pending : list Call;
  history : list Call   (* every call made so far, oldest first *)
}.

Definition initialWorld : World :=
  {| app := initialState; pending := []; history := [] |}.

Definition run (h : Handler) (w : World) : World :=
  let (st, calls) := h (app w) in
  {| app := st;
     pending := pending w ++ filter settlesLater calls;
     history := history w ++ calls |}.

Fixpoint removeCall (c : Call) (l : list Call) : list Call :=
  match l with
  | [] => []
  | d :: r => if Call_eq_dec c d then r else d :: removeCall c r
  end.

(** The operation [c] settles and its continuation [h] runs; nothing
    happens when [c] is not in flight. *)
Definition settle (c : Call) (h : Handler) (w : World) : World :=
  if in_dec Call_eq_dec c (pending w)
  then run h {| app := app w; pending := removeCall c (pending w);
                history := history w |}
  else w.

(** The "Listen to AI response" button of [message] is rendered. *)
Definition listenable (message : Message) : bool :=
  match isPlaying message, audioAvailable message, sender message with
  | (None | Some false), Some true, ai => true
  | _, _, _ => false
  end.

Inductive Event : Type :=
  | FileSelected (file : File)
  | FileLoaded (file : File) (text : string)
  | AnalysisSettled (data : CSVData) (response : Settled (option string))
  | SendClicked (inputValue userId userTime : string)
  | ChatSettled (chat : Chat) (newUserMessage : Message)
                (stream : Settled Stream) (aiId aiTime : string)
  | ListenClicked (message : Message)
  | SpeechSettled (messageId text : string)
                  (response : Settled (option string))
  | SourceEnded (source : AudioSource).

Section Machine.

Variable JSON_parse : string -> Settled (option DataAnalysisResult).
Variable typeErrorMessage : string.
Variable audioErrorMessage : string.

Definition step (w : World) (ev : Event) : World :=
  match ev with
  | FileSelected file => run (handleFileSelect file) w
  | FileLoaded file text => settle (ReadAsText file) (onload text) w
  | AnalysisSettled data response =>
      settle (AnalyzeCsvData data)
             (analysisSettled
                (analyzeCsvData (fun _ => response) JSON_parse
                                typeErrorMessage data))
             w
  | SendClicked inputValue userId userTime =>
      if isSendingChat (app w) then w
      else
        let isDisabled :=
          match analysisResult (app w) with Some _ => false | None => true end in
        match ChatInput.sent
                (ChatInput.handleSendMessage inputValue isDisabled) with
        | Some text => run (handleSendMessage text userId userTime) w
        | None => w
        end
  | ChatSettled chat newUserMessage stream aiId aiTime =>
      settle (SendMessageToChat chat newUserMessage)
             (chatSettled newUserMessage (sendMessageToChat stream)
                          aiId aiTime)
             w
  | ListenClicked message =>
      if in_dec Message_eq_dec message (chatMessages (app w)) then
        if listenable message
        then run (handlePlayAudio (id message) (text message)) w
        else w
      else w
  | SpeechSettled messageId text response =>
      settle (GenerateSpeech messageId text)
             (speechSettled audioErrorMessage messageId
                            (generateSpeech response))
             w
  | SourceEnded source => settle (SourceStart source) (onended source) w
  end.

Definition runEvents (evs : list Event) : World :=
  fold_left step evs initialWorld.

Definition reachable (w : World) : Prop :=
  exists evs, w = runEvents evs.

End Machine.

(** The sources a history started and the ones it stopped. *)
Definition startedSources (calls : list Call) : list AudioSource :=
  flat_map (fun c => match c with SourceStart s => [s] | _ => [] end) calls.

Definition stoppedSources (calls : list Call) : list AudioSource :=
  flat_map (fun c => match c with SourceStop s => [s] | _ => [] end) calls.

(** The messages whose stored [isPlaying] flag is true. *)
Definition flaggedPlaying (st : AppState) : list string :=
  map id (filter (fun msg => match isPlaying msg with
                             | Some true => true
                             | _ => false
                             end) (chatMessages st)).

End App.

(* ================================================================== *)
(** * Sample data of the examples                                      *)
(* ================================================================== *)

Module Samples.
Import Js Types Mapper Service App.

(** Charts and tables of the examples of the specification. *)
Definition scatterExample : ChartParameter :=
  {| type := scatter; title := "y by x"; description := "";
     xAxisLabel := None; yAxisLabel := None; columns := ["x"; "y"] |}.

Definition scatterTable : CSVData :=
  {| headers := ["x"; "y"];
     rows := [["1"; "2"]; ["foo"; "3"]; ["4"; "bar"]] |}.

Definition lineExample : ChartParameter :=
  {| type := line; title := "a and b over t"; description := "";
     xAxisLabel := None; yAxisLabel := None; columns := ["t"; "a"; "b"] |}.

Definition lineTable : CSVData :=
  {| headers := ["t"; "a"; "b"]; rows := [["mon"; "1"; "n/a"]] |}.

Definition barExample : ChartParameter :=
  {| type := bar; title := "rows per c"; description := "";
     xAxisLabel := None; yAxisLabel := None; columns := ["c"] |}.

Definition column_c (cells : list string) : CSVData :=
  {| headers := ["c"]; rows := map (fun cell => [cell]) cells |}.

Definition sampleResult : DataAnalysisResult :=
  {| summary := "Two columns of small numbers.";
     keyInsights := IsArray ["b grows with a"];
     dataQualityIssues := IsArray [];
     narrativeHook := "What drives b?";
     chartParameters := [];
     analysisNotes := None |}.

(** A hosted model that always answers with the same JSON text, and a
    parser that reads it. *)
Definition sampleModel (prompt : string) : Settled (option string) :=
  Resolved (Some "```json{}```").

Definition sampleParse (jsonStr : string)
  : Settled (option DataAnalysisResult) :=
  if String.eqb jsonStr "{}" then Resolved (Some sampleResult)
  else Rejected "Unexpected token".

(** A table of [n] rows [i, i]. *)
Definition numberedRows (n : nat) : list (list string) :=
  map (fun i => [decimalString (N.of_nat i); decimalString (N.of_nat i)])
      (seq 0 n).

Definition tableOf (n : nat) : CSVData :=
  {| headers := ["a"; "b"]; rows := numberedRows n |}.

Definition smallFile : File := {| fileName := "data.csv"; size := 12 |}.

(** A file of 20 MB and one byte. *)
Definition bigFile : File := {| fileName := "big.csv"; size := 20971521 |}.

Definition smallText : string := "a,b
1,2
".

Definition smallTable : CSVData :=
  {| headers := ["a"; "b"]; rows := [["1"; "2"]] |}.

Definition sampleChat : Chat :=
  createChatSession
    (contextText "Two columns of small numbers." "b grows with a" "").

Definition userMessage (i q t : string) : Message :=
  {| id := i; sender := user; text := q; timestamp := t;
     audioAvailable := None; isPlaying := None |}.

Definition aiMessage (i r t : string) : Message :=
  {| id := i; sender := ai; text := r; timestamp := t;
     audioAvailable := Some true; isPlaying := None |}.

Definition reply (t : string) : Settled Stream :=
  Resolved {| chunks := [{| chunkText := Some t; chunkCandidates := None;
                            chunkUsage := None |}];
              streamError := None |}.

(** An upload, its analysis, and two questions with their answers. *)
Definition twoAnswers : list Event :=
  [FileSelected smallFile;
   FileLoaded smallFile smallText;
   AnalysisSettled smallTable (Resolved (Some "{}"));
   SendClicked "first question" "u1" "10:00:01";
   ChatSettled sampleChat (userMessage "u1" "first question" "10:00:01")
               (reply "first answer") "a1" "10:00:02";
   SendClicked "second question" "u2" "10:00:03";
   ChatSettled sampleChat (userMessage "u2" "second question" "10:00:03")
               (reply "second answer") "a2" "10:00:04"].

(** The state after [twoAnswers]: an analysis and a transcript of four
    messages. *)
Definition loaded : World := runEvents sampleParse "" "" twoAnswers.

(** 16-bit audio of two samples, as base64 text. *)
Definition sampleAudio : string := Base64.encode [0; 1; 255; 127].

Definition firstAnswer : Message := aiMessage "a1" "first answer" "10:00:02".
Definition secondAnswer : Message := aiMessage "a2" "second answer" "10:00:04".

(** The second answer is requested while the first is being synthesized. *)
Definition listenTwice : list Event :=
  twoAnswers ++ [ListenClicked firstAnswer; ListenClicked secondAnswer].

(** The same, and then both syntheses succeed. *)
Definition listenTwiceThenPlay : list Event :=
  listenTwice
  ++ [SpeechSettled "a1" "first answer" (Resolved (Some sampleAudio));
      SpeechSettled "a2" "second answer" (Resolved (Some sampleAudio))].

(** The second answer is requested while the first is being played. *)
Definition listenWhilePlaying : list Event :=
  twoAnswers
  ++ [ListenClicked firstAnswer;
      SpeechSettled "a1" "first answer" (Resolved (Some sampleAudio));
      ListenClicked secondAnswer].

End Samples.

(* ================================================================== *)
(** * Notions used to state further properties                         *)
(* ================================================================== *)

Module Notions.
Import Js Types Mapper Service App Samples.

(** Nothing to trim at the front. *)
Definition headKept (l : list ascii) : Prop :=
  match l with
  | [] => True
  | c :: _ => isWhiteSpace c = false
  end.

(** A text without the code unit [sep]. *)
Definition free (sep : ascii) (s : string) : Prop := ~ In sep (chars s).

(** A text that [trim] leaves as it is. *)
Definition trimmed (s : string) : Prop := trim s = s.

(** A line that the Tabular Parser keeps. *)
Definition nonBlank (line : string) : Prop := trim line <> "".

Definition lineFeed : ascii := ascii_of_nat 10.
Definition comma : ascii := ","%char.

(** A cell as the Tabular Parser produces it: trimmed, and without comma
    or line feed. *)
Definition plainCell (cell : string) : Prop :=
  trimmed cell /\ free comma cell /\ free lineFeed cell.

(** A row that is written as a line the parser keeps. *)
Definition writable (row : list string) : Prop :=
  row <> [] /\ nonBlank (join "," row).

(** A text with blank lines and padded cells. *)
Definition smallText_padded : string := " a , b

1,2 
   
".

(** The sum of the counts of the records of a bar chart. *)
Fixpoint countTotal (records : list ChartRecord) : N :=
  match records with
  | [] => 0%N
  | CountRecord _ (Num n) :: rest => (n + countTotal rest)%N
  | _ :: rest => countTotal rest
  end.

(** The names of the records of a bar chart. *)
Definition recordNames (records : list ChartRecord) : list string :=
  flat_map (fun r => match r with
                     | CountRecord name _ => [name]
                     | PointRecord _ => []
                     end) records.

(** The table with every row cut to the number of headers. *)
Definition cutRows (data : CSVData) : CSVData :=
  {| headers := headers data;
     rows := map (firstn (List.length (headers data))) (rows data) |}.

(** A chart specification with the given type and columns. *)
Definition chartOf (t : ChartType) (cols : list string) : ChartParameter :=
  {| type := t; title := "chart"; description := "";
     xAxisLabel := None; yAxisLabel := None; columns := cols |}.


(** The sum of [f] over a list of keys. *)
Fixpoint sumOver (f : string -> N) (l : list string) : N :=
  match l with
  | [] => 0%N
  | k :: r => (f k + sumOver f r)%N
  end.


(** A reply wrapped in the code-fence markers. *)
Definition fenced (body : string) : string :=
  ("```json" ++ body ++ "```")%string.

(** The text a fragment of a streamed reply carries, none counting as
    empty. *)
Definition addedText (chunk : Chunk) : string :=
  match chunkText chunk with
  | Some t => t
  | None => ""
  end.

(** The sum of a token count over the fragments that report usage. *)
Definition totalTokens (count : Usage -> N) (cs : list Chunk) : N :=
  fold_right N.add 0%N
             (map (fun chunk => match chunkUsage chunk with
                                | Some u => count u
                                | None => 0%N
                                end) cs).

(** A signed 16-bit sample. *)
Definition isInt16 (s : Z) : Prop := -32768 <= s < 32768.


(** Everything of a message but its playing flag. *)
Definition content (message : Message)
  : string * Sender * string * string * option bool :=
  (id message, sender message, text message, timestamp message,
   audioAvailable message).

(** [after] is [before] with nothing changed but playing flags, and those
    only on the messages called [messageId]. *)
Definition flagsOnly (messageId : string) (before after : list Message)
  : Prop :=
  Forall2 (fun m m' => content m' = content m
                       /\ (id m <> messageId -> m' = m))
          before after.


(** An analysis result whose lists are arrays: the template of the chat
    context can be built from it. *)
Definition wellShaped (result : DataAnalysisResult) : Prop :=
  exists context, initialContext result = Resolved context.


(** The audio marking of a message agrees with its sender. *)
Definition audioBySender (message : Message) : Prop :=
  audioAvailable message
  = match sender message with ai => Some true | user => None end.


(** The sample session with a third question asked and not yet answered. *)
Definition asking : World :=
  step sampleParse "" "" loaded
       (SendClicked "third question" "u3" "10:00:05").

End Notions.

(* ================================================================== *)
(** * Rendering decisions ([components/DataAnalysisDisplay.tsx],
      [components/ChatInterface.tsx], [components/ChatMessage.tsx])     *)
(* ================================================================== *)

Module Display.
Import Js Types Mapper.

Definition CHART_COLORS : list string :=
  ["#6366F1"; "#EC4899"; "#10B981"; "#F59E0B"; "#EF4444"; "#3B82F6"].

(** [label || fallback]: an absent or empty label gives the fallback. *)
Definition orElse (label : option string) (fallback : string) : string :=
  match label with
  | Some l => if String.eqb l "" then fallback else l
  | None => fallback
  end.

(** [chartParam.columns[i]], [undefined] past the end. *)
Definition column (chartParam : ChartParameter) (i : nat) : option string :=
  nth_error (columns chartParam) i.

(** A series of a line chart: its [dataKey] and its [stroke]. *)
Record Line : Type := { dataKey : string; stroke : string }.

(** The chart elements [renderChart] can put in the container. *)
Inductive Chart : Type :=
  | BarChart (data : list ChartRecord)
             (xLabel : option string) (yLabel : string)
  | ScatterChart (data : list ChartRecord) (xKey yKey : option string)
                 (xLabel yLabel : option string)
  | LineChart (data : list ChartRecord) (xKey : option string)
              (xLabel : option string) (yLabel : string)
              (lines : list Line).

(** What [renderChart] returns: one of the two placeholders, or the
    container with its title, description and chart elements. *)
Inductive Rendering : Type :=
  | CouldNotGenerate (title : string)
  | NoValidData (title : string)
  | Container (title description : string) (charts : list Chart).

(** The [Line] elements: [chartParam.columns.slice(1).map((col, i) => ...)]
    with [stroke = CHART_COLORS[(i + 2) % CHART_COLORS.length]]. *)
Fixpoint seriesLines (i : nat) (cols : list string) : list Line :=
  match cols with
  | [] => []
  | col :: rest =>
      {| dataKey := col;
         stroke := nth (Nat.modulo (i + 2) (List.length CHART_COLORS))
                       CHART_COLORS "" |}
      :: seriesLines (S i) rest
  end.

(** [label || chartParam.columns[i]]: [None] is [undefined]. *)
Definition columnLabel (label : option string) (col : option string)
  : option string :=
  match label with
  | Some l => if String.eqb l "" then col else Some l
  | None => col
  end.

(** [renderChart(chartParam, data, index)] for a table [data]; the index
    only names the element. *)
Definition renderChart (chartParam : ChartParameter) (data : CSVData)
  : Rendering :=
  match columns chartParam with
  | [] => CouldNotGenerate (title chartParam)
  | _ :: _ =>
      let chartData := prepareChartData chartParam data in
      match chartData with
      | [] => NoValidData (title chartParam)
      | _ :: _ =>
          let n := List.length (columns chartParam) in
          let isType (t : ChartType) : bool :=
            match type chartParam, t with
            | bar, bar | line, line | scatter, scatter => true
            | _, _ => false
            end in
          Container (title chartParam) (description chartParam)
            ((if isType bar && Nat.eqb n 1 then
                [BarChart chartData
                          (columnLabel (xAxisLabel chartParam)
                                       (column chartParam 0))
                          (orElse (yAxisLabel chartParam) "Count")]
              else [])
             ++ (if isType scatter && Nat.eqb n 2 then
                   [ScatterChart chartData
                                 (column chartParam 0) (column chartParam 1)
                                 (columnLabel (xAxisLabel chartParam)
                                              (column chartParam 0))
                                 (columnLabel (yAxisLabel chartParam)
                                              (column chartParam 1))]
                 else [])
             ++ (if isType line && Nat.leb 2 n then
                   [LineChart chartData (column chartParam 0)
                              (columnLabel (xAxisLabel chartParam)
                                           (column chartParam 0))
                              (orElse (yAxisLabel chartParam) "Value")
                              (seriesLines 0 (sliceFrom 1 (columns chartParam)))]
                 else []))
      end
  end.

(** The kind of a chart element. *)
Definition chartKind (c : Chart) : ChartType :=
  match c with
  | BarChart _ _ _ => bar
  | ScatterChart _ _ _ _ _ => scatter
  | LineChart _ _ _ _ _ => line
  end.

Definition chartRecords (c : Chart) : list ChartRecord :=
  match c with
  | BarChart d _ _ => d
  | ScatterChart d _ _ _ _ => d
  | LineChart d _ _ _ _ => d
  end.

(** ** The transcript *)

(** The props [ChatInterface] hands to [ChatMessage]:
    [{ ...message, isPlaying: playingMessageId === message.id,
       audioAvailable: message.sender === 'ai' ? true : false }]. *)
Definition shownMessage (playingMessageId : option string)
                        (message : Message) : Message :=
  {| id := id message; sender := sender message; text := text message;
     timestamp := timestamp message;
     audioAvailable :=
       Some (match sender message with ai => true | user => false end);
     isPlaying :=
       Some (match playingMessageId with
             | Some playing => String.eqb playing (id message)
             | None => false
             end) |}.

(** The speaker icon of [ChatMessage]: absent, idle or pulsing. *)
Inductive Speaker : Type := NoSpeaker | Idle | Speaking.

Definition speaker (message : Message) : Speaker :=
  match sender message, audioAvailable message with
  | ai, Some true =>
      match isPlaying message with
      | Some true => Speaking
      | _ => Idle
      end
  | _, _ => NoSpeaker
  end.

(** What [ChatInterface] draws for the transcript: for each message its
    speaker icon and whether the Listen button is there. *)
Definition transcriptView (playingMessageId : option string)
                          (chatMessages : list Message)
  : list (Speaker * bool) :=
  map (fun message =>
         (speaker (shownMessage playingMessageId message),
          App.listenable message))
      chatMessages.


(** The marker names the message. *)
Definition marks (playingMessageId : option string) (message : Message)
  : bool :=
  match playingMessageId with
  | Some playing => String.eqb playing (id message)
  | None => false
  end.

Definition isSpeaking (s : Speaker) : bool :=
  match s with
  | Speaking => true
  | _ => false
  end.

End Display.

(* ================================================================== *)
(** * Properties of the base64 helpers                                 *)
(* ================================================================== *)

Module Base64Facts.
Import Base64.

(** ** Bit operations as arithmetic *)

Lemma land_shiftl_low (hi lo k : Z) :
  0 <= k -> 0 <= lo < 2 ^ k -> Z.land (Z.shiftl hi k) lo = 0.
Proof.
  intros Hk Hlo. apply Z.bits_inj'. intros n Hn.
  rewrite Z.land_spec, Z.bits_0.
  destruct (Z.lt_ge_cases n k) as [Hlt | Hge].
  - rewrite Z.shiftl_spec_low by assumption. reflexivity.
  - assert (Z.testbit lo n = false) as ->.
    { destruct (Z.eq_dec lo 0) as [-> | Hnz]; [apply Z.bits_0 |].
      apply Z.bits_above_log2; [lia |].
      apply Z.lt_le_trans with k; [| assumption].
      apply Z.log2_lt_pow2; lia. }
    apply andb_false_r.
Qed.

Lemma lor_shiftl_add (hi lo k : Z) :
  0 <= k -> 0 <= lo < 2 ^ k ->
  Z.lor (Z.shiftl hi k) lo = hi * 2 ^ k + lo.
Proof.
  intros Hk Hlo.
  rewrite <- Z.lxor_lor by (apply land_shiftl_low; assumption).
  rewrite <- Z.add_nocarry_lxor by (apply land_shiftl_low; assumption).
  rewrite Z.shiftl_mul_pow2 by assumption. reflexivity.
Qed.

Lemma land_mask (a k : Z) : 0 <= k -> Z.land a (2 ^ k - 1) = a mod 2 ^ k.
Proof.
  intros Hk. rewrite <- Z.land_ones by assumption.
  f_equal. rewrite Z.ones_equiv. lia.
Qed.

Lemma land_3 (a : Z) : Z.land a 3 = a mod 4.
Proof. exact (land_mask a 2 ltac:(lia)). Qed.

Lemma land_15 (a : Z) : Z.land a 15 = a mod 16.
Proof. exact (land_mask a 4 ltac:(lia)). Qed.

Lemma land_63 (a : Z) : Z.land a 63 = a mod 64.
Proof. exact (land_mask a 6 ltac:(lia)). Qed.

Lemma shiftl_arith (a k : Z) : 0 <= k -> Z.shiftl a k = a * 2 ^ k.
Proof. intros; apply Z.shiftl_mul_pow2; assumption. Qed.

(** Rewrites the masks and shifts of the two codecs into [/] and [mod], and
    every [lor] of a shifted high part with a small low part into a sum. *)
Ltac bits_to_arith :=
  rewrite ?land_3, ?land_15, ?land_63, ?Z.shiftr_div_pow2 by lia;
  change (2 ^ 2) with 4; change (2 ^ 4) with 16; change (2 ^ 6) with 64;
  repeat (rewrite lor_shiftl_add by
            (try lia; change (2 ^ 2) with 4; change (2 ^ 4) with 16;
             change (2 ^ 6) with 64; Z.div_mod_to_equations; lia));
  rewrite ?shiftl_arith by lia;
  change (2 ^ 2) with 4; change (2 ^ 4) with 16; change (2 ^ 6) with 64.

Lemma sextets_cons3 (a b c : Z) (r : list Z) :
  isByte a -> isByte b -> isByte c ->
  sextets (a :: b :: c :: r)
  = a / 4 :: a mod 4 * 16 + b / 16 :: b mod 16 * 4 + c / 64 :: c mod 64
      :: sextets r.
Proof.
  unfold isByte. intros Ha Hb Hc. cbn [sextets]. bits_to_arith. reflexivity.
Qed.

Lemma sextets_two (a b : Z) :
  isByte a -> isByte b ->
  sextets [a; b] = [a / 4; a mod 4 * 16 + b / 16; b mod 16 * 4].
Proof.
  unfold isByte. intros Ha Hb. cbn [sextets]. bits_to_arith. reflexivity.
Qed.

Lemma sextets_one (a : Z) :
  isByte a -> sextets [a] = [a / 4; a mod 4 * 16].
Proof.
  unfold isByte. intros Ha. cbn [sextets]. bits_to_arith. reflexivity.
Qed.

Lemma bytes_cons4 (s1 s2 s3 s4 : Z) (r : list Z) :
  isSextet s1 -> isSextet s2 -> isSextet s3 -> isSextet s4 ->
  bytesOfSextets (s1 :: s2 :: s3 :: s4 :: r)
  = s1 * 4 + s2 / 16 :: s2 mod 16 * 16 + s3 / 4 :: s3 mod 4 * 64 + s4
      :: bytesOfSextets r.
Proof.
  unfold isSextet. intros H1 H2 H3 H4. cbn [bytesOfSextets]. bits_to_arith.
  reflexivity.
Qed.

Lemma bytes_three (s1 s2 s3 : Z) :
  isSextet s1 -> isSextet s2 -> isSextet s3 ->
  bytesOfSextets [s1; s2; s3] = [s1 * 4 + s2 / 16; s2 mod 16 * 16 + s3 / 4].
Proof.
  unfold isSextet. intros H1 H2 H3. cbn [bytesOfSextets]. bits_to_arith.
  reflexivity.
Qed.

Lemma bytes_two (s1 s2 : Z) :
  isSextet s1 -> isSextet s2 ->
  bytesOfSextets [s1; s2] = [s1 * 4 + s2 / 16].
Proof.
  unfold isSextet. intros H1 H2. cbn [bytesOfSextets]. bits_to_arith.
  reflexivity.
Qed.

(** Induction three elements at a time, the way both codecs recurse. *)
Lemma list_ind3 {A} (P : list A -> Prop) :
  P [] -> (forall a, P [a]) -> (forall a b, P [a; b]) ->
  (forall a b c r, P r -> P (a :: b :: c :: r)) ->
  forall l, P l.
Proof.
  intros H0 H1 H2 H3.
  assert (forall l, P l /\ (forall a, P (a :: l)) /\ (forall a b, P (a :: b :: l)))
    as H.
  { induction l as [| x l (IH0 & IH1 & IH2)].
    - repeat split; auto.
    - repeat split; auto. }
  intros l. apply H.
Qed.

Ltac arith := unfold isSextet, isByte in *; Z.div_mod_to_equations; lia.

(** The 6-bit groups of a byte array are in range, and regrouping them gives
    the bytes back. *)
Lemma sextets_spec (bytes : list Z) :
  Forall isByte bytes ->
  Forall isSextet (sextets bytes) /\ bytesOfSextets (sextets bytes) = bytes.
Proof.
  induction bytes as [| a | a b | a b c r IH] using list_ind3; intros HB.
  - split; [constructor | reflexivity].
  - inversion_clear HB as [| ? ? Ha _].
    rewrite sextets_one by assumption.
    assert (isSextet (a / 4)) by arith.
    assert (isSextet (a mod 4 * 16)) by arith.
    split; [repeat (constructor; try assumption) |].
    rewrite bytes_two by assumption. f_equal. arith.
  - inversion_clear HB as [| ? ? Ha HB']. inversion_clear HB' as [| ? ? Hb _].
    rewrite sextets_two by assumption.
    assert (isSextet (a / 4)) by arith.
    assert (isSextet (a mod 4 * 16 + b / 16)) by arith.
    assert (isSextet (b mod 16 * 4)) by arith.
    split; [repeat (constructor; try assumption) |].
    rewrite bytes_three by assumption. repeat f_equal; arith.
  - inversion_clear HB as [| ? ? Ha HB']. inversion_clear HB' as [| ? ? Hb HB''].
    inversion_clear HB'' as [| ? ? Hc Hr].
    destruct (IH Hr) as [IHs IHb].
    rewrite sextets_cons3 by assumption.
    assert (isSextet (a / 4)) by arith.
    assert (isSextet (a mod 4 * 16 + b / 16)) by arith.
    assert (isSextet (b mod 16 * 4 + c / 64)) by arith.
    assert (isSextet (c mod 64)) by arith.
    split; [repeat (constructor; try assumption) |].
    rewrite bytes_cons4 by assumption. rewrite IHb.
    repeat f_equal; arith.
Qed.

(** ** The alphabet *)

Lemma sextet_cases (P : Z -> Prop) :
  (forall n : nat, (n < 64)%nat -> P (Z.of_nat n)) ->
  forall s, isSextet s -> P s.
Proof.
  intros H s [Hlo Hhi]. rewrite <- (Z2Nat.id s) by assumption.
  apply H. lia.
Qed.

Ltac each_sextet n :=
  do 64 (destruct n as [| n]; [vm_compute; try reflexivity; try discriminate |]);
  lia.

Lemma charSextet_sextetChar (s : Z) :
  isSextet s -> charSextet (sextetChar s) = Some s.
Proof.
  revert s. apply sextet_cases. intros n Hn. each_sextet n.
Qed.

Lemma sextetChar_not_pad (s : Z) :
  isSextet s -> Ascii.eqb (sextetChar s) pad = false.
Proof.
  revert s. apply sextet_cases. intros n Hn. each_sextet n.
Qed.

Lemma sextetChar_not_whitespace (s : Z) :
  isSextet s -> isAsciiWhitespace (sextetChar s) = false.
Proof.
  revert s. apply sextet_cases. intros n Hn. each_sextet n.
Qed.

Lemma mapM_charSextet (sx : list Z) :
  Forall isSextet sx -> mapM charSextet (map sextetChar sx) = Some sx.
Proof.
  induction 1 as [| s sx Hs _ IH]; [reflexivity |].
  cbn [map mapM]. rewrite charSextet_sextetChar, IH by assumption.
  reflexivity.
Qed.

(** ** Code units and bytes *)

Lemma charCode_fromCharCode (b : Z) :
  isByte b -> charCode (fromCharCode b) = b.
Proof.
  intros [Hlo Hhi]. unfold charCode, fromCharCode.
  rewrite N_ascii_embedding by lia. lia.
Qed.

Lemma binary_string_bytes (bytes : list Z) :
  Forall isByte bytes ->
  map charCode (list_ascii_of_string
                  (string_of_list_ascii (map fromCharCode bytes))) = bytes.
Proof.
  intros HB. rewrite list_ascii_of_string_of_list_ascii.
  induction HB as [| b r Hb _ IH]; [reflexivity |].
  cbn [map]. rewrite charCode_fromCharCode, IH by assumption. reflexivity.
Qed.

(** ** Lengths and padding *)

Lemma sextets_length (bytes : list Z) :
  List.length (sextets bytes)
  = Nat.div (4 * List.length bytes + 2) 3.
Proof.
  induction bytes as [| a | a b | a b c r IH] using list_ind3;
    try reflexivity.
  cbn [sextets List.length]. rewrite IH.
  replace (4 * S (S (S (List.length r))) + 2)%nat
    with ((4 * List.length r + 2) + 4 * 3)%nat by lia.
  rewrite Nat.div_add by lia. lia.
Qed.

Lemma padded_length (bytes : list Z) :
  exists q : nat,
    (Nat.modulo (List.length bytes) 3 = 0
     /\ List.length (sextets bytes) = 4 * q
     /\ padding (List.length bytes) = [])%nat
    \/ (Nat.modulo (List.length bytes) 3 = 1
        /\ List.length (sextets bytes) = 4 * q + 2
        /\ padding (List.length bytes) = [pad; pad])%nat
    \/ (Nat.modulo (List.length bytes) 3 = 2
        /\ List.length (sextets bytes) = 4 * q + 3
        /\ padding (List.length bytes) = [pad])%nat.
Proof.
  rewrite sextets_length. unfold padding.
  set (n := List.length bytes).
  exists (Nat.div n 3).
  assert (Nat.modulo n 3 < 3)%nat as Hlt by (apply Nat.mod_upper_bound; lia).
  pose proof (Nat.div_mod_eq n 3) as Hn.
  destruct (Nat.modulo n 3) as [| [| [| m]]] eqn:Hm; [| | | lia].
  - left. repeat split.
    replace (4 * n + 2)%nat with (2 + (4 * Nat.div n 3) * 3)%nat by lia.
    rewrite Nat.div_add by lia. reflexivity.
  - right; left. repeat split.
    replace (4 * n + 2)%nat with (0 + (4 * Nat.div n 3 + 2) * 3)%nat by lia.
    rewrite Nat.div_add by lia. reflexivity.
  - right; right. repeat split.
    replace (4 * n + 2)%nat with (1 + (4 * Nat.div n 3 + 3) * 3)%nat by lia.
    rewrite Nat.div_add by lia. reflexivity.
Qed.

Lemma mod4_0 (q : nat) : Nat.modulo (4 * q) 4 = 0%nat.
Proof. rewrite Nat.mul_comm. apply Nat.Div0.mod_mul. Qed.

Lemma mod4_add (q r : nat) :
  (r < 4)%nat -> Nat.modulo (4 * q + r) 4 = r.
Proof.
  intros Hr. rewrite Nat.add_comm, (Nat.mul_comm 4 q), Nat.Div0.mod_add.
  apply Nat.mod_small. assumption.
Qed.

Lemma rev_map_head (sx : list Z) (c : ascii) (r : list ascii) :
  Forall isSextet sx -> rev (map sextetChar sx) = c :: r ->
  Ascii.eqb c pad = false.
Proof.
  intros Hsx Hrev.
  assert (In c (map sextetChar sx)) as Hin.
  { apply in_rev. rewrite Hrev. left. reflexivity. }
  apply in_map_iff in Hin. destruct Hin as (s & <- & Hs).
  apply sextetChar_not_pad.
  rewrite Forall_forall in Hsx. apply Hsx. assumption.
Qed.

(** [atob] removes exactly the padding that [btoa] appended. *)
Lemma stripPadding_btoa (bytes : list Z) :
  Forall isByte bytes ->
  stripPadding (map sextetChar (sextets bytes) ++ padding (List.length bytes))
  = map sextetChar (sextets bytes).
Proof.
  intros HB. destruct (sextets_spec bytes HB) as [Hsx _].
  destruct (padded_length bytes) as [q [(_ & Hlen & ->) | [(_ & Hlen & ->) | (_ & Hlen & ->)]]];
    unfold stripPadding; rewrite length_app, length_map, Hlen; cbn [List.length].
  - rewrite Nat.add_0_r, mod4_0. cbn [Nat.eqb].
    rewrite app_nil_r.
    destruct (rev (map sextetChar (sextets bytes))) as [| p [| p' r]] eqn:Hrev;
      try reflexivity.
    rewrite (rev_map_head _ _ _ Hsx Hrev). reflexivity.
  - replace (4 * q + 2 + 2)%nat with (4 * (q + 1))%nat by lia.
    rewrite mod4_0. cbn [Nat.eqb].
    rewrite rev_app_distr. cbn [rev app].
    change (Ascii.eqb pad pad) with true. cbn iota.
    apply rev_involutive.
  - replace (4 * q + 3 + 1)%nat with (4 * (q + 1))%nat by lia.
    rewrite mod4_0. cbn [Nat.eqb].
    rewrite rev_app_distr. cbn [rev app].
    destruct (rev (map sextetChar (sextets bytes))) as [| p r] eqn:Hrev.
    + apply (f_equal (@List.length ascii)) in Hrev.
      rewrite length_rev, length_map, Hlen in Hrev. cbn in Hrev. lia.
    + assert (rev (p :: r) = map sextetChar (sextets bytes)) as Hl
        by (rewrite <- Hrev; apply rev_involutive).
      change (Ascii.eqb pad pad) with true.
      rewrite (rev_map_head _ _ _ Hsx Hrev). exact Hl.
Qed.

Lemma filter_whitespace_btoa (bytes : list Z) :
  Forall isByte bytes ->
  filter (fun c => negb (isAsciiWhitespace c))
         (map sextetChar (sextets bytes) ++ padding (List.length bytes))
  = map sextetChar (sextets bytes) ++ padding (List.length bytes).
Proof.
  intros HB. destruct (sextets_spec bytes HB) as [Hsx _].
  apply forallb_filter_id. rewrite forallb_app. apply andb_true_iff. split.
  - apply forallb_forall. intros c Hin. apply in_map_iff in Hin.
    destruct Hin as (s & <- & Hs).
    rewrite sextetChar_not_whitespace; [reflexivity |].
    rewrite Forall_forall in Hsx. apply Hsx. assumption.
  - unfold padding.
    destruct (Nat.modulo (List.length bytes) 3) as [| [| [| m]]]; reflexivity.
Qed.

Lemma atob_btoa_length (bytes : list Z) :
  Nat.eqb (Nat.modulo (List.length (map sextetChar (sextets bytes))) 4) 1
  = false.
Proof.
  rewrite length_map.
  destruct (padded_length bytes) as [q [(_ & -> & _) | [(_ & -> & _) | (_ & -> & _)]]].
  - rewrite mod4_0. reflexivity.
  - rewrite mod4_add by lia. reflexivity.
  - rewrite mod4_add by lia. reflexivity.
Qed.

(** [atob] inverts [btoa] on binary strings. *)
Lemma atob_btoa (bytes : list Z) :
  Forall isByte bytes ->
  atob (btoa (string_of_list_ascii (map fromCharCode bytes)))
  = Some (string_of_list_ascii (map fromCharCode bytes)).
Proof.
  intros HB. unfold atob, btoa.
  rewrite (binary_string_bytes bytes HB).
  rewrite list_ascii_of_string_of_list_ascii.
  rewrite (filter_whitespace_btoa bytes HB), (stripPadding_btoa bytes HB).
  rewrite atob_btoa_length.
  destruct (sextets_spec bytes HB) as [Hsx Hback].
  rewrite (mapM_charSextet _ Hsx), Hback. reflexivity.
Qed.

(** C9.  For every byte array [bytes] (every element in 0..255), decoding
    the base64 text produced by [encode] succeeds and returns [bytes]:
    [decode(encode(bytes))] equals [bytes]. *)
Theorem decode_encode_roundtrip (bytes : list Z) :
  Forall isByte bytes -> decode (encode bytes) = Some bytes.
Proof.
  intros HB. unfold decode, encode.
  rewrite (atob_btoa bytes HB). f_equal. apply binary_string_bytes, HB.
Qed.

Lemma decode_encode_roundtrip_witness :
  Forall isByte [72; 105; 33; 0; 255]
  /\ encode [72; 105; 33; 0; 255] = "SGkhAP8="
  /\ decode (encode [72; 105; 33; 0; 255]) = Some [72; 105; 33; 0; 255].
Proof.
  assert (Forall isByte [72; 105; 33; 0; 255]) as HB
    by (repeat constructor; unfold isByte; lia).
  split; [exact HB |]. split; [reflexivity |].
  exact (decode_encode_roundtrip [72; 105; 33; 0; 255] HB).
Defined.

End Base64Facts.

(* ================================================================== *)
(** * Properties of the ECMAScript fragment                            *)
(* ================================================================== *)

Module JsFacts.
Import Js.

Lemma str_empty (l : list ascii) : String.eqb (str l) "" = true <-> l = [].
Proof.
  destruct l as [| c r]; cbn; split; intros H; try reflexivity;
    discriminate.
Qed.

Lemma trim_empty (s : string) :
  String.eqb (trim s) "" = true <-> trimChars (chars s) = [].
Proof. apply str_empty. Qed.

Lemma roundRatio_not_NaN (neg : bool) (n d : positive) :
  isNaNNumber (roundRatio neg n d) = false.
Proof.
  unfold roundRatio.
  repeat match goal with
         | |- context [match ?x with _ => _ end] => destruct x
         end; reflexivity.
Qed.

Lemma roundDecimal_not_NaN (neg : bool) (mant : N) (exp10 : Z) :
  isNaNNumber (roundDecimal neg mant exp10) = false.
Proof.
  unfold roundDecimal. destruct mant; [reflexivity |].
  destruct (0 <=? exp10); apply roundRatio_not_NaN.
Qed.

(** A numeric literal never denotes [NaN]. *)
Lemma literalValue_not_NaN (lit : Literal) :
  isNaNNumber (literalValue lit) = false.
Proof.
  destruct lit; [reflexivity | apply roundDecimal_not_NaN].
Qed.

(** [Number(s)] is [NaN] exactly when [s] has characters other than white
    space and is not a numeric literal. *)
Lemma Number_NaN (s : string) :
  isNaNNumber (Number s) = true
  <-> trimChars (chars s) <> [] /\ numericLiteral s = None.
Proof.
  unfold Number, numericLiteral.
  destruct (trimChars (chars s)) as [| c r] eqn:Ht.
  - cbn. split; [discriminate | intros [H _]; congruence].
  - destruct (strNumericLiteral (c :: r)) as [lit |].
    + rewrite literalValue_not_NaN. split; [discriminate |].
      intros [_ H]; discriminate.
    + cbn. split; [intros _; split; [discriminate | reflexivity] | reflexivity].
Qed.

(** ** Property order *)

Lemma In_insertIndex (i j : N) (l : list N) :
  In j (insertIndex i l) <-> j = i \/ In j l.
Proof.
  induction l as [| a l IH]; cbn.
  - intuition.
  - destruct (i <=? a)%N; cbn; rewrite ?IH; intuition.
Qed.

Lemma In_sortIndices (j : N) (l : list N) :
  In j (sortIndices l) <-> In j l.
Proof.
  induction l as [| a l IH]; cbn; [reflexivity |].
  rewrite In_insertIndex, IH. intuition.
Qed.

Lemma insertIndex_sorted (i : N) (l : list N) :
  StronglySorted N.le l -> StronglySorted N.le (insertIndex i l).
Proof.
  induction 1 as [| a l Hs IH Ha]; cbn.
  - repeat constructor.
  - destruct (i <=? a)%N eqn:Hle.
    + apply N.leb_le in Hle. constructor.
      * constructor; assumption.
      * constructor; [assumption |].
        eapply Forall_impl; [| exact Ha]. intros b Hb. cbn in Hb. lia.
    + apply N.leb_gt in Hle. constructor; [assumption |].
      apply Forall_forall. intros b Hb. apply In_insertIndex in Hb.
      destruct Hb as [-> | Hb]; [lia |].
      rewrite Forall_forall in Ha. apply Ha. assumption.
Qed.

(** The array indices come out in ascending numeric order. *)
Lemma sortIndices_sorted (l : list N) : StronglySorted N.le (sortIndices l).
Proof.
  induction l as [| a l IH]; cbn; [constructor |].
  apply insertIndex_sorted. assumption.
Qed.

Lemma insertIndex_perm (i : N) (l : list N) :
  Permutation (i :: l) (insertIndex i l).
Proof.
  induction l as [| a l IH]; cbn; [apply Permutation_refl |].
  destruct (i <=? a)%N; [apply Permutation_refl |].
  eapply Permutation_trans; [apply perm_swap |].
  apply perm_skip. exact IH.
Qed.

(** Sorting neither drops nor adds an index. *)
Lemma sortIndices_perm (l : list N) : Permutation l (sortIndices l).
Proof.
  induction l as [| a l IH]; cbn; [constructor |].
  eapply Permutation_trans; [apply perm_skip, IH | apply insertIndex_perm].
Qed.

Lemma arrayIndex_canonical (k : string) (i : N) :
  arrayIndex k = Some i -> decimalString i = k.
Proof.
  unfold arrayIndex. destruct (digits 10 (chars k)) as [v |]; [| discriminate].
  destruct ((v <=? 4294967294) && String.eqb (decimalString (Z.to_N v)) k)
    eqn:H; [| discriminate].
  intros [= <-]. apply andb_true_iff in H. destruct H as [_ H].
  apply String.eqb_eq. assumption.
Qed.

(** The enumeration of the keys of an object is a rearrangement of them. *)
Lemma In_orderKeys (k : string) (ks : list string) :
  In k (orderKeys ks) <-> In k ks.
Proof.
  unfold orderKeys. rewrite in_app_iff, in_map_iff, filter_In. split.
  - intros [(i & <- & Hi) | [H _]]; [| assumption].
    rewrite In_sortIndices in Hi. unfold indicesOf in Hi.
    rewrite in_flat_map in Hi. destruct Hi as (k0 & Hk0 & Hi).
    destruct (arrayIndex k0) as [j |] eqn:Hj; [| contradiction].
    destruct Hi as [<- | []].
    rewrite (arrayIndex_canonical _ _ Hj). assumption.
  - intros Hin. unfold isArrayIndex.
    destruct (arrayIndex k) as [i |] eqn:Hi.
    + left. exists i. split; [apply (arrayIndex_canonical _ _ Hi) |].
      rewrite In_sortIndices. unfold indicesOf. rewrite in_flat_map.
      exists k. split; [assumption |]. rewrite Hi. left. reflexivity.
    + right. split; [assumption | reflexivity].
Qed.

(** Without array indices among the keys, the enumeration is the creation
    order. *)
Lemma orderKeys_without_indices (ks : list string) :
  Forall (fun k => isArrayIndex k = false) ks -> orderKeys ks = ks.
Proof.
  intros H. unfold orderKeys.
  assert (indicesOf ks = []) as ->.
  { unfold indicesOf. induction H as [| k r Hk _ IH]; [reflexivity |].
    cbn. unfold isArrayIndex in Hk.
    destruct (arrayIndex k); [discriminate | exact IH]. }
  cbn. apply forallb_filter_id. apply forallb_forall.
  rewrite Forall_forall in H. intros k Hk. rewrite (H k Hk). reflexivity.
Qed.

(** ** The text of a value *)






End JsFacts.

(* ================================================================== *)
(** * Properties of the Chart Data Mapper                              *)
(* ================================================================== *)

Module MapperFacts.
Import Js Types Mapper Samples JsFacts.

(** ** Cell coercion *)

(** C6, as stated, fails on a blank cell: the coercion gives the number
    [NaN], not the original string. *)
Lemma parseValue_blank_is_not_kept :
  trim "" = ""
  /\ parseValue (Some "") = VNumber NaN
  /\ parseValue (Some "") <> VString ""
  /\ parseValue (Some "  ") <> VString "  ".
Proof.
  repeat split; try reflexivity; vm_compute; discriminate.
Qed.

(** C6, amended.  For every cell string, the per-cell coercion gives the
    number [NaN] when the cell trims to empty, keeps the cell as its
    original string when it is not blank and is not a valid numeric
    literal, and otherwise converts it to the number the literal denotes,
    which is never [NaN]. *)
Theorem parseValue_cases (cell : string) :
  parseValue (Some cell)
  = (if String.eqb (trim cell) "" then VNumber NaN
     else match numericLiteral cell with
          | None => VString cell
          | Some lit => VNumber (literalValue lit)
          end)
  /\ (forall lit, isNaNNumber (literalValue lit) = false).
Proof.
  split; [| intros lit; apply literalValue_not_NaN].
  unfold parseValue.
  destruct (String.eqb (trim cell) "") eqn:Hblank; [reflexivity |].
  assert (trimChars (chars cell) <> []) as Hne.
  { intros H. apply trim_empty in H. congruence. }
  unfold Number, numericLiteral.
  destruct (trimChars (chars cell)) as [| c r]; [congruence |].
  destruct (strNumericLiteral (c :: r)) as [lit |]; [| reflexivity].
  rewrite literalValue_not_NaN. reflexivity.
Qed.

(** ** Row objects *)









(** ** Scatter charts *)


(** The example of the specification: rows (1,2), (foo,3), (4,bar) over the
    columns (x,y) give exactly the one record [{x: 1, y: 2}]. *)
Example scatter_example :
  prepareChartData scatterExample scatterTable
  = [PointRecord [("x", VNumber (ofZ 1)); ("y", VNumber (ofZ 2))]].
Proof. vm_compute. reflexivity. Qed.

(** ** Line charts *)

Lemma ownGet_ownSet {V} (o : Obj V) (k k' : string) (v : V) :
  ownGet (ownSet o k v) k'
  = if String.eqb k k' then Some v else ownGet o k'.
Proof.
  induction o as [| [k0 v0] r IH]; cbn.
  - reflexivity.
  - destruct (String.eqb k0 k) eqn:H0; cbn.
    + apply String.eqb_eq in H0. subst k0.
      destruct (String.eqb k k'); reflexivity.
    + rewrite IH. destruct (String.eqb k0 k') eqn:H1; [| reflexivity].
      apply String.eqb_eq in H1. subst k0.
      rewrite String.eqb_sym, H0. reflexivity.
Qed.






(** The example of the specification: over the columns (t, a, b), a row in
    which [a] is a number and [b] is not gives a record with the keys [t]
    and [a] and without the key [b]. *)
Example line_example :
  prepareChartData lineExample lineTable
  = [PointRecord [("t", VString "mon"); ("a", VNumber (ofZ 1))]].
Proof. vm_compute. reflexivity. Qed.

(** ** Bar charts *)


(** The example of the specification: the column values a, a, b and the
    empty string give [{name: a, count: 2}, {name: b, count: 1}]. *)
Example bar_example :
  prepareChartData barExample (column_c ["a"; "a"; "b"; ""])
  = [CountRecord "a" (Num 2); CountRecord "b" (Num 1)].
Proof. vm_compute. reflexivity. Qed.

(** *** The loop over the rows counts the counted keys *)

Lemma fold_countRow (column : string) (rows : list (Obj JsValue))
                    (acc : Obj Count) :
  fold_left (countRow column) rows acc
  = fold_left countKey
      (filter (fun value => negb (String.eqb value "NaN")
                            && negb (String.eqb value "undefined"))
              (map (fun row => ToString (get row column)) rows))
      acc.
Proof.
  revert acc. induction rows as [| row rest IH]; intros acc; [reflexivity |].
  cbn [fold_left map filter]. rewrite IH. unfold countRow at 1.
  destruct (negb (String.eqb (ToString (get row column)) "NaN")
            && negb (String.eqb (ToString (get row column)) "undefined"));
    reflexivity.
Qed.

(** *** First-seen order and occurrences *)

Lemma mem_In (k : string) (l : list string) : mem k l = true <-> In k l.
Proof.
  unfold mem. rewrite existsb_exists. split.
  - intros (k' & Hin & Heq). apply String.eqb_eq in Heq. subst. assumption.
  - intros Hin. exists k. split; [assumption | apply String.eqb_refl].
Qed.

Lemma mem_false (k : string) (l : list string) :
  mem k l = false <-> ~ In k l.
Proof.
  rewrite <- mem_In. destruct (mem k l); split; congruence.
Qed.

Lemma In_firstSeen (k : string) (l : list string) :
  In k (firstSeen l) <-> In k l.
Proof.
  induction l as [| a l IH]; cbn [firstSeen]; [reflexivity |].
  cbn [In]. rewrite filter_In, IH.
  destruct (String.eqb k a) eqn:Hk.
  - apply String.eqb_eq in Hk. subst. split; auto.
  - split.
    + intros [H | [H _]]; auto.
    + intros [H | H]; [left; assumption | right; split; [assumption |]].
      reflexivity.
Qed.

Lemma NoDup_firstSeen (l : list string) : NoDup (firstSeen l).
Proof.
  induction l as [| a l IH]; cbn [firstSeen]; constructor.
  - rewrite filter_In. intros [_ H]. rewrite String.eqb_refl in H.
    discriminate.
  - apply NoDup_filter. assumption.
Qed.

Lemma firstSeen_snoc (l : list string) (k : string) :
  firstSeen (l ++ [k])
  = if mem k l then firstSeen l else firstSeen l ++ [k].
Proof.
  induction l as [| a l IH]; cbn [app firstSeen]; [reflexivity |].
  rewrite IH. unfold mem. cbn [existsb]. fold (mem k l).
  destruct (String.eqb k a) eqn:Hk; cbn [orb].
  - destruct (mem k l); [reflexivity |].
    rewrite filter_app. cbn [filter]. rewrite Hk. cbn [negb].
    rewrite app_nil_r. reflexivity.
  - destruct (mem k l); [reflexivity |].
    rewrite filter_app. cbn [filter]. rewrite Hk. reflexivity.
Qed.

Lemma occurrences_snoc (k k' : string) (l : list string) :
  occurrences k (l ++ [k'])
  = (occurrences k l + if String.eqb k k' then 1 else 0)%N.
Proof.
  unfold occurrences. rewrite filter_app, length_app. cbn [filter].
  destruct (String.eqb k k'); cbn [List.length]; lia.
Qed.

(** *** Dictionaries laid out as a list of keys *)

Lemma ownGet_map {V} (f : string -> V) (l : list string) (k : string) :
  ownGet (map (fun k' => (k', f k')) l) k
  = if mem k l then Some (f k) else None.
Proof.
  induction l as [| a l IH]; cbn; [reflexivity |].
  rewrite (String.eqb_sym k a).
  destruct (String.eqb a k) eqn:Ha; cbn [orb].
  - apply String.eqb_eq in Ha. subst. reflexivity.
  - exact IH.
Qed.

Lemma ownSet_new {V} (f : string -> V) (l : list string) (k : string) (v : V) :
  mem k l = false ->
  ownSet (map (fun k' => (k', f k')) l) k v
  = map (fun k' => (k', f k')) l ++ [(k, v)].
Proof.
  induction l as [| a l IH]; cbn; [reflexivity |].
  rewrite (String.eqb_sym k a).
  destruct (String.eqb a k); cbn [orb]; [discriminate |].
  intros H. rewrite IH by assumption. reflexivity.
Qed.

Lemma ownSet_old {V} (f g : string -> V) (l : list string) (k : string) :
  NoDup l -> mem k l = true ->
  (forall k', k' <> k -> g k' = f k') ->
  ownSet (map (fun k' => (k', f k')) l) k (g k)
  = map (fun k' => (k', g k')) l.
Proof.
  intros Hnd Hin Hfg. induction Hnd as [| a l Ha Hnd IH]; [discriminate |].
  cbn. cbn in Hin. rewrite (String.eqb_sym k a) in Hin.
  destruct (String.eqb a k) eqn:Hk; cbn [orb] in Hin.
  - apply String.eqb_eq in Hk. subst a. f_equal.
    apply map_ext_in. intros k' Hk'. rewrite Hfg; [reflexivity |].
    intros ->. contradiction.
  - rewrite IH by assumption. rewrite Hfg; [reflexivity |].
    intros ->. rewrite String.eqb_refl in Hk. discriminate.
Qed.

(** *** One counted key *)

Lemma not_inherited_not_proto (k : string) :
  isInherited k = false -> String.eqb k "__proto__" = false.
Proof.
  intros H. destruct (String.eqb k "__proto__") eqn:Hk; [| reflexivity].
  apply String.eqb_eq in Hk. subst. vm_compute in H. discriminate.
Qed.

Lemma mem_firstSeen (k : string) (l : list string) :
  mem k (firstSeen l) = mem k l.
Proof.
  destruct (mem k l) eqn:H.
  - apply mem_In, In_firstSeen, mem_In. assumption.
  - apply mem_false. rewrite In_firstSeen. apply mem_false. assumption.
Qed.

Lemma occurrences_absent (k : string) (l : list string) :
  mem k l = false -> occurrences k l = 0%N.
Proof.
  intros H. unfold occurrences.
  assert (filter (String.eqb k) l = []) as ->; [| reflexivity].
  induction l as [| a l IH]; [reflexivity |].
  cbn in H |- *. destruct (String.eqb k a); [discriminate |].
  apply IH. assumption.
Qed.

Lemma occurrences_other (k k' : string) (l : list string) :
  k' <> k -> occurrences k' (l ++ [k]) = occurrences k' l.
Proof.
  intros Hne. rewrite occurrences_snoc.
  destruct (String.eqb k' k) eqn:He.
  - apply String.eqb_eq in He. contradiction.
  - apply N.add_0_r.
Qed.

Lemma countKey_tally (done : list string) (k : string) :
  isInherited k = false ->
  countKey (tally done) k = tally (done ++ [k]).
Proof.
  intros Hk. unfold countKey.
  assert (forall v, assign (tally done) k v = ownSet (tally done) k v) as ->.
  { intros v. unfold assign. rewrite (not_inherited_not_proto k Hk).
    destruct (ownGet (tally done) k); reflexivity. }
  unfold increment.
  unfold tally. rewrite ownGet_map, firstSeen_snoc, mem_firstSeen.
  destruct (mem k done) eqn:Hmem.
  - replace (Num (occurrences k done + 1))
      with (Num (occurrences k (done ++ [k])))
      by (rewrite occurrences_snoc, String.eqb_refl; reflexivity).
    apply (ownSet_old (fun k' => Num (occurrences k' done))
                      (fun k' => Num (occurrences k' (done ++ [k])))).
    + apply NoDup_firstSeen.
    + rewrite mem_firstSeen. assumption.
    + intros k' Hne. rewrite occurrences_other by assumption. reflexivity.
  - rewrite Hk.
    rewrite ownSet_new by (rewrite mem_firstSeen; assumption).
    rewrite map_app. cbn [map]. f_equal.
    + apply map_ext_in. intros k' Hk'.
      rewrite occurrences_other; [reflexivity |].
      intros Heq. subst k'. rewrite In_firstSeen, <- mem_In in Hk'.
      congruence.
    + rewrite occurrences_snoc, String.eqb_refl.
      rewrite occurrences_absent by assumption. reflexivity.
Qed.

Lemma fold_countKey (ks done : list string) :
  Forall (fun k => isInherited k = false) ks ->
  fold_left countKey ks (tally done) = tally (done ++ ks).
Proof.
  intros Hks. revert done.
  induction Hks as [| k ks Hk _ IH]; intros done; cbn [fold_left].
  - rewrite app_nil_r. reflexivity.
  - rewrite countKey_tally by assumption. rewrite IH, <- app_assoc.
    reflexivity.
Qed.

(** *** Enumerating the dictionary *)

Lemma flat_map_singleton {A B} (g : A -> list B) (h : A -> B) (l : list A) :
  (forall a, In a l -> g a = [h a]) -> flat_map g l = map h l.
Proof.
  induction l as [| a l IH]; intros H; [reflexivity |].
  cbn. rewrite (H a) by (left; reflexivity).
  rewrite IH by (intros b Hb; apply H; right; assumption). reflexivity.
Qed.

Lemma entries_tally (ks : list string) :
  entries (tally ks)
  = map (fun k => (k, Num (occurrences k ks))) (orderKeys (firstSeen ks)).
Proof.
  unfold entries, ownKeys, tally. rewrite map_map. cbn [fst].
  rewrite map_id. apply flat_map_singleton. intros k Hk.
  rewrite ownGet_map.
  rewrite In_orderKeys, <- mem_In in Hk. rewrite Hk. reflexivity.
Qed.



(** The bar case returns the enumeration of the tally of the counted
    keys. *)
Lemma bar_enumerates_tally
    (chartParam : ChartParameter) (data : CSVData) (column : string) :
  type chartParam = bar ->
  columns chartParam = [column] ->
  Forall (fun k => isInherited k = false) (countedKeys column data) ->
  prepareChartData chartParam data
  = map (fun '(name, count) => CountRecord name count)
        (entries (tally (countedKeys column data))).
Proof.
  intros Htype Hcols Hkeys. unfold prepareChartData. rewrite Htype, Hcols.
  rewrite fold_countRow. fold (countedKeys column data).
  change (@nil (string * Count)) with (tally []).
  rewrite fold_countKey by assumption. reflexivity.
Qed.



(** Without array indices among the keys the records are in first-seen
    order, as in the example of the specification. *)
Corollary bar_first_seen_without_indices
    (chartParam : ChartParameter) (data : CSVData) (column : string) :
  type chartParam = bar ->
  columns chartParam = [column] ->
  Forall (fun k => isInherited k = false) (countedKeys column data) ->
  Forall (fun k => isArrayIndex k = false) (countedKeys column data) ->
  prepareChartData chartParam data
  = map (fun k => CountRecord k (Num (occurrences k (countedKeys column data))))
        (firstSeen (countedKeys column data)).
Proof.
  intros Htype Hcols Hkeys Hidx.
  rewrite (bar_enumerates_tally _ _ _ Htype Hcols Hkeys).
  rewrite entries_tally, map_map.
  rewrite orderKeys_without_indices; [reflexivity |].
  apply Forall_forall. intros k Hk. rewrite In_firstSeen in Hk.
  rewrite Forall_forall in Hidx. apply Hidx. assumption.
Qed.

(** ** Row objects and cells *)

Lemma ownGet_assign_other {V} (o : Obj V) (k k' : string) (v : V) :
  String.eqb k k' = false -> ownGet (assign o k v) k' = ownGet o k'.
Proof.
  intros Hk. unfold assign.
  destruct (ownGet o k);
    [| destruct (String.eqb k "__proto__"); [reflexivity |]];
    rewrite ownGet_ownSet, Hk; reflexivity.
Qed.

Lemma ownGet_assign_same {V} (o : Obj V) (k : string) (v : V) :
  k <> "__proto__" -> ownGet (assign o k v) k = Some v.
Proof.
  intros Hk. unfold assign.
  assert (String.eqb k "__proto__" = false) as ->.
  { destruct (String.eqb k "__proto__") eqn:H; [| reflexivity].
    apply String.eqb_eq in H. contradiction. }
  destruct (ownGet o k); rewrite ownGet_ownSet, String.eqb_refl; reflexivity.
Qed.

(** The value a row object holds for a column other than [__proto__] is
    the coercion of the cell under the last header with that name; without
    such a header the row object has no such property. *)
Lemma fillRow_cell (hs : list string) (i : nat) (row : list string)
                   (acc : Obj JsValue) (col : string) :
  col <> "__proto__" ->
  ownGet (fillRow hs i row acc) col
  = match lastIndexOf col hs with
    | Some j => Some (parseValue (nth_error row (i + j)))
    | None => ownGet acc col
    end.
Proof.
  intros Hcol. revert i acc.
  induction hs as [| h hs IH]; intros i acc; cbn [fillRow lastIndexOf].
  - reflexivity.
  - rewrite IH. destruct (lastIndexOf col hs) as [j |].
    + rewrite Nat.add_succ_r. reflexivity.
    + destruct (String.eqb h col) eqn:Hh.
      * apply String.eqb_eq in Hh. subst h.
        rewrite Nat.add_0_r. apply ownGet_assign_same. assumption.
      * apply ownGet_assign_other. assumption.
Qed.

Lemma rawRows_cell (data : CSVData) (col : string) :
  col <> "__proto__" ->
  map (fun rowObject => ownGet rowObject col) (rawRows data)
  = map (fun row =>
           match lastIndexOf col (headers data) with
           | Some j => Some (parseValue (nth_error row j))
           | None => None
           end) (rows data).
Proof.
  intros Hcol. unfold rawRows. rewrite map_map.
  apply map_ext. intros row. rewrite fillRow_cell by assumption.
  reflexivity.
Qed.

(** ** Scatter and line charts over the rows of the table *)










End MapperFacts.

(* ================================================================== *)
(** * Properties of the chat input                                     *)
(* ================================================================== *)

Module ChatInputFacts.
Import Js ChatInput.

(** C10.  For every chat-input string, the send-message callback is invoked
    only when the string trims to a non-empty text (and the input is
    enabled), and the text passed to it is the trimmed input; when the
    string trims to empty the callback is not invoked. *)
Theorem send_passes_trimmed_text (inputValue : string) (isDisabled : bool) :
  match sent (handleSendMessage inputValue isDisabled) with
  | Some text =>
      text = trim inputValue
      /\ String.eqb (trim inputValue) "" = false
      /\ isDisabled = false
  | None => String.eqb (trim inputValue) "" = true \/ isDisabled = true
  end
  /\ (if String.eqb (trim inputValue) ""
      then sent (handleSendMessage inputValue isDisabled) = None
      else True).
Proof.
  unfold handleSendMessage, truthy.
  destruct (String.eqb (trim inputValue) ""), isDisabled; cbn; auto.
Qed.

(** The Enter key sends the same text, and no other key sends. *)
Lemma key_press_sends_trimmed_text
    (key : string) (shiftKey : bool) (inputValue : string) (isDisabled : bool)
    (text : string) :
  sent (handleKeyPress key shiftKey inputValue isDisabled) = Some text ->
  key = "Enter" /\ shiftKey = false /\ text = trim inputValue
  /\ String.eqb text "" = false.
Proof.
  unfold handleKeyPress, handleSendMessage, truthy.
  destruct (String.eqb key "Enter") eqn:Hkey; cbn; [| discriminate].
  apply String.eqb_eq in Hkey.
  destruct shiftKey; cbn; [discriminate |].
  destruct (String.eqb (trim inputValue) "") eqn:Hblank,
           isDisabled; cbn; try discriminate.
  intros [= <-]. auto.
Qed.

End ChatInputFacts.

(* ================================================================== *)
(** * Properties of the Analysis Client                                *)
(* ================================================================== *)

Module ServiceFacts.
Import Js Types Service Samples.

(** The lines of the CSV sample: the header line, then the lines of the
    rows up to the cap. *)
Lemma csvContent_lines (csvData : CSVData) :
  exists lines : list string,
    csvContent csvData = join nl lines
    /\ List.length lines
       = S (Nat.min maxRowsForPrompt (List.length (rows csvData)))
    /\ nth_error lines 0 = Some (join "," (headers csvData))
    /\ forall i, (i < maxRowsForPrompt)%nat ->
         nth_error lines (S i)
         = option_map (join ",") (nth_error (rows csvData) i).
Proof.
  exists (join "," (headers csvData)
          :: map (fun row => join "," row)
                 (slice0 maxRowsForPrompt (rows csvData))).
  unfold slice0. repeat split.
  - cbn [List.length]. rewrite length_map, length_firstn. reflexivity.
  - intros i Hi. cbn [nth_error].
    rewrite nth_error_map, nth_error_firstn.
    apply Nat.ltb_lt in Hi. rewrite Hi. reflexivity.
Qed.

(** C3.  For every table, the prompt is the fixed text around a CSV sample
    whose lines are the header row followed, in order, by the first 100
    data rows (all the rows when there are fewer).  When the hosted model
    answers with a text that parses to a result: if the table has more
    than 100 rows, the returned result is the parsed one with the
    truncation note put in front of its notes, so the note is the first
    element; if the table has at most 100 rows, the parsed result is
    returned as it is and no truncation note is reported. *)
Theorem analysis_sample_and_truncation_note
    (generateContent : string -> Settled (option string))
    (JSON_parse : string -> Settled (option DataAnalysisResult))
    (typeErrorMessage : string) (csvData : CSVData) :
  (exists lines : list string,
     prompt csvData = (promptHead ++ join nl lines ++ promptTail)%string
     /\ List.length lines = S (Nat.min 100 (List.length (rows csvData)))
     /\ nth_error lines 0 = Some (join "," (headers csvData))
     /\ forall i, (i < 100)%nat ->
          nth_error lines (S i)
          = option_map (join ",") (nth_error (rows csvData) i))
  /\ forall text result,
       generateContent (prompt csvData) = Resolved (Some text) ->
       JSON_parse (stripFence text) = Resolved (Some result) ->
       if Nat.ltb 100 (List.length (rows csvData)) then
         exists returned,
           analyzeCsvData generateContent JSON_parse typeErrorMessage csvData
           = Resolved (Some returned, Some truncationText)
           /\ analysisNotes returned
              = Some (truncationText :: notesOf result)
           /\ hd_error (notesOf returned) = Some truncationText
           /\ returned = unshiftNote truncationText result
       else
         analyzeCsvData generateContent JSON_parse typeErrorMessage csvData
         = Resolved (Some result, None).
Proof.
  split.
  - destruct (csvContent_lines csvData) as (lines & Hc & Hlen & Hhead & Hrows).
    exists lines. unfold prompt. rewrite Hc. auto.
  - intros text result Hgen Hparse. unfold analyzeCsvData.
    rewrite Hgen, Hparse. unfold truncationNote, maxRowsForPrompt.
    destruct (Nat.ltb 100 (List.length (rows csvData))).
    + eexists. split; [reflexivity |].
      unfold notesOf. cbn. auto.
    + reflexivity.
Qed.

Lemma analysis_sample_and_truncation_note_witness :
  sampleModel (prompt (tableOf 101)) = Resolved (Some "```json{}```")
  /\ sampleParse (stripFence "```json{}```") = Resolved (Some sampleResult)
  /\ Nat.ltb 100 (List.length (rows (tableOf 101))) = true
  /\ exists returned,
       analyzeCsvData sampleModel sampleParse "" (tableOf 101)
       = Resolved (Some returned, Some truncationText)
       /\ analysisNotes returned
          = Some (truncationText :: notesOf sampleResult)
       /\ hd_error (notesOf returned) = Some truncationText
       /\ returned = unshiftNote truncationText sampleResult.
Proof.
  split; [reflexivity |]. split; [reflexivity |]. split; [reflexivity |].
  exact (proj2 (analysis_sample_and_truncation_note
                  sampleModel sampleParse "" (tableOf 101))
               "```json{}```" sampleResult eq_refl eq_refl).
Defined.

(** With 100 rows nothing is cut and no note is added. *)
Example analysis_of_100_rows :
  analyzeCsvData sampleModel sampleParse "" (tableOf 100)
  = Resolved (Some sampleResult, None).
Proof. reflexivity. Qed.

End ServiceFacts.

(* ================================================================== *)
(** * Properties of the application state controller                   *)
(* ================================================================== *)

Module AppFacts.
Import Js Types Service App Samples.

(** ** Upload *)

(** C1, as stated, fails: an oversize file is rejected after the previous
    analysis result and the transcript were cleared. *)
Lemma oversize_upload_clears_analysis :
  sizeLimit < size bigFile
  /\ analysisResult (app loaded) = Some sampleResult
  /\ List.length (chatMessages (app loaded)) = 4%nat
  /\ analysisResult (fst (handleFileSelect bigFile (app loaded))) = None
  /\ chatMessages (fst (handleFileSelect bigFile (app loaded))) = [].
Proof. vm_compute. repeat split; reflexivity. Qed.

(** C1, amended.  For every file whose size exceeds 20 MB and every state,
    selecting the file makes no call at all (no read of the file, hence no
    run of the Tabular Parser and no call of the Analysis Client) and
    starts no operation; it clears the analysis result and the transcript,
    clears the selection and sets the size-limit error; the table, the
    chat session, the loading and sending flags and the playback state
    are left as they were. *)
Theorem oversize_upload_is_rejected_without_calls
    (JSON_parse : string -> Settled (option DataAnalysisResult))
    (typeErrorMessage audioErrorMessage : string)
    (file : File) (w : World) :
  sizeLimit < size file ->
  handleFileSelect file (app w)
  = ({| selectedFile := None;
        csvData := csvData (app w);
        analysisResult := None;
        chatMessages := [];
        isLoadingAnalysis := isLoadingAnalysis (app w);
        isSendingChat := isSendingChat (app w);
        error := Some "File size exceeds 20MB limit.";
        currentChatSession := currentChatSession (app w);
        outputAudioContext := outputAudioContext (app w);
        currentAudioSource := currentAudioSource (app w);
        playingMessageId := playingMessageId (app w) |}, [])
  /\ pending (step JSON_parse typeErrorMessage audioErrorMessage w
                   (FileSelected file))
     = pending w.
Proof.
  intros Hsize. apply Z.ltb_lt in Hsize.
  assert (handleFileSelect file (app w)
          = ({| selectedFile := None;
                csvData := csvData (app w);
                analysisResult := None;
                chatMessages := [];
                isLoadingAnalysis := isLoadingAnalysis (app w);
                isSendingChat := isSendingChat (app w);
                error := Some "File size exceeds 20MB limit.";
                currentChatSession := currentChatSession (app w);
                outputAudioContext := outputAudioContext (app w);
                currentAudioSource := currentAudioSource (app w);
                playingMessageId := playingMessageId (app w) |}, [])) as H.
  { unfold handleFileSelect. rewrite Hsize. reflexivity. }
  split; [exact H |].
  cbn [step]. unfold run. rewrite H. cbn. apply app_nil_r.
Qed.

Lemma oversize_upload_is_rejected_without_calls_witness :
  sizeLimit < size bigFile
  /\ snd (handleFileSelect bigFile (app loaded)) = []
  /\ pending (step sampleParse "" "" loaded (FileSelected bigFile))
     = pending loaded.
Proof.
  assert (sizeLimit < size bigFile) as Hsize by (vm_compute; reflexivity).
  destruct (oversize_upload_is_rejected_without_calls
              sampleParse "" "" bigFile loaded Hsize) as [H1 H2].
  split; [exact Hsize |]. split; [rewrite H1; reflexivity | exact H2].
Defined.

(** A file within the limit is read, and only then parsed and analysed. *)
Lemma upload_within_limit_reads_file (file : File) (st : AppState) :
  size file <= sizeLimit ->
  snd (handleFileSelect file st) = [ReadAsText file].
Proof.
  intros Hsize. apply Z.ltb_ge in Hsize.
  unfold handleFileSelect. rewrite Hsize. reflexivity.
Qed.

(** ** Chat *)

(** Both ways a chat request can fail reach the caller as a rejection. *)
Lemma sendMessageToChat_failure (stream : Settled Stream) :
  (exists message, stream = Rejected message)
  \/ (exists s message, stream = Resolved s /\ streamError s = Some message) ->
  exists message, sendMessageToChat stream = Rejected message.
Proof.
  intros [(message & ->) | (s & message & -> & Herr)]; cbn.
  - eexists. reflexivity.
  - rewrite Herr. eexists. reflexivity.
Qed.

(** Removing the messages with a fresh id removes nothing. *)
Lemma filter_fresh_id (userId : string) (messages : list Message) :
  Forall (fun msg => id msg <> userId) messages ->
  filter (fun msg => negb (String.eqb (id msg) userId)) messages = messages.
Proof.
  intros H. apply forallb_filter_id. apply forallb_forall.
  rewrite Forall_forall in H. intros msg Hin.
  destruct (String.eqb (id msg) userId) eqn:He; [| reflexivity].
  apply String.eqb_eq in He. exfalso. exact (H msg Hin He).
Qed.

(** C4.  For every state with a chat session and an analysis, every user
    text, and a message id that no message of the transcript carries (what
    [uuidv4] provides): the send appends the provisional user message and
    calls the Chat Client; if that call fails, the transcript afterwards
    equals the transcript as it was before the message was appended, the
    error is reported, and the analysis, the table and the chat session
    are as before. *)
Theorem failed_send_restores_transcript
    (st : AppState) (chat : Chat) (result : DataAnalysisResult)
    (text userId userTime aiId aiTime : string)
    (stream : Settled Stream) (message : string) :
  currentChatSession st = Some chat ->
  analysisResult st = Some result ->
  Forall (fun msg => id msg <> userId) (chatMessages st) ->
  sendMessageToChat stream = Rejected message ->
  let newUserMessage :=
    {| id := userId; sender := user; text := text; timestamp := userTime;
       audioAvailable := None; isPlaying := None |} in
  let sending := fst (handleSendMessage text userId userTime st) in
  let failed :=
    fst (chatSettled newUserMessage (sendMessageToChat stream) aiId aiTime
                     sending) in
  snd (handleSendMessage text userId userTime st)
  = [SendMessageToChat chat newUserMessage]
  /\ chatMessages sending = chatMessages st ++ [newUserMessage]
  /\ chatMessages failed = chatMessages st
  /\ error failed = Some ("Failed to send message: " ++ message)%string
  /\ isSendingChat failed = false
  /\ analysisResult failed = analysisResult st
  /\ csvData failed = csvData st
  /\ currentChatSession failed = currentChatSession st.
Proof.
  intros Hchat Hresult Hfresh Hfail newUserMessage sending failed.
  subst sending failed. rewrite Hfail.
  unfold handleSendMessage, read. rewrite Hchat, Hresult. cbn.
  rewrite Hchat, Hresult.
  repeat split.
  rewrite filter_app. cbn [filter id]. rewrite String.eqb_refl. cbn [negb].
  rewrite app_nil_r. apply filter_fresh_id. assumption.
Qed.

Lemma failed_send_restores_transcript_witness :
  currentChatSession (app loaded) = Some sampleChat
  /\ analysisResult (app loaded) = Some sampleResult
  /\ Forall (fun msg => id msg <> "u3") (chatMessages (app loaded))
  /\ sendMessageToChat (Rejected "network down")
     = Rejected "Failed to send message: network down"
  /\ chatMessages
       (fst (chatSettled (userMessage "u3" "third question" "10:00:05")
                         (sendMessageToChat (Rejected "network down"))
                         "a3" "10:00:06"
                         (fst (handleSendMessage "third question" "u3"
                                                 "10:00:05" (app loaded)))))
     = chatMessages (app loaded).
Proof.
  assert (Forall (fun msg => id msg <> "u3") (chatMessages (app loaded)))
    as Hfresh by (vm_compute; repeat constructor; discriminate).
  split; [reflexivity |]. split; [reflexivity |]. split; [exact Hfresh |].
  split; [reflexivity |].
  exact (proj1 (proj2 (proj2
           (failed_send_restores_transcript
              (app loaded) sampleChat sampleResult
              "third question" "u3" "10:00:05" "a3" "10:00:06"
              (Rejected "network down")
              "Failed to send message: network down"
              eq_refl eq_refl Hfresh eq_refl)))).
Defined.

(** Without a session or an analysis nothing is sent and the transcript is
    untouched. *)
Lemma send_without_analysis (st : AppState) (text userId userTime : string) :
  currentChatSession st = None \/ analysisResult st = None ->
  snd (handleSendMessage text userId userTime st) = []
  /\ chatMessages (fst (handleSendMessage text userId userTime st))
     = chatMessages st.
Proof.
  unfold handleSendMessage, read.
  intros [H | H]; rewrite H; destruct (currentChatSession st);
    try destruct (analysisResult st); cbn; auto; discriminate.
Qed.

(** ** Playback *)

(** A play request stops and disconnects the source that is playing and
    clears the playing marker before it marks the requested message and
    asks for its speech. *)
Lemma listen_stops_current_source
    (st : AppState) (source : AudioSource) (messageId text : string) :
  currentAudioSource st = Some source ->
  snd (stopCurrentAudio st) = [SourceStop source; SourceDisconnect source]
  /\ currentAudioSource (fst (stopCurrentAudio st)) = None
  /\ playingMessageId (fst (stopCurrentAudio st)) = None
  /\ (exists calls,
        snd (handlePlayAudio messageId text st)
        = SourceStop source :: SourceDisconnect source
            :: calls ++ [GenerateSpeech messageId text]
        /\ Forall (fun c => c = CreateAudioContext) calls)
  /\ currentAudioSource (fst (handlePlayAudio messageId text st)) = None
  /\ playingMessageId (fst (handlePlayAudio messageId text st))
     = Some messageId.
Proof.
  intros Hsrc.
  unfold handlePlayAudio, stopCurrentAudio, initAudioContext, read, andThen,
    update, call, skip.
  rewrite Hsrc. cbn.
  destruct (outputAudioContext st); cbn; repeat split.
  - exists []. split; [reflexivity | constructor].
  - exists [CreateAudioContext]. split; [reflexivity |].
    repeat constructor.
Qed.

(** C5, on the failing input.  After two answers, a listen request for the
    first answer followed by one for the second leaves both messages with
    the playing flag set, whether the first was still being synthesized or
    was already playing (then its source is stopped and the marker moves
    to the second message, but the flag of the first stays).  In the first
    case both syntheses can then succeed, and two sources are started
    without any being stopped. *)
Lemma second_listen_keeps_first_flag :
  flaggedPlaying (app (runEvents sampleParse "" "" listenTwice))
  = ["a1"; "a2"]
  /\ flaggedPlaying (app (runEvents sampleParse "" "" listenWhilePlaying))
     = ["a1"; "a2"]
  /\ map sourceMessage
         (stoppedSources
            (history (runEvents sampleParse "" "" listenWhilePlaying)))
     = ["a1"]
  /\ playingMessageId (app (runEvents sampleParse "" "" listenWhilePlaying))
     = Some "a2"
  /\ map sourceMessage
         (startedSources
            (history (runEvents sampleParse "" "" listenTwiceThenPlay)))
     = ["a1"; "a2"]
  /\ stoppedSources
       (history (runEvents sampleParse "" "" listenTwiceThenPlay))
     = [].
Proof. vm_compute. repeat split; reflexivity. Qed.

(** Every state these traces go through is a reachable one. *)
Lemma runEvents_reachable
    (JSON_parse : string -> Settled (option DataAnalysisResult))
    (typeErrorMessage audioErrorMessage : string) (evs : list Event) :
  reachable JSON_parse typeErrorMessage audioErrorMessage
            (runEvents JSON_parse typeErrorMessage audioErrorMessage evs).
Proof. exists evs. reflexivity. Qed.

(** The playing marker itself names at most one message: what the
    transcript shows as playing is the one message, if any, whose id is
    the marker. *)
Lemma marker_names_one_message (st : AppState) (a b : string) :
  playingMessageId st = Some a -> playingMessageId st = Some b -> a = b.
Proof. congruence. Qed.

End AppFacts.

(* ================================================================== *)
(** * Trimming, splitting and joining                                  *)
(* ================================================================== *)

Module TextFacts.
Import Js App Notions.

(** ** Code units and strings *)

Lemma chars_str (l : list ascii) : chars (str l) = l.
Proof. apply list_ascii_of_string_of_list_ascii. Qed.

Lemma str_chars (s : string) : str (chars s) = s.
Proof. apply string_of_list_ascii_of_string. Qed.

Lemma chars_append (a b : string) : chars (a ++ b)%string = chars a ++ chars b.
Proof.
  induction a as [| c a IH]; cbn; [reflexivity |].
  unfold chars in IH. rewrite IH. reflexivity.
Qed.

Lemma chars_inj (a b : string) : chars a = chars b -> a = b.
Proof.
  intros H. rewrite <- (str_chars a), <- (str_chars b), H. reflexivity.
Qed.

(** ** Trimming *)

Lemma trimStart_split (l : list ascii) :
  exists ws, l = ws ++ trimStartChars l
             /\ forallb isWhiteSpace ws = true
             /\ headKept (trimStartChars l).
Proof.
  induction l as [| c r (ws & Hl & Hws & Hk)]; cbn.
  - exists []. repeat split.
  - destruct (isWhiteSpace c) eqn:Hc.
    + exists (c :: ws). cbn. rewrite Hc, Hws. repeat split; [| assumption].
      f_equal. assumption.
    + exists []. repeat split. cbn. assumption.
Qed.

Lemma trimStart_kept (l : list ascii) : headKept l -> trimStartChars l = l.
Proof.
  destruct l as [| c r]; cbn; [reflexivity |]. intros ->. reflexivity.
Qed.

Lemma trimStart_blank (ws : list ascii) :
  forallb isWhiteSpace ws = true -> trimStartChars ws = [].
Proof.
  induction ws as [| c r IH]; cbn; [reflexivity |].
  intros H. apply andb_true_iff in H. destruct H as [-> H]. apply IH, H.
Qed.

(** What trimming leaves: the text between a run of white space at the
    front and one at the end, with no white space at either end. *)
Lemma trimChars_split (l : list ascii) :
  exists front back,
    l = front ++ trimChars l ++ back
    /\ forallb isWhiteSpace front = true
    /\ forallb isWhiteSpace back = true
    /\ headKept (trimChars l)
    /\ headKept (rev (trimChars l)).
Proof.
  unfold trimChars.
  destruct (trimStart_split l) as (front & Hl & Hfront & Hk).
  set (a := trimStartChars l) in *.
  destruct (trimStart_split (rev a)) as (ws & Ha & Hws & Hk2).
  set (b := trimStartChars (rev a)) in *.
  assert (a = rev b ++ rev ws) as Hab.
  { rewrite <- (rev_involutive a), Ha, rev_app_distr. reflexivity. }
  exists front, (rev ws). repeat split.
  - rewrite Hl at 1. rewrite Hab. reflexivity.
  - assumption.
  - rewrite forallb_forall in Hws |- *. intros c Hc. apply Hws.
    apply in_rev. assumption.
  - destruct (rev b) as [| c r] eqn:Hb; [exact I |].
    rewrite Hab in Hk. exact Hk.
  - rewrite rev_involutive. assumption.
Qed.

Lemma trimChars_kept (l : list ascii) :
  headKept l -> headKept (rev l) -> trimChars l = l.
Proof.
  intros H1 H2. unfold trimChars.
  rewrite (trimStart_kept l H1), (trimStart_kept (rev l) H2).
  apply rev_involutive.
Qed.

Lemma trimChars_idempotent (l : list ascii) :
  trimChars (trimChars l) = trimChars l.
Proof.
  destruct (trimChars_split l) as (_ & _ & _ & _ & _ & H1 & H2).
  apply trimChars_kept; assumption.
Qed.

Lemma trim_idempotent (s : string) : trim (trim s) = trim s.
Proof.
  unfold trim. rewrite chars_str, trimChars_idempotent. reflexivity.
Qed.

Lemma In_trimChars (c : ascii) (l : list ascii) :
  In c (trimChars l) -> In c l.
Proof.
  intros H. destruct (trimChars_split l) as (front & back & Hl & _).
  rewrite Hl. apply in_or_app. right. apply in_or_app. left. assumption.
Qed.

(** A text trims to nothing exactly when it is all white space. *)
Lemma trimChars_blank (l : list ascii) :
  trimChars l = [] <-> forallb isWhiteSpace l = true.
Proof.
  split.
  - intros H. destruct (trimChars_split l) as (front & back & Hl & Hf & Hb & _).
    rewrite H in Hl. rewrite Hl. cbn. rewrite forallb_app, Hf, Hb. reflexivity.
  - intros H. unfold trimChars. rewrite (trimStart_blank l H). reflexivity.
Qed.

(** ** Splitting and joining *)

Lemma splitChars_nonempty (sep : ascii) (l : list ascii) :
  splitChars sep l <> [].
Proof.
  destruct l as [| c r]; cbn; [discriminate |].
  destruct (Ascii.eqb c sep); [discriminate |].
  destruct (splitChars sep r); discriminate.
Qed.

Lemma splitChars_cons (sep c : ascii) (r : list ascii) :
  Ascii.eqb c sep = false ->
  splitChars sep (c :: r)
  = (c :: hd [] (splitChars sep r)) :: tl (splitChars sep r).
Proof.
  intros Hc. cbn. rewrite Hc.
  pose proof (splitChars_nonempty sep r) as Hne.
  destruct (splitChars sep r); [congruence | reflexivity].
Qed.

(** A part without separator, followed by a separator, is the first part
    of the split. *)
Lemma splitChars_part (sep : ascii) (p r : list ascii) :
  ~ In sep p ->
  splitChars sep (p ++ sep :: r) = p :: splitChars sep r.
Proof.
  induction p as [| c p IH]; intros Hp.
  - cbn. rewrite Ascii.eqb_refl. reflexivity.
  - assert (Ascii.eqb c sep = false) as Hc.
    { destruct (Ascii.eqb c sep) eqn:H; [| reflexivity].
      apply Ascii.eqb_eq in H. exfalso. apply Hp. left. assumption. }
    rewrite <- app_comm_cons, splitChars_cons by assumption.
    rewrite IH by (intros H; apply Hp; right; assumption). reflexivity.
Qed.

Lemma splitChars_last (sep : ascii) (p : list ascii) :
  ~ In sep p -> splitChars sep p = [p].
Proof.
  induction p as [| c p IH]; intros Hp; [reflexivity |].
  assert (Ascii.eqb c sep = false) as Hc.
  { destruct (Ascii.eqb c sep) eqn:H; [| reflexivity].
    apply Ascii.eqb_eq in H. exfalso. apply Hp. left. assumption. }
  rewrite splitChars_cons by assumption.
  rewrite IH by (intros H; apply Hp; right; assumption). reflexivity.
Qed.

(** No part of a split holds the separator. *)
Lemma splitChars_free (sep : ascii) (l : list ascii) :
  Forall (fun p => ~ In sep p) (splitChars sep l).
Proof.
  induction l as [| c r IH]; cbn.
  - repeat constructor. intros [].
  - destruct (Ascii.eqb c sep) eqn:Hc.
    + constructor; [intros [] | assumption].
    + destruct (splitChars sep r) as [| p ps].
      * repeat constructor. intros [Hin | []]. subst.
        rewrite Ascii.eqb_refl in Hc. discriminate.
      * inversion_clear IH as [| ? ? Hp Hps].
        constructor; [| assumption].
        intros [Hin | Hin]; [| contradiction]. subst.
        rewrite Ascii.eqb_refl in Hc. discriminate.
Qed.

Lemma split_join (sep : ascii) (parts : list string) :
  parts <> [] ->
  Forall (free sep) parts ->
  split sep (join (String sep EmptyString) parts) = parts.
Proof.
  intros Hne Hfree. unfold split, join.
  destruct parts as [| x xs]; [congruence |]. clear Hne.
  revert x Hfree. induction xs as [| y ys IH]; intros x Hfree.
  - inversion_clear Hfree as [| ? ? Hx _]. cbn [String.concat].
    rewrite splitChars_last by exact Hx. cbn. rewrite str_chars. reflexivity.
  - inversion_clear Hfree as [| ? ? Hx Hrest].
    change (String.concat (String sep EmptyString) (x :: y :: ys))
      with (x ++ String sep EmptyString
              ++ String.concat (String sep EmptyString) (y :: ys))%string.
    rewrite !chars_append.
    change (chars (String sep EmptyString)) with [sep].
    simpl ([sep] ++ _).
    rewrite splitChars_part by exact Hx.
    cbn [map]. rewrite str_chars. f_equal. apply IH. assumption.
Qed.

(** Joining the parts of a split gives the text back. *)
Lemma join_split (sep : ascii) (s : string) :
  join (String sep EmptyString) (split sep s) = s.
Proof.
  unfold split, join. apply chars_inj.
  induction (chars s) as [| c r IH] in |- *.
  - reflexivity.
  - clear s. cbn [splitChars].
    destruct (Ascii.eqb c sep) eqn:Hc.
    + apply Ascii.eqb_eq in Hc. subst c.
      pose proof (splitChars_nonempty sep r) as Hne.
      cbn [map]. destruct (splitChars sep r) as [| p ps] eqn:Hs;
        [congruence |].
      cbn [map] in IH |- *.
      change (String.concat (String sep EmptyString)
                            (str [] :: str p :: map str ps))
        with (str [] ++ String sep EmptyString
                ++ String.concat (String sep EmptyString)
                                 (str p :: map str ps))%string.
      rewrite !chars_append. cbn. f_equal. exact IH.
    + pose proof (splitChars_nonempty sep r) as Hne.
      destruct (splitChars sep r) as [| p ps] eqn:Hs; [congruence |].
      cbn [map] in IH |- *.
      destruct ps as [| q qs].
      * cbn in IH |- *. rewrite chars_str in IH |- *. f_equal.
        exact IH.
      * change (String.concat (String sep EmptyString)
                              (str (c :: p) :: map str (q :: qs)))
          with (str (c :: p) ++ String sep EmptyString
                  ++ String.concat (String sep EmptyString)
                                   (map str (q :: qs)))%string.
        change (String.concat (String sep EmptyString)
                              (str p :: map str (q :: qs)))
          with (str p ++ String sep EmptyString
                  ++ String.concat (String sep EmptyString)
                                   (map str (q :: qs)))%string in IH.
        rewrite chars_append in IH |- *. rewrite chars_str in IH |- *.
        rewrite <- app_comm_cons. f_equal. exact IH.
Qed.

End TextFacts.

(* ================================================================== *)
(** * Properties of the Tabular Parser                                 *)
(* ================================================================== *)

Module ParserFacts.
Import Js Types Service App Notions TextFacts.

Lemma splitChars_In (sep c : ascii) (l p : list ascii) :
  In p (splitChars sep l) -> In c p -> In c l.
Proof.
  revert p. induction l as [| d r IH]; intros p; cbn.
  - intros [<- | []] [].
  - destruct (Ascii.eqb d sep).
    + intros [<- | Hp]; [intros [] |]. intros Hc. right. eapply IH; eassumption.
    + pose proof (splitChars_nonempty sep r) as Hne.
      destruct (splitChars sep r) as [| q qs]; [congruence |].
      intros [<- | Hp] Hc.
      * destruct Hc as [-> | Hc]; [left; reflexivity |].
        right. apply (IH q); [left; reflexivity | assumption].
      * right. apply (IH p); [right; assumption | assumption].
Qed.

Lemma blank_chars (s : string) :
  String.eqb (trim s) "" = true <-> forallb isWhiteSpace (chars s) = true.
Proof.
  rewrite JsFacts.trim_empty. apply trimChars_blank.
Qed.

(** A text is all white space exactly when each of its lines is. *)
Lemma blank_lines (l : list ascii) :
  forallb isWhiteSpace l = true
  <-> Forall (fun p => forallb isWhiteSpace p = true) (splitChars lineFeed l).
Proof.
  split.
  - intros H. apply Forall_forall. intros p Hp. apply forallb_forall.
    intros c Hc. rewrite forallb_forall in H. apply H.
    eapply splitChars_In; eassumption.
  - induction l as [| c r IH]; [reflexivity |]. cbn [splitChars forallb].
    destruct (Ascii.eqb c lineFeed) eqn:Hc.
    + apply Ascii.eqb_eq in Hc. subst c. intros H.
      inversion_clear H as [| ? ? _ Hr].
      change (isWhiteSpace lineFeed) with true. apply IH. assumption.
    + pose proof (splitChars_nonempty lineFeed r) as Hne.
      destruct (splitChars lineFeed r) as [| q qs]; [congruence |].
      cbn iota. intros H. inversion_clear H as [| ? ? Hq Hqs]. cbn in Hq.
      apply andb_true_iff in Hq. destruct Hq as [-> Hq]. cbn [andb].
      apply IH. constructor; assumption.
Qed.

Lemma parseCsv_blank (text : string) :
  parseCsv text = None <-> trim text = "".
Proof.
  rewrite <- (String.eqb_eq (trim text) ""), blank_chars, blank_lines.
  unfold parseCsv, split.
  set (parts := splitChars (ascii_of_nat 10) (chars text)).
  change (splitChars lineFeed (chars text)) with parts.
  assert (filter (fun line => negb (String.eqb (trim line) ""))
                 (map str parts) = []
          <-> Forall (fun p => forallb isWhiteSpace p = true) parts) as Hf.
  { clearbody parts. induction parts as [| p ps IH]; cbn.
    - split; [constructor | reflexivity].
    - destruct (String.eqb (trim (str p)) "") eqn:Hp; cbn.
      + rewrite IH. apply blank_chars in Hp. rewrite chars_str in Hp.
        split; [intros H; constructor; assumption |].
        intros H. inversion H. assumption.
      + split; [discriminate |]. intros H. inversion_clear H as [| ? ? Hb _].
        assert (String.eqb (trim (str p)) "" = true) as Hp'
          by (apply blank_chars; rewrite chars_str; exact Hb).
        congruence. }
  destruct (filter _ (map str parts)) as [| first rest] eqn:Hlines.
  - split; [intros _; apply Hf; reflexivity | reflexivity].
  - split; [discriminate |]. intros H. apply Hf in H. discriminate.
Qed.

(** X1.  The Tabular Parser fails exactly on a text that is empty or all
    white space: only then no line is left after the blank lines are
    dropped. *)
Theorem parser_fails_on_blank_text (text : string) :
  parseCsv text = None <-> trim text = "".
Proof. apply parseCsv_blank. Qed.

(** ** The cells of a parsed table *)

Lemma parsed_line_cells (line : string) :
  free lineFeed line ->
  Forall plainCell (map trim (split comma line)).
Proof.
  intros Hline. apply Forall_forall. intros cell Hcell.
  apply in_map_iff in Hcell. destruct Hcell as (x & <- & Hx).
  unfold split in Hx. apply in_map_iff in Hx. destruct Hx as (p & <- & Hp).
  repeat split.
  - apply trim_idempotent.
  - unfold free, trim. rewrite !chars_str. intros Hin.
    apply In_trimChars in Hin.
    pose proof (splitChars_free comma (chars line)) as Hfree.
    rewrite Forall_forall in Hfree. exact (Hfree p Hp Hin).
  - unfold free, trim. rewrite !chars_str. intros Hin.
    apply In_trimChars in Hin. apply Hline.
    eapply splitChars_In; eassumption.
Qed.

Lemma kept_lines_free (text : string) (line : string) :
  In line (filter (fun line => negb (String.eqb (trim line) ""))
                  (split (ascii_of_nat 10) text)) ->
  free lineFeed line /\ nonBlank line.
Proof.
  rewrite filter_In. intros [Hin Hnb]. split.
  - unfold split in Hin. apply in_map_iff in Hin.
    destruct Hin as (p & <- & Hp). unfold free. rewrite chars_str.
    pose proof (splitChars_free lineFeed (chars text)) as Hfree.
    rewrite Forall_forall in Hfree. exact (Hfree p Hp).
  - unfold nonBlank. intros H. rewrite H in Hnb. discriminate.
Qed.

(** X2.  In every table the Tabular Parser returns, each header and each
    cell is trimmed and holds neither a comma nor a line feed, and every
    row has at least one cell. *)
Theorem parsed_cells_are_plain (text : string) (data : CSVData) :
  parseCsv text = Some data ->
  Forall plainCell (headers data)
  /\ headers data <> []
  /\ Forall (fun row => Forall plainCell row /\ row <> []) (rows data).
Proof.
  unfold parseCsv.
  destruct (filter _ (split (ascii_of_nat 10) text)) as [| first rest] eqn:Hl;
    [discriminate |].
  intros [= <-]. cbn [headers rows].
  assert (forall line, In line (first :: rest) -> free lineFeed line) as Hfree.
  { intros line Hin. rewrite <- Hl in Hin.
    apply (kept_lines_free text line Hin). }
  assert (forall line, map trim (split comma line) <> []) as Hne.
  { intros line H. apply map_eq_nil in H. unfold split in H.
    apply map_eq_nil in H. exact (splitChars_nonempty _ _ H). }
  repeat split.
  - apply parsed_line_cells. apply Hfree. left. reflexivity.
  - apply Hne.
  - apply Forall_forall. intros row Hrow. apply in_map_iff in Hrow.
    destruct Hrow as (line & <- & Hline). split; [| apply Hne].
    apply parsed_line_cells. apply Hfree. right. assumption.
Qed.

Lemma parsed_cells_are_plain_witness :
  parseCsv smallText_padded = Some Samples.smallTable
  /\ Forall plainCell (headers Samples.smallTable)
  /\ headers Samples.smallTable <> []
  /\ Forall (fun row => Forall plainCell row /\ row <> [])
            (rows Samples.smallTable).
Proof.
  split; [vm_compute; reflexivity |].
  exact (parsed_cells_are_plain smallText_padded Samples.smallTable eq_refl).
Defined.

(** ** Writing a table and reading it back *)

Lemma free_join (c sep : ascii) (parts : list string) :
  c <> sep ->
  Forall (free c) parts ->
  free c (join (String sep EmptyString) parts).
Proof.
  intros Hc Hparts. unfold free, join.
  induction Hparts as [| x xs Hx Hxs IH]; [intros [] |].
  destruct xs as [| y ys]; [exact Hx |].
  change (String.concat (String sep EmptyString) (x :: y :: ys))
    with (x ++ String sep EmptyString
            ++ String.concat (String sep EmptyString) (y :: ys))%string.
  rewrite !chars_append. intros Hin.
  apply in_app_or in Hin. destruct Hin as [Hin | Hin]; [exact (Hx Hin) |].
  apply in_app_or in Hin. destruct Hin as [Hin | Hin]; [| exact (IH Hin)].
  destruct Hin as [Hin | []]. congruence.
Qed.

Lemma read_line (row : list string) :
  row <> [] -> Forall plainCell row ->
  map trim (split comma (join "," row)) = row.
Proof.
  intros Hne Hrow.
  change "," with (String comma EmptyString).
  rewrite split_join; [| assumption |].
  - rewrite <- (map_id row) at 2. apply map_ext_in. intros cell Hcell.
    rewrite Forall_forall in Hrow. apply (Hrow cell Hcell).
  - eapply Forall_impl; [| exact Hrow]. intros cell (_ & H & _). exact H.
Qed.

Lemma line_free (row : list string) :
  Forall plainCell row -> free lineFeed (join "," row).
Proof.
  intros Hrow. change "," with (String comma EmptyString).
  apply free_join; [discriminate |].
  eapply Forall_impl; [| exact Hrow]. intros cell (_ & _ & H). exact H.
Qed.

(** X3.  The CSV sample the Analysis Client writes is read back by the
    Tabular Parser as the same table, whenever the table has at most 100
    rows, its headers and cells are trimmed and hold no comma and no line
    feed, and its header row and data rows are written as non-blank
    lines. *)
Theorem written_sample_parses_back (data : CSVData) :
  (List.length (rows data) <= 100)%nat ->
  Forall plainCell (headers data) ->
  writable (headers data) ->
  Forall (fun row => Forall plainCell row /\ writable row) (rows data) ->
  parseCsv (csvContent data) = Some data.
Proof.
  intros Hlen Hh [Hhne Hhnb] Hrows.
  unfold csvContent, slice0, maxRowsForPrompt.
  rewrite firstn_all2 by assumption.
  set (lines := join "," (headers data)
                :: map (fun row => join "," row) (rows data)).
  assert (Forall (free lineFeed) lines) as Hfree.
  { constructor; [apply line_free; assumption |].
    apply Forall_forall. intros line Hline. apply in_map_iff in Hline.
    destruct Hline as (row & <- & Hrow). apply line_free.
    rewrite Forall_forall in Hrows. apply (Hrows row Hrow). }
  assert (Forall nonBlank lines) as Hnb.
  { constructor; [assumption |].
    apply Forall_forall. intros line Hline. apply in_map_iff in Hline.
    destruct Hline as (row & <- & Hrow).
    rewrite Forall_forall in Hrows. apply (Hrows row Hrow). }
  unfold parseCsv.
  change (ascii_of_nat 10) with lineFeed.
  change nl with (String lineFeed EmptyString).
  rewrite split_join; [| discriminate | assumption].
  assert (filter (fun line => negb (String.eqb (trim line) "")) lines = lines)
    as ->.
  { apply forallb_filter_id. apply forallb_forall. intros line Hline.
    rewrite Forall_forall in Hnb. specialize (Hnb line Hline).
    unfold nonBlank in Hnb.
    destruct (String.eqb (trim line) "") eqn:He; [| reflexivity].
    apply String.eqb_eq in He. contradiction. }
  subst lines. cbn iota.
  fold comma. rewrite read_line by assumption.
  rewrite map_map.
  rewrite (map_ext_in _ (fun row => row)), map_id.
  - destruct data; reflexivity.
  - intros row Hrow. rewrite Forall_forall in Hrows.
    destruct (Hrows row Hrow) as [Hcells [Hne _]].
    apply read_line; assumption.
Qed.

Ltac plain_cell :=
  split; [vm_compute; reflexivity |];
  split; intros H; vm_compute in H; intuition discriminate.

Ltac plain_cells :=
  repeat (apply Forall_cons; [plain_cell |]); apply Forall_nil.

Ltac written_row :=
  split; [discriminate | intros H; vm_compute in H; discriminate].

Lemma written_sample_parses_back_witness :
  (List.length (rows Samples.smallTable) <= 100)%nat
  /\ Forall plainCell (headers Samples.smallTable)
  /\ writable (headers Samples.smallTable)
  /\ Forall (fun row => Forall plainCell row /\ writable row)
            (rows Samples.smallTable)
  /\ parseCsv (csvContent Samples.smallTable) = Some Samples.smallTable.
Proof.
  assert (Forall plainCell (headers Samples.smallTable)) as Hh
    by plain_cells.
  assert (writable (headers Samples.smallTable)) as Hw by written_row.
  assert (Forall (fun row => Forall plainCell row /\ writable row)
                 (rows Samples.smallTable)) as Hr.
  { constructor; [| constructor].
    split; [plain_cells | written_row]. }
  assert (List.length (rows Samples.smallTable) <= 100)%nat as Hl
    by (cbn; lia).
  split; [exact Hl |]. split; [exact Hh |]. split; [exact Hw |].
  split; [exact Hr |].
  exact (written_sample_parses_back Samples.smallTable Hl Hh Hw Hr).
Defined.

End ParserFacts.

(* ================================================================== *)
(** * Edge cases of the Chart Data Mapper                              *)
(* ================================================================== *)

Module MapperEdgeFacts.
Import Js Types Mapper Samples Notions JsFacts MapperFacts TextFacts.

(** ** Rows shorter or longer than the header row *)

Lemma fillRow_reads (hs : list string) (i : nat) (row row' : list string)
                    (acc : Obj JsValue) :
  (forall k, (i <= k < i + List.length hs)%nat ->
             nth_error row k = nth_error row' k) ->
  fillRow hs i row acc = fillRow hs i row' acc.
Proof.
  revert i acc. induction hs as [| h hs IH]; intros i acc Hsame;
    [reflexivity |].
  cbn [fillRow]. rewrite (Hsame i) by (cbn; lia).
  apply IH. intros k Hk. apply Hsame. cbn. lia.
Qed.

(** X4.  The mapper reads a row only under the headers: cells beyond the
    last header are ignored, and a header beyond the end of a row gets the
    number [NaN], as a blank cell does. *)
Theorem rows_are_read_under_the_headers :
  (forall data, rawRows (cutRows data) = rawRows data)
  /\ (forall hs row col j,
        col <> "__proto__" ->
        lastIndexOf col hs = Some j ->
        (List.length row <= j)%nat ->
        get (fillRow hs 0 row []) col = VNumber NaN).
Proof.
  split.
  - intros data. unfold rawRows, cutRows. cbn [headers rows].
    rewrite map_map. apply map_ext. intros row.
    apply fillRow_reads. intros k Hk. rewrite nth_error_firstn.
    assert (Nat.ltb k (List.length (headers data)) = true) as ->
      by (apply Nat.ltb_lt; lia).
    reflexivity.
  - intros hs row col j Hcol Hj Hlen. unfold get.
    rewrite fillRow_cell, Hj by assumption.
    assert (nth_error row (0 + j) = None) as ->
      by (apply nth_error_None; cbn; lia).
    reflexivity.
Qed.

Lemma rows_are_read_under_the_headers_witness :
  rawRows (cutRows (column_c ["b"; "1"])) = rawRows (column_c ["b"; "1"])
  /\ get (fillRow ["x"; "y"] 0 ["1"] []) "y" = VNumber NaN.
Proof.
  split.
  - exact (proj1 rows_are_read_under_the_headers (column_c ["b"; "1"])).
  - apply (proj2 rows_are_read_under_the_headers ["x"; "y"] ["1"] "y" 1%nat);
      [discriminate | reflexivity | cbn; lia].
Defined.

(** ** Columns the table does not have *)

Lemma fillRow_absent (hs : list string) (i : nat) (row : list string)
                     (acc : Obj JsValue) (col : string) :
  ~ In col hs -> ownGet (fillRow hs i row acc) col = ownGet acc col.
Proof.
  revert i acc. induction hs as [| h hs IH]; intros i acc Hin;
    [reflexivity |].
  cbn [fillRow]. rewrite IH by (intros H; apply Hin; right; assumption).
  apply ownGet_assign_other.
  destruct (String.eqb h col) eqn:Hh; [| reflexivity].
  apply String.eqb_eq in Hh. exfalso. apply Hin. left. assumption.
Qed.

Lemma absent_column_value (data : CSVData) (col : string)
                          (rowObject : Obj JsValue) :
  ~ In col (headers data) ->
  In rowObject (rawRows data) ->
  get rowObject col = if isInherited col then VInherited col else VUndefined.
Proof.
  intros Hcol Hin. unfold rawRows in Hin. apply in_map_iff in Hin.
  destruct Hin as (row & <- & _). unfold get.
  rewrite fillRow_absent by assumption. reflexivity.
Qed.

Lemma absent_column_isNaN (data : CSVData) (col : string)
                          (rowObject : Obj JsValue) :
  ~ In col (headers data) ->
  In rowObject (rawRows data) ->
  isNaN (get rowObject col) = true.
Proof.
  intros Hcol Hin. rewrite (absent_column_value data col rowObject Hcol Hin).
  destruct (isInherited col); reflexivity.
Qed.

Lemma filter_none {A} (f : A -> bool) (l : list A) :
  (forall a, In a l -> f a = false) -> filter f l = [].
Proof.
  induction l as [| a l IH]; intros H; [reflexivity |].
  cbn. rewrite (H a) by (left; reflexivity).
  apply IH. intros b Hb. apply H. right. assumption.
Qed.

(** X5.  A chart over a column that is not among the headers of the table
    has no data: a scatter chart when either of its two columns is
    missing, and a bar chart when its column is missing and is not the
    name of a member of [Object.prototype]. *)
Theorem missing_column_gives_no_data
    (chartParam : ChartParameter) (data : CSVData) :
  (forall xCol yCol,
     type chartParam = scatter -> columns chartParam = [xCol; yCol] ->
     ~ In xCol (headers data) \/ ~ In yCol (headers data) ->
     prepareChartData chartParam data = [])
  /\ (forall col,
        type chartParam = bar -> columns chartParam = [col] ->
        ~ In col (headers data) -> isInherited col = false ->
        prepareChartData chartParam data = []).
Proof.
  split.
  - intros xCol yCol Htype Hcols Hmissing.
    unfold prepareChartData. rewrite Htype, Hcols.
    rewrite filter_none; [reflexivity |].
    intros rowObject Hin.
    destruct Hmissing as [Hx | Hy].
    + rewrite (absent_column_isNaN data xCol rowObject Hx Hin). reflexivity.
    + rewrite (absent_column_isNaN data yCol rowObject Hy Hin).
      apply andb_false_r.
  - intros col Htype Hcols Hmissing Hplain.
    unfold prepareChartData. rewrite Htype, Hcols.
    rewrite fold_countRow.
    rewrite filter_none; [reflexivity |].
    intros value Hin. apply in_map_iff in Hin.
    destruct Hin as (rowObject & <- & Hrow).
    rewrite (absent_column_value data col rowObject Hmissing Hrow), Hplain.
    reflexivity.
Qed.

Lemma missing_column_gives_no_data_witness :
  type (chartOf scatter ["x"; "z"]) = scatter
  /\ columns (chartOf scatter ["x"; "z"]) = ["x"; "z"]
  /\ (~ In "x" (headers scatterTable) \/ ~ In "z" (headers scatterTable))
  /\ prepareChartData (chartOf scatter ["x"; "z"]) scatterTable = []
  /\ type (chartOf bar ["z"]) = bar
  /\ columns (chartOf bar ["z"]) = ["z"]
  /\ ~ In "z" (headers scatterTable)
  /\ isInherited "z" = false
  /\ prepareChartData (chartOf bar ["z"]) scatterTable = [].
Proof.
  assert (~ In "z" (headers scatterTable)) as Hz
    by (cbn; intuition discriminate).
  split; [reflexivity |]. split; [reflexivity |].
  split; [right; exact Hz |].
  split; [exact (proj1 (missing_column_gives_no_data
                          (chartOf scatter ["x"; "z"]) scatterTable)
                       "x" "z" eq_refl eq_refl (or_intror Hz)) |].
  split; [reflexivity |]. split; [reflexivity |].
  split; [exact Hz |]. split; [reflexivity |].
  exact (proj2 (missing_column_gives_no_data
                  (chartOf bar ["z"]) scatterTable)
               "z" eq_refl eq_refl Hz eq_refl).
Defined.

(** ** What is rendered *)

(** X6.  [renderChart] shows a chart exactly when the mapper returns data:
    with no column it shows the first placeholder, with no data the
    second, and otherwise a container holding exactly one chart, of the
    type of the specification and fed with the mapper's data; the
    container is never empty. *)
Theorem rendered_chart_matches_data
    (chartParam : ChartParameter) (data : CSVData) :
  match Display.renderChart chartParam data with
  | Display.CouldNotGenerate t =>
      columns chartParam = [] /\ t = title chartParam
  | Display.NoValidData t =>
      columns chartParam <> [] /\ prepareChartData chartParam data = []
      /\ t = title chartParam
  | Display.Container t d charts =>
      prepareChartData chartParam data <> []
      /\ exists chart,
           charts = [chart]
           /\ Display.chartKind chart = type chartParam
           /\ Display.chartRecords chart = prepareChartData chartParam data
  end.
Proof.
  unfold Display.renderChart.
  destruct (columns chartParam) as [| c0 cols] eqn:Hcols; [auto |].
  destruct (prepareChartData chartParam data) as [| r rs] eqn:Hdata.
  - repeat split. discriminate.
  - split; [discriminate |].
    unfold prepareChartData in Hdata. rewrite Hcols in Hdata.
    destruct (type chartParam) eqn:Htype.
    + destruct cols as [| c1 cols]; [| discriminate].
      eexists. repeat split.
    + destruct cols as [| c1 cols]; [discriminate |].
      eexists. repeat split.
    + destruct cols as [| c1 [| c2 cols]]; try discriminate.
      eexists. repeat split.
    + discriminate.
Qed.

(** ** Totals of a bar chart *)

Lemma filter_partition {A} (f : A -> bool) (l : list A) :
  Permutation (filter f l ++ filter (fun a => negb (f a)) l) l.
Proof.
  induction l as [| a l IH]; cbn; [constructor |].
  destruct (f a); cbn.
  - constructor. assumption.
  - eapply Permutation_trans; [apply Permutation_sym, Permutation_middle |].
    constructor. assumption.
Qed.

Lemma indices_texts (ks : list string) :
  map decimalString (indicesOf ks) = filter isArrayIndex ks.
Proof.
  unfold indicesOf, isArrayIndex.
  induction ks as [| k ks IH]; [reflexivity |]. cbn.
  destruct (arrayIndex k) as [i |] eqn:Hi; cbn; [| assumption].
  rewrite (arrayIndex_canonical k i Hi), IH. reflexivity.
Qed.

(** The enumeration of the keys is a rearrangement of them. *)
Lemma orderKeys_permutation (ks : list string) :
  Permutation (orderKeys ks) ks.
Proof.
  unfold orderKeys.
  eapply Permutation_trans; [| apply (filter_partition isArrayIndex)].
  apply Permutation_app_tail. rewrite <- indices_texts.
  apply Permutation_map, Permutation_sym, sortIndices_perm.
Qed.

Lemma sumOver_permutation (f : string -> N) (l l' : list string) :
  Permutation l l' -> sumOver f l = sumOver f l'.
Proof.
  induction 1; cbn; lia.
Qed.

Lemma sumOver_ext (f g : string -> N) (l : list string) :
  (forall k, In k l -> f k = g k) -> sumOver f l = sumOver g l.
Proof.
  induction l as [| k l IH]; intros H; [reflexivity |]. cbn.
  rewrite (H k) by (left; reflexivity).
  rewrite IH by (intros k' Hk'; apply H; right; assumption). reflexivity.
Qed.

Lemma sumOver_split (f : string -> N) (k : string) (l : list string) :
  sumOver f l
  = (sumOver f (filter (String.eqb k) l)
     + sumOver f (filter (fun k' => negb (String.eqb k' k)) l))%N.
Proof.
  induction l as [| a l IH]; [reflexivity |]. cbn.
  rewrite (String.eqb_sym a k).
  destruct (String.eqb k a); cbn; lia.
Qed.

Lemma occurrences_cons (k a : string) (l : list string) :
  occurrences k (a :: l)
  = ((if String.eqb k a then 1 else 0) + occurrences k l)%N.
Proof.
  unfold occurrences. cbn. destruct (String.eqb k a); cbn [List.length]; lia.
Qed.

Lemma sumOver_single (k : string) (l : list string) (f : string -> N) :
  NoDup l ->
  sumOver f (filter (String.eqb k) l) = if mem k l then f k else 0%N.
Proof.
  induction 1 as [| a l Ha Hnd IH]; [reflexivity |].
  cbn. destruct (String.eqb k a) eqn:Hk; cbn.
  - apply String.eqb_eq in Hk. subst a. rewrite IH.
    assert (mem k l = false) as -> by (apply mem_false; assumption). lia.
  - exact IH.
Qed.

(** Every row that is counted is counted once. *)
Lemma occurrences_total (ks : list string) :
  sumOver (fun k => occurrences k ks) (firstSeen ks)
  = N.of_nat (List.length ks).
Proof.
  induction ks as [| a ks IH]; [reflexivity |].
  cbn [firstSeen sumOver List.length].
  rewrite occurrences_cons, String.eqb_refl.
  rewrite (sumOver_ext _ (fun k => occurrences k ks)).
  - rewrite (sumOver_split _ a (firstSeen ks)) in IH.
    rewrite (sumOver_single a (firstSeen ks)) in IH
      by apply NoDup_firstSeen.
    rewrite mem_firstSeen in IH.
    destruct (mem a ks) eqn:Hmem.
    + lia.
    + rewrite (occurrences_absent a ks Hmem). lia.
  - intros k Hk. apply filter_In in Hk. destruct Hk as [_ Hk].
    rewrite occurrences_cons. destruct (String.eqb k a); [discriminate | lia].
Qed.

Lemma countTotal_records (f : string -> N) (l : list string) :
  countTotal (map (fun k => CountRecord k (Num (f k))) l) = sumOver f l
  /\ recordNames (map (fun k => CountRecord k (Num (f k))) l) = l.
Proof.
  induction l as [| k l [IH1 IH2]]; [split; reflexivity |].
  split.
  - cbn [map countTotal sumOver]. rewrite IH1. reflexivity.
  - unfold recordNames in IH2 |- *. cbn [map flat_map app].
    rewrite IH2. reflexivity.
Qed.

(** X7.  In a bar chart no two records share a name, and the counts add
    up to the number of rows that were counted (the rows whose value is
    not left out), provided no counted key is the name of a member of
    [Object.prototype]. *)
Theorem bar_counts_add_up
    (chartParam : ChartParameter) (data : CSVData) (col : string) :
  type chartParam = bar ->
  columns chartParam = [col] ->
  Forall (fun k => isInherited k = false) (countedKeys col data) ->
  NoDup (recordNames (prepareChartData chartParam data))
  /\ countTotal (prepareChartData chartParam data)
     = N.of_nat (List.length (countedKeys col data))
  /\ (List.length (countedKeys col data) <= List.length (rows data))%nat.
Proof.
  intros Htype Hcols Hkeys.
  rewrite (bar_enumerates_tally _ _ _ Htype Hcols Hkeys).
  rewrite entries_tally, map_map.
  set (ks := countedKeys col data).
  destruct (countTotal_records (fun k => occurrences k ks)
                               (orderKeys (firstSeen ks))) as [Ht Hn].
  cbn beta in Ht, Hn |- *. rewrite Ht, Hn. repeat split.
  - eapply Permutation_NoDup;
      [apply Permutation_sym, orderKeys_permutation | apply NoDup_firstSeen].
  - rewrite (sumOver_permutation _ _ _ (orderKeys_permutation (firstSeen ks))).
    apply occurrences_total.
  - subst ks. unfold countedKeys.
    eapply Nat.le_trans; [apply filter_length_le |].
    rewrite length_map. unfold rawRows. rewrite length_map. lia.
Qed.

Lemma bar_counts_add_up_witness :
  type barExample = bar
  /\ columns barExample = ["c"]
  /\ Forall (fun k => isInherited k = false)
            (countedKeys "c" (column_c ["b"; "10"; "9"; "b"; ""]))
  /\ countTotal (prepareChartData barExample
                   (column_c ["b"; "10"; "9"; "b"; ""])) = 4%N.
Proof.
  assert (Forall (fun k => isInherited k = false)
                 (countedKeys "c" (column_c ["b"; "10"; "9"; "b"; ""])))
    as Hkeys by (vm_compute; repeat constructor).
  split; [reflexivity |]. split; [reflexivity |]. split; [exact Hkeys |].
  exact (proj1 (proj2 (bar_counts_add_up barExample
                         (column_c ["b"; "10"; "9"; "b"; ""]) "c"
                         eq_refl eq_refl Hkeys))).
Defined.

(** ** White space around a cell *)

Lemma Number_trim (s : string) : Number (trim s) = Number s.
Proof.
  unfold Number, trim. rewrite chars_str, trimChars_idempotent. reflexivity.
Qed.

(** X8.  White space around a cell does not change its coercion to a
    number: the trimmed cell is blank, numeric or not numeric as the cell
    is, and gives the same number; only a cell kept as a string keeps its
    own white space. *)
Theorem coercion_ignores_padding (cell : string) :
  parseValue (Some (trim cell))
  = match parseValue (Some cell) with
    | VString _ => VString (trim cell)
    | v => v
    end.
Proof.
  unfold parseValue. rewrite trim_idempotent, Number_trim.
  destruct (String.eqb (trim cell) ""); [reflexivity |].
  destruct (isNaNNumber (Number cell)) eqn:Hn; [reflexivity |].
  destruct (Number cell); reflexivity.
Qed.


(** ** Repeated headers *)

(** X25.  When a header occurs more than once, the column read under that
    name is the last one: every row object holds, for a header, the
    coerced cell at the last position of the header, and nothing for a
    name that is not a header. *)
Theorem repeated_header_names_last_column (data : CSVData) (col : string) :
  col <> "__proto__" ->
  map (fun rowObject => ownGet rowObject col) (rawRows data)
  = map (fun row =>
           match lastIndexOf col (headers data) with
           | Some j => Some (parseValue (nth_error row j))
           | None => None
           end) (rows data).
Proof.
  intros Hcol. unfold rawRows. rewrite map_map.
  apply map_ext. intros row. rewrite fillRow_cell by assumption.
  reflexivity.
Qed.

Lemma repeated_header_names_last_column_witness :
  "a" <> "__proto__"
  /\ lastIndexOf "a" ["a"; "b"; "a"] = Some 2%nat
  /\ map (fun rowObject => ownGet rowObject "a")
         (rawRows {| headers := ["a"; "b"; "a"];
                     rows := [["1"; "2"; "3"]; ["4"; "5"]] |})
     = [Some (parseValue (Some "3")); Some (parseValue None)].
Proof.
  assert ("a" <> "__proto__") as Hcol by discriminate.
  split; [exact Hcol |]. split; [reflexivity |].
  exact (repeated_header_names_last_column
           {| headers := ["a"; "b"; "a"];
              rows := [["1"; "2"; "3"]; ["4"; "5"]] |} "a" Hcol).
Defined.

(** ** The series of a line chart *)



End MapperEdgeFacts.

(** * The base64 helpers: shape of the encoding *)

Module EncodingFacts.
Import Base64 Base64Facts.

Lemma padded_sextets_length (bytes : list Z) :
  (List.length (sextets bytes) + List.length (padding (List.length bytes))
   = 4 * Nat.div (List.length bytes + 2) 3)%nat.
Proof.
  induction bytes as [| a | a b | a b c r IH] using list_ind3;
    try reflexivity.
  cbn [sextets List.length].
  replace (padding (S (S (S (List.length r)))))
    with (padding (List.length r)).
  - replace (S (S (S (List.length r))) + 2)%nat
      with (1 * 3 + (List.length r + 2))%nat by lia.
    rewrite Nat.div_add_l by discriminate. lia.
  - unfold padding.
    replace (S (S (S (List.length r)))) with (List.length r + 1 * 3)%nat
      by lia.
    rewrite Nat.Div0.mod_add. reflexivity.
Qed.

Lemma length_string_of_list (l : list ascii) :
  String.length (string_of_list_ascii l) = List.length l.
Proof.
  induction l as [| c l IH]; cbn; congruence.
Qed.

Lemma length_list_of_string (s : string) :
  List.length (list_ascii_of_string s) = String.length s.
Proof.
  induction s as [| c s IH]; cbn; congruence.
Qed.

(** X9.  The encoding of [n] bytes has [4 * ceil(n / 3)] characters, each
    of them one of the 64 characters of the alphabet or the padding
    character. *)
Theorem encoding_has_padded_length (bytes : list Z) :
  String.length (encode bytes)
  = (4 * Nat.div (List.length bytes + 2) 3)%nat
  /\ Forall (fun c => In c alphabet \/ c = pad)
            (list_ascii_of_string (encode bytes)).
Proof.
  unfold encode, btoa. split.
  - rewrite length_string_of_list, length_app, length_map.
    set (binary := map charCode _).
    assert (List.length binary = List.length bytes) as Hlen.
    { subst binary.
      rewrite length_map, length_list_of_string, length_string_of_list,
        length_map. reflexivity. }
    rewrite <- Hlen. apply padded_sextets_length.
  - rewrite list_ascii_of_string_of_list_ascii.
    apply Forall_app. split.
    + apply Forall_forall. intros c Hc. apply in_map_iff in Hc.
      destruct Hc as [s [<- _]]. unfold sextetChar.
      destruct (nth_in_or_default (Z.to_nat s) alphabet pad) as [H | H];
        [left; exact H | right; exact H].
    + unfold padding.
      destruct (Nat.modulo _ 3) as [| [| [| k]]];
        repeat constructor; right; reflexivity.
Qed.

(** X10.  Two byte arrays with the same encoding are the same array. *)
Theorem encoding_is_injective (a b : list Z) :
  Forall isByte a -> Forall isByte b -> encode a = encode b -> a = b.
Proof.
  intros Ha Hb H.
  assert (atob (encode a) = atob (encode b)) as Hd by (rewrite H; reflexivity).
  unfold encode in Hd.
  rewrite (atob_btoa a Ha), (atob_btoa b Hb) in Hd.
  injection Hd as Hd.
  rewrite <- (binary_string_bytes a Ha), <- (binary_string_bytes b Hb), Hd.
  reflexivity.
Qed.

Lemma encoding_is_injective_witness :
  Forall isByte [0; 1] /\ Forall isByte [0; 1]
  /\ encode [0; 1] = "AAE=" /\ [0; 1] = [0; 1].
Proof.
  assert (Forall isByte [0; 1]) as H
    by (repeat constructor; unfold isByte; lia).
  split; [exact H |]. split; [exact H |]. split; [reflexivity |].
  exact (encoding_is_injective [0; 1] [0; 1] H H eq_refl).
Defined.

End EncodingFacts.

(** * The service: fences, failures, streamed replies and samples *)

Module ServiceEdgeFacts.
Import Js Types Service Samples Notions TextFacts.

(** ** The code fence *)

Lemma length_chars (s : string) : List.length (chars s) = String.length s.
Proof.
  apply EncodingFacts.length_list_of_string.
Qed.

Lemma isPrefixChars_app (p r : list ascii) : isPrefixChars p (p ++ r) = true.
Proof.
  induction p as [| c p IH]; cbn; [reflexivity |].
  rewrite Ascii.eqb_refl. exact IH.
Qed.

Lemma isPrefixChars_split (p l : list ascii) :
  isPrefixChars p l = true -> exists r, l = p ++ r.
Proof.
  revert l. induction p as [| c p IH]; intros l H.
  - exists l. reflexivity.
  - destruct l as [| d l]; [discriminate |]. cbn in H.
    apply andb_prop in H. destruct H as [Hc Hp].
    apply Ascii.eqb_eq in Hc. subst d.
    destruct (IH l Hp) as [r ->]. exists r. reflexivity.
Qed.

Lemma startsWith_append (p r : string) : startsWith (p ++ r) p = true.
Proof.
  unfold startsWith. rewrite chars_append. apply isPrefixChars_app.
Qed.

Lemma endsWith_append (r p : string) : endsWith (r ++ p) p = true.
Proof.
  unfold endsWith. rewrite chars_append, rev_app_distr.
  apply isPrefixChars_app.
Qed.

Lemma substring_after (p r : string) :
  substring (p ++ r) (String.length p) (String.length (p ++ r)) = r.
Proof.
  unfold substring. rewrite <- !length_chars, chars_append.
  rewrite skipn_app, skipn_all, Nat.sub_diag. cbn [skipn app].
  rewrite firstn_all2 by (rewrite length_app; lia).
  apply str_chars.
Qed.

Lemma substring_before (r p : string) :
  substring (r ++ p) 0 (String.length (r ++ p) - String.length p) = r.
Proof.
  unfold substring. rewrite <- !length_chars, chars_append. cbn [skipn].
  rewrite length_app, Nat.sub_0_r.
  replace (List.length (chars r) + List.length (chars p)
           - List.length (chars p))%nat
    with (List.length (chars r) + 0)%nat by lia.
  rewrite firstn_app_2. cbn [firstn]. rewrite app_nil_r.
  apply str_chars.
Qed.

Lemma startsWith_inv (s p : string) :
  startsWith s p = true ->
  s = (p ++ substring s (String.length p) (String.length s))%string.
Proof.
  intros H. apply isPrefixChars_split in H. destruct H as [r Hr].
  assert (s = (p ++ str r)%string) as ->.
  { apply chars_inj. rewrite chars_append, chars_str. exact Hr. }
  rewrite substring_after. reflexivity.
Qed.

Lemma endsWith_inv (s p : string) :
  endsWith s p = true ->
  s = (substring s 0 (String.length s - String.length p) ++ p)%string.
Proof.
  intros H. apply isPrefixChars_split in H. destruct H as [r Hr].
  assert (s = (str (rev r) ++ p)%string) as ->.
  { apply chars_inj. rewrite chars_append, chars_str.
    rewrite <- (rev_involutive (chars s)), Hr, rev_app_distr, rev_involutive.
    reflexivity. }
  rewrite substring_before. reflexivity.
Qed.

Lemma append_empty (s : string) : (s ++ "")%string = s.
Proof.
  apply chars_inj. rewrite chars_append. apply app_nil_r.
Qed.

(** X11.  A reply that, white space apart, is a body between the opening
    marker and the closing marker is reduced to exactly that body: the
    body itself is not trimmed again. *)
Theorem fenced_reply_is_unwrapped (text body : string) :
  trim text = fenced body -> stripFence text = body.
Proof.
  intros H. unfold stripFence. cbv zeta. rewrite H. unfold fenced.
  rewrite startsWith_append.
  change 7%nat with (String.length "```json").
  rewrite substring_after, endsWith_append.
  change 3%nat with (String.length "```").
  rewrite substring_before. reflexivity.
Qed.

Lemma fenced_reply_is_unwrapped_witness :
  trim (nl ++ fenced (nl ++ "{}" ++ nl) ++ nl) = fenced (nl ++ "{}" ++ nl)
  /\ stripFence (nl ++ fenced (nl ++ "{}" ++ nl) ++ nl) = (nl ++ "{}" ++ nl)%string.
Proof.
  split; [reflexivity |].
  exact (fenced_reply_is_unwrapped
           (nl ++ fenced (nl ++ "{}" ++ nl) ++ nl) (nl ++ "{}" ++ nl)
           eq_refl).
Defined.

(** X12.  Whatever the reply, the text handed to [JSON.parse] is the
    trimmed reply with at most the opening marker taken from its start and
    at most the closing marker taken from its end; nothing else is
    removed. *)
Theorem only_fence_markers_are_removed (text : string) :
  exists opening closing : string,
    trim text = (opening ++ stripFence text ++ closing)%string
    /\ (opening = "" \/ opening = "```json")
    /\ (closing = "" \/ closing = "```").
Proof.
  unfold stripFence. cbv zeta.
  destruct (startsWith (trim text) "```json") eqn:Hs.
  - apply startsWith_inv in Hs.
    change (String.length "```json") with 7%nat in Hs.
    set (rest := substring (trim text) 7 (String.length (trim text))) in *.
    destruct (endsWith rest "```") eqn:He.
    + apply endsWith_inv in He.
      change (String.length "```") with 3%nat in He.
      exists "```json", "```". rewrite <- He. auto.
    + exists "```json", "". rewrite append_empty. auto.
  - destruct (endsWith (trim text) "```") eqn:He.
    + apply endsWith_inv in He.
      change (String.length "```") with 3%nat in He.
      exists "", "```". cbn [String.append]. auto.
    + exists "", "". cbn [String.append]. rewrite append_empty. auto.
Qed.

(** ** How the analysis settles *)

(** X13.  The analysis resolves only when the model answered with a text
    and the text parsed; the returned note is then the truncation note of
    the table.  Every failure is reported with the prefix
    "Failed to analyze CSV data: ", and a reply that parses to [null] is a
    failure only for a table of more than 100 rows. *)
Theorem analysis_settles_by_cases
    (generateContent : string -> Settled (option string))
    (JSON_parse : string -> Settled (option DataAnalysisResult))
    (typeErrorMessage : string) (csvData : CSVData) :
  match analyzeCsvData generateContent JSON_parse typeErrorMessage csvData with
  | Resolved (result, note) =>
      note = truncationNote csvData
      /\ exists text parsed,
           generateContent (prompt csvData) = Resolved (Some text)
           /\ JSON_parse (stripFence text) = Resolved parsed
           /\ (result = None <-> parsed = None)
           /\ (result = None ->
               (List.length (rows csvData) <= 100)%nat)
  | Rejected message =>
      exists cause,
        message = ("Failed to analyze CSV data: " ++ cause)%string
        /\ (generateContent (prompt csvData) = Rejected cause
            \/ (generateContent (prompt csvData) = Resolved None
                /\ cause = typeErrorMessage)
            \/ exists text,
                 generateContent (prompt csvData) = Resolved (Some text)
                 /\ (JSON_parse (stripFence text) = Rejected cause
                     \/ (JSON_parse (stripFence text) = Resolved None
                         /\ cause = typeErrorMessage
                         /\ (100 < List.length (rows csvData))%nat)))
  end.
Proof.
  unfold analyzeCsvData, analysisFailure, truncationNote, maxRowsForPrompt.
  destruct (generateContent (prompt csvData)) as [[text |] | cause] eqn:Hg.
  - destruct (JSON_parse (stripFence text)) as [parsed | cause] eqn:Hp.
    + destruct (Nat.ltb 100 (List.length (rows csvData))) eqn:Hlen.
      * apply Nat.ltb_lt in Hlen.
        destruct parsed as [result |].
        -- split; [reflexivity |]. exists text, (Some result).
           repeat split; try assumption; discriminate.
        -- exists typeErrorMessage. split; [reflexivity |].
           right. right. exists text. split; [reflexivity |].
           right. auto.
      * apply Nat.ltb_ge in Hlen.
        split; [reflexivity |]. exists text, parsed.
        repeat split; auto.
    + exists cause. split; [reflexivity |].
      right. right. exists text. auto.
  - exists typeErrorMessage. auto.
  - exists cause. auto.
Qed.

(** ** Streamed replies *)

Lemma fullText_fold (cs : list Chunk) (acc : string) :
  fold_left (fun acc chunk =>
               match chunkText chunk with
               | Some t => if String.eqb t "" then acc else (acc ++ t)%string
               | None => acc
               end) cs acc
  = (acc ++ String.concat "" (map addedText cs))%string.
Proof.
  revert acc. induction cs as [| c cs IH]; intros acc.
  - cbn. symmetry. apply append_empty.
  - cbn [fold_left map]. rewrite IH.
    assert (String.concat "" (addedText c :: map addedText cs)
            = (addedText c ++ String.concat "" (map addedText cs))%string)
      as ->.
    { cbn [String.concat]. destruct (map addedText cs); [| reflexivity].
      symmetry. apply append_empty. }
    unfold addedText. destruct (chunkText c) as [t |]; [| reflexivity].
    destruct (String.eqb t "") eqn:Ht.
    + apply String.eqb_eq in Ht. subst t. reflexivity.
    + apply chars_inj. rewrite !chars_append, app_assoc. reflexivity.
Qed.

Lemma sumUsage_fold (cs : list Chunk) (acc : Usage) :
  fold_left (fun acc chunk =>
               {| inputTokens :=
                    (inputTokens acc
                     + match chunkUsage chunk with
                       | Some u => inputTokens u | None => 0 end)%N;
                  outputTokens :=
                    (outputTokens acc
                     + match chunkUsage chunk with
                       | Some u => outputTokens u | None => 0 end)%N |})
            cs acc
  = {| inputTokens := (inputTokens acc + totalTokens inputTokens cs)%N;
       outputTokens := (outputTokens acc + totalTokens outputTokens cs)%N |}.
Proof.
  revert acc. induction cs as [| c cs IH]; intros acc.
  - cbn. rewrite !N.add_0_r. destruct acc; reflexivity.
  - cbn [fold_left]. rewrite IH. unfold totalTokens.
    cbn [map fold_right inputTokens outputTokens].
    f_equal; lia.
Qed.

(** X14.  A stream that ends without an error gives one reply: its text
    is the texts of the fragments in arrival order, a fragment without
    text adding nothing; its token counts are the sums over the fragments;
    its candidates are those of the first fragment. *)
Theorem streamed_reply_is_assembled_in_order (s : Stream) :
  streamError s = None ->
  exists r,
    sendMessageToChat (Resolved s) = Resolved r
    /\ responseText r = String.concat "" (map addedText (chunks s))
    /\ inputTokens (usage r) = totalTokens inputTokens (chunks s)
    /\ outputTokens (usage r) = totalTokens outputTokens (chunks s)
    /\ candidates r = match hd_error (chunks s) with
                      | Some first => chunkCandidates first
                      | None => None
                      end.
Proof.
  intros H. unfold sendMessageToChat. rewrite H.
  eexists. split; [reflexivity |]. cbn [responseText usage candidates].
  unfold fullText, sumUsage. rewrite fullText_fold, sumUsage_fold.
  cbn [inputTokens outputTokens String.append].
  repeat split. destruct (chunks s); reflexivity.
Qed.

(** ** Audio samples *)

Lemma list_ind2 {A} (P : list A -> Prop) :
  P [] -> (forall a, P [a]) -> (forall a b r, P r -> P (a :: b :: r)) ->
  forall l, P l.
Proof.
  intros H0 H1 H2.
  fix IH 1. intros [| a [| b r]]; [exact H0 | apply H1 |].
  apply H2. apply IH.
Qed.

Lemma Some_inj {A} (a b : A) : Some a = Some b -> a = b.
Proof.
  congruence.
Qed.

Lemma int16s_spec (data : list Z) :
  Forall Base64.isByte data ->
  match int16s data with
  | Some l =>
      (2 * List.length l = List.length data)%nat
      /\ Forall isInt16 l
      /\ forall i s, nth_error l i = Some s ->
           exists lo hi,
             nth_error data (2 * i) = Some lo
             /\ nth_error data (2 * i + 1) = Some hi
             /\ s mod 65536 = lo + 256 * hi
  | None => Nat.odd (List.length data) = true
  end.
Proof.
  induction data as [| a | lo hi r IH] using list_ind2; intros Hb.
  - cbn. repeat split; [constructor |]. intros [| i] s H; discriminate.
  - reflexivity.
  - inversion_clear Hb as [| ? ? Hlo Hr]. inversion_clear Hr as [| ? ? Hhi Hr'].
    specialize (IH Hr'). cbn [int16s].
    destruct (int16s r) as [l |].
    + destruct IH as [Hlen [Hall Hnth]]. repeat split.
      * cbn [List.length]. lia.
      * constructor; [| exact Hall].
        unfold isInt16, Base64.isByte in *.
        destruct (Z.ltb_spec (lo + 256 * hi) 32768); lia.
      * intros [| i] s Hs.
        -- cbn [nth_error] in Hs. apply Some_inj in Hs. subst s.
           exists lo, hi.
           split; [reflexivity |]. split; [reflexivity |].
           unfold Base64.isByte in *.
           destruct (Z.ltb_spec (lo + 256 * hi) 32768).
           ++ apply Z.mod_small. lia.
           ++ replace (lo + 256 * hi - 65536)
                with (lo + 256 * hi + (-1) * 65536) by lia.
              rewrite Z.mod_add by lia. apply Z.mod_small. lia.
        -- cbn [nth_error] in Hs. destruct (Hnth i s Hs) as [l0 [h0 [H1 [H2 H3]]]].
           exists l0, h0.
           replace (2 * S i)%nat with (S (S (2 * i))) by lia.
           replace (S (S (2 * i)) + 1)%nat with (S (S (2 * i + 1))) by lia.
           cbn [nth_error]. auto.
    + cbn [List.length]. rewrite Nat.odd_succ, Nat.even_succ. exact IH.
Qed.

(** X15.  The decoder reads the bytes two by two as little-endian signed
    16-bit integers: it gives half as many samples as there are bytes,
    every sample within -32768..32767 and congruent to [lo + 256 * hi],
    at the requested sample rate; it fails exactly on no bytes or an odd
    number of bytes. *)
Theorem audio_samples_are_little_endian_int16 (data : list Z) (rate : Z) :
  Forall Base64.isByte data ->
  match decodeAudioData data rate with
  | Some audio =>
      sampleRate audio = rate
      /\ data <> []
      /\ (2 * List.length (samples audio) = List.length data)%nat
      /\ Forall isInt16 (samples audio)
      /\ forall i s, nth_error (samples audio) i = Some s ->
           exists lo hi,
             nth_error data (2 * i) = Some lo
             /\ nth_error data (2 * i + 1) = Some hi
             /\ s mod 65536 = lo + 256 * hi
  | None => data = [] \/ Nat.odd (List.length data) = true
  end.
Proof.
  intros Hb. pose proof (int16s_spec data Hb) as H.
  unfold decodeAudioData. destruct (int16s data) as [[| s l] |].
  - left. destruct H as [Hlen _]. destruct data; [reflexivity | discriminate].
  - destruct H as [Hlen [Hall Hnth]]. cbn [sampleRate samples].
    repeat split; try assumption.
    intros ->. discriminate.
  - right. exact H.
Qed.

Lemma audio_samples_are_little_endian_int16_witness :
  Forall Base64.isByte [0; 1; 255; 127; 0; 128]
  /\ decodeAudioData [0; 1; 255; 127; 0; 128] 24000
     = Some {| sampleRate := 24000; samples := [256; 32767; -32768] |}
  /\ Forall isInt16 [256; 32767; -32768].
Proof.
  assert (Forall Base64.isByte [0; 1; 255; 127; 0; 128]) as Hb
    by (repeat constructor; unfold Base64.isByte; lia).
  split; [exact Hb |]. split; [reflexivity |].
  exact (proj1 (proj2 (proj2 (proj2
           (audio_samples_are_little_endian_int16
              [0; 1; 255; 127; 0; 128] 24000 Hb))))).
Defined.

Lemma streamed_reply_is_assembled_in_order_witness :
  streamError {| chunks := [{| chunkText := Some "Hel"; chunkCandidates := None;
                               chunkUsage := None |};
                            {| chunkText := None; chunkCandidates := None;
                               chunkUsage := Some {| inputTokens := 3;
                                                     outputTokens := 2 |} |};
                            {| chunkText := Some "lo"; chunkCandidates := None;
                               chunkUsage := Some {| inputTokens := 0;
                                                     outputTokens := 1 |} |}];
                  streamError := None |} = None
  /\ exists r,
       sendMessageToChat
         (Resolved
            {| chunks := [{| chunkText := Some "Hel"; chunkCandidates := None;
                             chunkUsage := None |};
                          {| chunkText := None; chunkCandidates := None;
                             chunkUsage := Some {| inputTokens := 3;
                                                   outputTokens := 2 |} |};
                          {| chunkText := Some "lo"; chunkCandidates := None;
                             chunkUsage := Some {| inputTokens := 0;
                                                   outputTokens := 1 |} |}];
               streamError := None |}) = Resolved r
       /\ responseText r = "Hello"
       /\ inputTokens (usage r) = 3%N
       /\ outputTokens (usage r) = 3%N.
Proof.
  split; [reflexivity |].
  destruct (streamed_reply_is_assembled_in_order
              {| chunks := [{| chunkText := Some "Hel"; chunkCandidates := None;
                               chunkUsage := None |};
                            {| chunkText := None; chunkCandidates := None;
                               chunkUsage := Some {| inputTokens := 3;
                                                     outputTokens := 2 |} |};
                            {| chunkText := Some "lo"; chunkCandidates := None;
                               chunkUsage := Some {| inputTokens := 0;
                                                     outputTokens := 1 |} |}];
                 streamError := None |} eq_refl)
    as [r [Hr [Ht [Hi [Ho _]]]]].
  exists r. repeat split; assumption.
Defined.

End ServiceEdgeFacts.

(** * The component: handlers and reachable states *)

Module AppEdgeFacts.
Import Js Types Service App Samples Notions TextFacts.

Ltac handlers :=
  unfold handleFileSelect, onload, analyzeAndChat, analysisSettled,
    App.handleSendMessage, chatSettled, handlePlayAudio, playbackFailed,
    speechSettled, onended, stopCurrentAudio, initAudioContext, markPlaying,
    updateChatMessages, read, andThen, update, call, skip.

Lemma app_run (h : Handler) (w : World) :
  app (run h w) = fst (h (app w))
  /\ history (run h w) = history w ++ snd (h (app w)).
Proof.
  unfold run. destruct (h (app w)). split; reflexivity.
Qed.

Lemma app_settle (c : Call) (h : Handler) (w : World) :
  (app (settle c h w) = app w /\ history (settle c h w) = history w)
  \/ (In c (pending w)
      /\ app (settle c h w) = fst (h (app w))
      /\ history (settle c h w) = history w ++ snd (h (app w))).
Proof.
  unfold settle. destruct (in_dec Call_eq_dec c (pending w)) as [Hin | Hout].
  - right. split; [exact Hin |].
    apply (app_run h {| app := app w; pending := removeCall c (pending w);
                        history := history w |}).
  - left. split; reflexivity.
Qed.

Section Steps.

Variable JSON_parse : string -> Settled (option DataAnalysisResult).
Variable typeErrorMessage : string.
Variable audioErrorMessage : string.

(** What one event can do to the state, handler by handler: a relation
    that holds of every handler run as the component runs it, and of doing
    nothing, holds of every step. *)
Lemma step_cases (R : AppState -> AppState * list Call -> Prop) :
  (forall st, R st (st, [])) ->
  (forall file st, R st (handleFileSelect file st)) ->
  (forall text st, R st (onload text st)) ->
  (forall outcome st, R st (analysisSettled outcome st)) ->
  (forall text userId userTime st,
     analysisResult st <> None ->
     R st (App.handleSendMessage text userId userTime st)) ->
  (forall newUserMessage stream aiId aiTime st,
     R st (chatSettled newUserMessage (sendMessageToChat stream)
                       aiId aiTime st)) ->
  (forall message st,
     In message (chatMessages st) -> listenable message = true ->
     R st (handlePlayAudio (id message) (text message) st)) ->
  (forall messageId response st,
     R st (speechSettled audioErrorMessage messageId
                         (generateSpeech response) st)) ->
  (forall source st, R st (onended source st)) ->
  forall w ev,
    exists calls,
      R (app w)
        (app (step JSON_parse typeErrorMessage audioErrorMessage w ev), calls)
      /\ history (step JSON_parse typeErrorMessage audioErrorMessage w ev)
         = history w ++ calls.
Proof.
  intros Hskip Hfile Hload Hanalysis Hsend Hchat Hplay Hspeech Hended w ev.
  assert (forall h, R (app w) (h (app w)) ->
            exists calls, R (app w) (app (run h w), calls)
                          /\ history (run h w) = history w ++ calls)
    as Hrun.
  { intros h Hh. destruct (app_run h w) as [Ha Hc].
    exists (snd (h (app w))). rewrite Ha, Hc.
    split; [| reflexivity]. destruct (h (app w)). exact Hh. }
  assert (exists calls, R (app w) (app w, calls)
                        /\ history w = history w ++ calls) as Hidle.
  { exists []. split; [apply Hskip | symmetry; apply app_nil_r]. }
  assert (forall c h, R (app w) (h (app w)) ->
            exists calls, R (app w) (app (settle c h w), calls)
                          /\ history (settle c h w) = history w ++ calls)
    as Hsettle.
  { intros c h Hh.
    destruct (app_settle c h w) as [[Ha Hc] | [_ [Ha Hc]]].
    - rewrite Ha, Hc. exact Hidle.
    - exists (snd (h (app w))). rewrite Ha, Hc.
      split; [| reflexivity]. destruct (h (app w)). exact Hh. }
  destruct ev as [file | file text | data response
                  | inputValue userId userTime
                  | chat newUserMessage stream aiId aiTime
                  | message | messageId text response | source];
    cbn [step].
  - apply Hrun, Hfile.
  - apply Hsettle, Hload.
  - apply Hsettle, Hanalysis.
  - destruct (isSendingChat (app w)); [exact Hidle |].
    destruct (analysisResult (app w)) as [result |] eqn:Hresult.
    + destruct (ChatInput.sent _) as [text |]; [| exact Hidle].
      apply Hrun, Hsend. rewrite Hresult. discriminate.
    + unfold ChatInput.handleSendMessage. rewrite andb_false_r.
      exact Hidle.
  - apply Hsettle, Hchat.
  - destruct (in_dec Message_eq_dec message (chatMessages (app w)))
      as [Hin | Hout]; [| exact Hidle].
    destruct (listenable message) eqn:Hlisten; [| exact Hidle].
    apply Hrun, Hplay; assumption.
  - apply Hsettle, Hspeech.
  - apply Hsettle, Hended.
Qed.

(** A property of the state that every handler keeps holds in every
    reachable world. *)
Lemma reachable_invariant (P : AppState -> Prop) :
  P initialState ->
  (forall file st, P st -> P (fst (handleFileSelect file st))) ->
  (forall text st, P st -> P (fst (onload text st))) ->
  (forall outcome st, P st -> P (fst (analysisSettled outcome st))) ->
  (forall text userId userTime st,
     analysisResult st <> None -> P st ->
     P (fst (App.handleSendMessage text userId userTime st))) ->
  (forall newUserMessage stream aiId aiTime st,
     P st ->
     P (fst (chatSettled newUserMessage (sendMessageToChat stream)
                         aiId aiTime st))) ->
  (forall message st,
     P st -> P (fst (handlePlayAudio (id message) (text message) st))) ->
  (forall messageId response st,
     P st ->
     P (fst (speechSettled audioErrorMessage messageId
                           (generateSpeech response) st))) ->
  (forall source st, P st -> P (fst (onended source st))) ->
  forall w,
    reachable JSON_parse typeErrorMessage audioErrorMessage w -> P (app w).
Proof.
  intros H0 Hfile Hload Hanalysis Hsend Hchat Hplay Hspeech Hended w [evs ->].
  unfold runEvents.
  induction evs as [| ev evs IH] using rev_ind; [exact H0 |].
  rewrite fold_left_app. cbn [fold_left].
  destruct (step_cases (fun st out => P st -> P (fst out)))
    with (w := fold_left (step JSON_parse typeErrorMessage audioErrorMessage)
                         evs initialWorld) (ev := ev)
    as [calls [H _]]; auto.
Qed.

End Steps.


(** ** Upload *)

(** X16.  A file of at most 20 MiB, the limit included, is handed to the
    reader: the selection is recorded, the error, the analysis result and
    the transcript are cleared, and nothing else changes (the table of an
    earlier upload stays). *)
Theorem upload_within_limit_is_read (file : File) (st : AppState) :
  size file <= 20971520 ->
  handleFileSelect file st
  = (setChatMessages []
       (setAnalysisResult None
          (setError None (setSelectedFile (Some file) st))),
     [ReadAsText file]).
Proof.
  intros Hsize. handlers. unfold sizeLimit.
  destruct (Z.ltb_spec (20 * 1024 * 1024) (size file)); [lia |].
  reflexivity.
Qed.

Lemma upload_within_limit_is_read_witness :
  20971520 <= 20971520
  /\ snd (handleFileSelect {| fileName := "limit.csv"; size := 20971520 |}
                           (app loaded))
     = [ReadAsText {| fileName := "limit.csv"; size := 20971520 |}]
  /\ csvData (fst (handleFileSelect
                     {| fileName := "limit.csv"; size := 20971520 |}
                     (app loaded)))
     = csvData (app loaded).
Proof.
  split; [lia |].
  rewrite (upload_within_limit_is_read
             {| fileName := "limit.csv"; size := 20971520 |} (app loaded))
    by (cbn; lia).
  split; reflexivity.
Defined.

(** X17.  When the text of the file is blank the handler reports
    "CSV file is empty.", clears the selection and asks for no analysis;
    otherwise the parsed table is stored and its analysis is requested,
    with the loading flag set and the error cleared. *)
Theorem file_text_is_parsed_or_reported (text : string) (st : AppState) :
  if String.eqb (trim text) "" then
    onload text st
    = (setSelectedFile None (setError (Some "CSV file is empty.") st),
       [ParseCsv text])
  else
    exists data,
      parseCsv text = Some data
      /\ onload text st
         = (setError None
              (setIsLoadingAnalysis true (setCsvData (Some data) st)),
            [ParseCsv text; AnalyzeCsvData data]).
Proof.
  destruct (String.eqb (trim text) "") eqn:Hblank.
  - apply String.eqb_eq in Hblank.
    apply ParserFacts.parseCsv_blank in Hblank.
    handlers. rewrite Hblank. reflexivity.
  - destruct (parseCsv text) as [data |] eqn:Hparse.
    + exists data. split; [reflexivity |].
      handlers. rewrite Hparse. reflexivity.
    + apply ParserFacts.parseCsv_blank in Hparse.
      rewrite Hparse in Hblank. discriminate.
Qed.

(** ** Chat *)

(** X18.  A send that is answered appends exactly the question and then
    the answer to the transcript; the answer is never empty (an empty
    reply is replaced by an apology), it can be listened to, and the
    sending flag and the error are cleared. *)
Theorem answered_send_appends_question_and_answer
    (st : AppState) (chat : Chat) (result : DataAnalysisResult)
    (text userId userTime aiId aiTime : string)
    (stream : Settled Stream) (response : GenerateContentResponse) :
  currentChatSession st = Some chat ->
  analysisResult st = Some result ->
  sendMessageToChat stream = Resolved response ->
  let newUserMessage :=
    {| id := userId; sender := user; text := text; timestamp := userTime;
       audioAvailable := None; isPlaying := None |} in
  let sending := fst (App.handleSendMessage text userId userTime st) in
  let answered :=
    fst (chatSettled newUserMessage (sendMessageToChat stream) aiId aiTime
                     sending) in
  exists answer,
    chatMessages answered = chatMessages st ++ [newUserMessage; answer]
    /\ id answer = aiId /\ sender answer = ai
    /\ Types.text answer <> ""
    /\ (responseText response <> "" ->
        Types.text answer = responseText response)
    /\ (responseText response = "" ->
        Types.text answer = "I'm sorry, I couldn't generate a response.")
    /\ listenable answer = true
    /\ isSendingChat answered = false
    /\ error answered = None.
Proof.
  intros Hchat Hresult Hreply newUserMessage sending answered.
  subst sending answered. rewrite Hreply.
  handlers. rewrite Hchat, Hresult. cbn.
  eexists. split; [rewrite <- app_assoc; reflexivity |].
  cbn. repeat split.
  - destruct (String.eqb (responseText response) "") eqn:Hempty;
      [discriminate |].
    apply String.eqb_neq. exact Hempty.
  - intros Hne. apply String.eqb_neq in Hne. rewrite Hne. reflexivity.
  - intros ->. reflexivity.
Qed.

Lemma answered_send_appends_question_and_answer_witness :
  currentChatSession (app loaded) = Some sampleChat
  /\ analysisResult (app loaded) = Some sampleResult
  /\ sendMessageToChat (reply "")
     = Resolved {| responseText := ""; candidates := None;
                   usage := {| inputTokens := 0; outputTokens := 0 |} |}
  /\ exists answer,
       chatMessages
         (fst (chatSettled (userMessage "u3" "third question" "10:00:05")
                           (sendMessageToChat (reply ""))
                           "a3" "10:00:06"
                           (fst (App.handleSendMessage
                                   "third question" "u3" "10:00:05"
                                   (app loaded)))))
       = chatMessages (app loaded)
         ++ [userMessage "u3" "third question" "10:00:05"; answer]
       /\ Types.text answer = "I'm sorry, I couldn't generate a response.".
Proof.
  split; [reflexivity |]. split; [reflexivity |]. split; [reflexivity |].
  destruct (answered_send_appends_question_and_answer
              (app loaded) sampleChat sampleResult
              "third question" "u3" "10:00:05" "a3" "10:00:06"
              (reply "") _ eq_refl eq_refl eq_refl)
    as [answer [Hm [_ [_ [_ [_ [He _]]]]]]].
  exists answer. split; [exact Hm | exact (He eq_refl)].
Defined.

(** ** Playback *)

Lemma flagsOnly_refl (messageId : string) (l : list Message) :
  flagsOnly messageId l l.
Proof.
  induction l as [| m l IH]; constructor; auto.
Qed.

Lemma flagsOnly_mark (messageId : string) (flag : bool) (l : list Message) :
  flagsOnly messageId l
    (map (fun msg => if String.eqb (id msg) messageId
                     then withIsPlaying flag msg else msg) l).
Proof.
  induction l as [| m l IH]; cbn [map]; constructor; [| exact IH].
  destruct (String.eqb (id m) messageId) eqn:Hid.
  - apply String.eqb_eq in Hid. split; [reflexivity |].
    intros Hne. contradiction.
  - split; reflexivity.
Qed.

(** X19.  Playback never adds, removes or reorders a message and never
    changes an id, a sender, a text, a time or the audio marking: from the
    click to the end of the audio, only playing flags change, and only on
    the messages with the id concerned. *)
Theorem playback_changes_only_playing_flags
    (audioErrorMessage messageId text : string) (speech : Settled string)
    (source : AudioSource) (st : AppState) :
  flagsOnly messageId (chatMessages st)
            (chatMessages (fst (handlePlayAudio messageId text st)))
  /\ flagsOnly messageId (chatMessages st)
       (chatMessages
          (fst (speechSettled audioErrorMessage messageId speech st)))
  /\ flagsOnly (sourceMessage source) (chatMessages st)
       (chatMessages (fst (onended source st))).
Proof.
  split; [| split].
  - handlers.
    destruct (currentAudioSource st); cbn;
      destruct (outputAudioContext st); cbn; apply flagsOnly_mark.
  - handlers. destruct speech as [base64Audio | message]; cbn.
    + destruct (Base64.decode base64Audio) as [data |]; cbn;
        [| apply flagsOnly_mark].
      destruct (decodeAudioData data 24000); cbn;
        [apply flagsOnly_refl | apply flagsOnly_mark].
    + apply flagsOnly_mark.
  - handlers. cbn. apply flagsOnly_mark.
Qed.

Lemma marked_false (messageId : string) (l : list Message) :
  Forall (fun m => id m = messageId -> isPlaying m = Some false)
         (map (fun msg => if String.eqb (id msg) messageId
                          then withIsPlaying false msg else msg) l).
Proof.
  apply Forall_forall. intros m Hm. apply in_map_iff in Hm.
  destruct Hm as [m0 [<- _]].
  destruct (String.eqb (id m0) messageId) eqn:Hid.
  - reflexivity.
  - apply String.eqb_neq in Hid. intros H. contradiction.
Qed.

(** X20.  When the speech request settles, either the audio decodes and
    exactly one source is started and remembered, nothing else changing,
    or no source is started: the error "Failed to play audio: ..." is
    set, the playing marker is cleared whichever message it named, and the
    flag of the message is set to false. *)
Theorem speech_starts_one_source_or_reports
    (audioErrorMessage messageId : string) (speech : Settled string)
    (st : AppState) :
  (exists base64Audio data audio,
     speech = Resolved base64Audio
     /\ Base64.decode base64Audio = Some data
     /\ decodeAudioData data 24000 = Some audio
     /\ speechSettled audioErrorMessage messageId speech st
        = (setCurrentAudioSource
             (Some {| sourceMessage := messageId; buffer := audio |}) st,
           [SourceStart {| sourceMessage := messageId; buffer := audio |}]))
  \/ (exists message,
        (speech = Rejected message \/ message = audioErrorMessage)
        /\ snd (speechSettled audioErrorMessage messageId speech st) = []
        /\ error (fst (speechSettled audioErrorMessage messageId speech st))
           = Some ("Failed to play audio: " ++ message)%string
        /\ playingMessageId
             (fst (speechSettled audioErrorMessage messageId speech st))
           = None
        /\ currentAudioSource
             (fst (speechSettled audioErrorMessage messageId speech st))
           = currentAudioSource st
        /\ Forall (fun m => id m = messageId -> isPlaying m = Some false)
                  (chatMessages
                     (fst (speechSettled audioErrorMessage messageId speech
                                         st)))).
Proof.
  destruct speech as [base64Audio | message].
  - destruct (Base64.decode base64Audio) as [data |] eqn:Hdecode.
    + destruct (decodeAudioData data 24000) as [audio |] eqn:Haudio.
      * left. exists base64Audio, data, audio.
        repeat split; try assumption.
        handlers. rewrite Hdecode, Haudio. reflexivity.
      * right. exists audioErrorMessage. handlers.
        rewrite Hdecode, Haudio. cbn.
        repeat split; [right; reflexivity | apply marked_false].
    + right. exists audioErrorMessage. handlers. rewrite Hdecode. cbn.
      repeat split; [right; reflexivity | apply marked_false].
  - right. exists message. handlers. cbn.
    repeat split; [left; reflexivity | apply marked_false].
Qed.


(** ** Reachable states *)

(** X21.  In every state the component can reach, an analysis result
    whose lists are arrays comes with the chat session created for it:
    the stored session is the one built from the context of that result,
    so a message sent then passes the guard of [handleSendMessage], goes
    to that session, and clears the error. *)
Theorem shaped_result_has_its_session
    (JSON_parse : string -> Settled (option DataAnalysisResult))
    (typeErrorMessage audioErrorMessage : string) (w : World)
    (result : DataAnalysisResult) (context : string)
    (text userId userTime : string) :
  reachable JSON_parse typeErrorMessage audioErrorMessage w ->
  analysisResult (app w) = Some result ->
  initialContext result = Resolved context ->
  currentChatSession (app w) = Some (createChatSession context)
  /\ snd (App.handleSendMessage text userId userTime (app w))
     = [SendMessageToChat (createChatSession context)
          {| id := userId; sender := user; text := text;
             timestamp := userTime; audioAvailable := None;
             isPlaying := None |}]
  /\ error (fst (App.handleSendMessage text userId userTime (app w)))
     = None.
Proof.
  intros Hreach Hresult Hcontext.
  assert (currentChatSession (app w) = Some (createChatSession context))
    as Hsession.
  { revert w Hreach result context Hresult Hcontext.
    apply (reachable_invariant JSON_parse typeErrorMessage audioErrorMessage
             (fun st =>
                forall result context,
                  analysisResult st = Some result ->
                  initialContext result = Resolved context ->
                  currentChatSession st = Some (createChatSession context))).
    - intros result context H. discriminate.
    - intros file st Hs. handlers.
      destruct (sizeLimit <? size file); cbn; intros result context H;
        discriminate.
    - intros text0 st Hs. handlers. destruct (parseCsv text0); cbn; exact Hs.
    - intros [[[result0 |] note] | message] st Hs; handlers.
      + destruct (initialContext result0) as [context0 | message] eqn:Hc0;
          cbn; intros result context [= <-] Hc.
        * rewrite Hc0 in Hc. injection Hc as <-. reflexivity.
        * rewrite Hc0 in Hc. discriminate.
      + cbn. intros result context H. discriminate.
      + cbn. exact Hs.
    - intros text0 userId0 userTime0 st _ Hs. handlers.
      destruct (currentChatSession st) eqn:Hchat,
               (analysisResult st) eqn:Hr; cbn; rewrite ?Hchat, ?Hr;
        exact Hs.
    - intros newUserMessage stream aiId aiTime st Hs. handlers.
      destruct (sendMessageToChat stream); cbn; exact Hs.
    - intros message st Hs. handlers.
      destruct (currentAudioSource st); cbn;
        destruct (outputAudioContext st); cbn; exact Hs.
    - intros messageId response st Hs. handlers.
      destruct (generateSpeech response) as [base64Audio | message]; cbn;
        [| exact Hs].
      destruct (Base64.decode base64Audio) as [data |]; cbn; [| exact Hs].
      destruct (decodeAudioData data 24000); cbn; exact Hs.
    - intros source st Hs. handlers. cbn. exact Hs. }
  split; [exact Hsession |].
  handlers. rewrite Hsession, Hresult. cbn. split; reflexivity.
Qed.

Lemma shaped_result_has_its_session_witness :
  reachable sampleParse "" "" loaded
  /\ analysisResult (app loaded) = Some sampleResult
  /\ initialContext sampleResult
     = Resolved (contextText "Two columns of small numbers."
                             "b grows with a" "")
  /\ currentChatSession (app loaded) = Some sampleChat
  /\ snd (App.handleSendMessage "third question" "u3" "10:00:05"
                                (app loaded))
     = [SendMessageToChat sampleChat
          (userMessage "u3" "third question" "10:00:05")].
Proof.
  assert (reachable sampleParse "" "" loaded) as Hreach
    by (exists twoAnswers; reflexivity).
  split; [exact Hreach |]. split; [reflexivity |]. split; [reflexivity |].
  destruct (shaped_result_has_its_session
              sampleParse "" "" loaded sampleResult
              (contextText "Two columns of small numbers."
                           "b grows with a" "")
              "third question" "u3" "10:00:05" Hreach eq_refl eq_refl)
    as [Hs [Hc _]].
  split; [exact Hs | exact Hc].
Defined.



Lemma audioBySender_mark (messageId : string) (flag : bool)
                         (l : list Message) :
  Forall audioBySender l ->
  Forall audioBySender
         (map (fun msg => if String.eqb (id msg) messageId
                          then withIsPlaying flag msg else msg) l).
Proof.
  intros H. apply Forall_forall. intros m Hm. apply in_map_iff in Hm.
  destruct Hm as [m0 [<- Hin]].
  pose proof (proj1 (Forall_forall _ _) H m0 Hin) as H0.
  destruct (String.eqb (id m0) messageId); exact H0.
Qed.

Lemma Forall_filter {A} (P : A -> Prop) (f : A -> bool) (l : list A) :
  Forall P l -> Forall P (filter f l).
Proof.
  intros H. apply Forall_forall. intros a Ha. apply filter_In in Ha.
  exact (proj1 (Forall_forall _ _) H a (proj1 Ha)).
Qed.

(** X22.  In every reachable state the messages marked as having audio
    are exactly the AI messages: an AI message carries
    [audioAvailable = true], a user message carries none; so the Listen
    button depends only on the sender and the stored playing flag. *)
Theorem audio_marking_follows_sender
    (JSON_parse : string -> Settled (option DataAnalysisResult))
    (typeErrorMessage audioErrorMessage : string) (w : World) :
  reachable JSON_parse typeErrorMessage audioErrorMessage w ->
  Forall (fun m =>
            audioBySender m
            /\ listenable m
               = match sender m, isPlaying m with
                 | ai, Some true => false
                 | ai, _ => true
                 | user, _ => false
                 end)
         (chatMessages (app w)).
Proof.
  intros Hreach.
  assert (Forall audioBySender (chatMessages (app w))) as H.
  { revert w Hreach.
    apply (reachable_invariant JSON_parse typeErrorMessage audioErrorMessage
             (fun st => Forall audioBySender (chatMessages st))).
    - constructor.
    - intros file st H. handlers.
      destruct (sizeLimit <? size file); cbn; constructor.
    - intros text st H. handlers. destruct (parseCsv text); cbn; exact H.
    - intros [[[result |] note] | message] st H; handlers;
        try destruct (initialContext result); cbn;
        first [exact H | constructor].
    - intros text userId userTime st _ H. handlers.
      destruct (currentChatSession st), (analysisResult st); cbn;
        try exact H.
      apply Forall_app. split; [exact H |].
      constructor; [reflexivity | constructor].
    - intros newUserMessage stream aiId aiTime st H. handlers.
      destruct (sendMessageToChat stream) as [response | message]; cbn.
      + apply Forall_app. split; [exact H |].
        constructor; [reflexivity | constructor].
      + apply Forall_filter. exact H.
    - intros message st H. handlers.
      destruct (currentAudioSource st); cbn;
        destruct (outputAudioContext st); cbn;
        apply audioBySender_mark; exact H.
    - intros messageId response st H. handlers.
      destruct (generateSpeech response) as [base64Audio | message]; cbn.
      + destruct (Base64.decode base64Audio) as [data |]; cbn.
        * destruct (decodeAudioData data 24000); cbn;
            [exact H | apply audioBySender_mark; exact H].
        * apply audioBySender_mark; exact H.
      + apply audioBySender_mark; exact H.
    - intros source st H. handlers. cbn. apply audioBySender_mark; exact H. }
  eapply Forall_impl; [| exact H].
  intros m Hm. split; [exact Hm |].
  unfold audioBySender in Hm. unfold listenable. rewrite Hm.
  destruct (sender m), (isPlaying m) as [[|] |]; reflexivity.
Qed.

Lemma audio_marking_follows_sender_witness :
  reachable sampleParse "" "" loaded
  /\ List.length (chatMessages (app loaded)) = 4%nat
  /\ Forall audioBySender (chatMessages (app loaded)).
Proof.
  assert (reachable sampleParse "" "" loaded) as Hreach
    by (exists twoAnswers; reflexivity).
  split; [exact Hreach |]. split; [reflexivity |].
  eapply Forall_impl;
    [| exact (audio_marking_follows_sender sampleParse "" "" loaded Hreach)].
  intros m Hm. exact (proj1 Hm).
Defined.

(** X23.  A reply that is still in flight when a new file is selected is
    not dropped: the upload clears the transcript and the analysis
    result, and the late reply is then appended, so the cleared
    transcript holds an answer without its question. *)
Theorem late_reply_lands_in_cleared_transcript
    (JSON_parse : string -> Settled (option DataAnalysisResult))
    (typeErrorMessage audioErrorMessage : string) (w : World)
    (chat : Chat) (newUserMessage : Message) (file : File)
    (stream : Settled Stream) (response : GenerateContentResponse)
    (aiId aiTime : string) :
  In (SendMessageToChat chat newUserMessage) (pending w) ->
  sendMessageToChat stream = Resolved response ->
  let step := step JSON_parse typeErrorMessage audioErrorMessage in
  let w' := step (step w (FileSelected file))
                 (ChatSettled chat newUserMessage stream aiId aiTime) in
  exists answer,
    chatMessages (app w') = [answer]
    /\ sender answer = ai /\ id answer = aiId
    /\ analysisResult (app w') = None
    /\ isSendingChat (app w') = false.
Proof.
  intros Hin Hreply step w'. subst w' step. cbn [App.step].
  set (w1 := run (handleFileSelect file) w).
  assert (In (SendMessageToChat chat newUserMessage) (pending w1)) as Hin1.
  { subst w1. unfold run. destruct (handleFileSelect file (app w)).
    cbn [pending]. apply in_or_app. left. exact Hin. }
  assert (analysisResult (app w1) = None /\ chatMessages (app w1) = [])
    as [Hr Hm].
  { subst w1. rewrite (proj1 (app_run _ _)). handlers.
    destruct (sizeLimit <? size file); cbn; split; reflexivity. }
  unfold settle.
  destruct (in_dec Call_eq_dec (SendMessageToChat chat newUserMessage)
                   (pending w1)) as [_ | Hout]; [| contradiction].
  rewrite (proj1 (app_run _ _)). cbn [app]. rewrite Hreply.
  handlers. cbn. rewrite Hm, Hr.
  eexists. repeat split.
Qed.


Lemma late_reply_lands_in_cleared_transcript_witness :
  In (SendMessageToChat sampleChat
        (userMessage "u3" "third question" "10:00:05"))
     (pending asking)
  /\ exists answer,
       chatMessages
         (app (step sampleParse "" ""
                 (step sampleParse "" "" asking (FileSelected smallFile))
                 (ChatSettled sampleChat
                    (userMessage "u3" "third question" "10:00:05")
                    (reply "late answer") "a3" "10:00:07")))
       = [answer]
       /\ sender answer = ai.
Proof.
  assert (In (SendMessageToChat sampleChat
                (userMessage "u3" "third question" "10:00:05"))
             (pending asking)) as Hin
    by (vm_compute; auto).
  split; [exact Hin |].
  destruct (late_reply_lands_in_cleared_transcript
              sampleParse "" "" asking sampleChat
              (userMessage "u3" "third question" "10:00:05") smallFile
              (reply "late answer") _ "a3" "10:00:07" Hin eq_refl)
    as [answer [Hm [Hs _]]].
  exists answer. split; [exact Hm | exact Hs].
Defined.

(** ** Audio sources *)

Lemma startedSources_app (a b : list Call) :
  startedSources (a ++ b) = startedSources a ++ startedSources b.
Proof.
  apply flat_map_app.
Qed.

Lemma stoppedSources_app (a b : list Call) :
  stoppedSources (a ++ b) = stoppedSources a ++ stoppedSources b.
Proof.
  apply flat_map_app.
Qed.

Ltac sources :=
  cbn; split; intros s Hs;
  repeat match goal with
         | H : _ \/ _ |- _ => destruct H
         | H : False |- _ => contradiction
         | H : Some _ = Some _ |- _ => injection H as H
         end;
  subst; auto; try discriminate; try congruence.

(** X24.  The component stops only sources it has started: in every
    reachable state the remembered source, and every source that was ever
    stopped, is among the sources started before. *)
Theorem only_started_sources_are_stopped
    (JSON_parse : string -> Settled (option DataAnalysisResult))
    (typeErrorMessage audioErrorMessage : string) (w : World) :
  reachable JSON_parse typeErrorMessage audioErrorMessage w ->
  incl (stoppedSources (history w)) (startedSources (history w))
  /\ forall source,
       currentAudioSource (app w) = Some source ->
       In source (startedSources (history w)).
Proof.
  intros [evs ->]. unfold runEvents.
  induction evs as [| ev evs IH] using rev_ind.
  - split; [intros s H; contradiction | intros s H; discriminate].
  - rewrite fold_left_app. cbn [fold_left].
    set (w := fold_left (step JSON_parse typeErrorMessage audioErrorMessage)
                        evs initialWorld) in *.
    destruct IH as [Hstop Hcur].
    destruct (step_cases JSON_parse typeErrorMessage audioErrorMessage
                (fun st out =>
                   (forall s, In s (stoppedSources (snd out)) ->
                              currentAudioSource st = Some s)
                   /\ (forall s, currentAudioSource (fst out) = Some s ->
                                 currentAudioSource st = Some s
                                 \/ In s (startedSources (snd out)))))
      with (w := w) (ev := ev) as [calls [[Hs Hc] Hh]].
    + intros st. sources.
    + intros file st. handlers. destruct (sizeLimit <? size file); sources.
    + intros text st. handlers. destruct (parseCsv text); sources.
    + intros [[[result |] note] | message] st; handlers;
        try destruct (initialContext result); sources.
    + intros text userId userTime st _. handlers.
      destruct (currentChatSession st), (analysisResult st); sources.
    + intros newUserMessage stream aiId aiTime st. handlers.
      destruct (sendMessageToChat stream); sources.
    + intros message st _ _. handlers.
      destruct (currentAudioSource st) eqn:Hsrc; cbn;
        destruct (outputAudioContext st); sources.
    + intros messageId response st. handlers.
      destruct (generateSpeech response) as [base64Audio | message];
        [| sources].
      destruct (Base64.decode base64Audio) as [data |]; [| sources].
      destruct (decodeAudioData data 24000); sources.
    + intros source st. handlers. sources.
    + cbn [fst snd] in Hs, Hc. rewrite Hh.
      rewrite startedSources_app, stoppedSources_app. split.
      * intros s Hin. apply in_app_or in Hin. apply in_or_app.
        destruct Hin as [Hin | Hin]; [left; apply Hstop; exact Hin |].
        left. apply Hcur. apply Hs. exact Hin.
      * intros s Hsrc. apply in_or_app.
        destruct (Hc s Hsrc) as [Hold | Hnew];
          [left; apply Hcur; exact Hold | right; exact Hnew].
Qed.

Lemma only_started_sources_are_stopped_witness :
  reachable sampleParse "" "" (runEvents sampleParse "" "" listenWhilePlaying)
  /\ map sourceMessage
         (stoppedSources
            (history (runEvents sampleParse "" "" listenWhilePlaying)))
     = ["a1"]
  /\ incl (stoppedSources
             (history (runEvents sampleParse "" "" listenWhilePlaying)))
          (startedSources
             (history (runEvents sampleParse "" "" listenWhilePlaying))).
Proof.
  assert (reachable sampleParse "" ""
                    (runEvents sampleParse "" "" listenWhilePlaying))
    as Hreach by (exists listenWhilePlaying; reflexivity).
  split; [exact Hreach |]. split; [reflexivity |].
  exact (proj1 (only_started_sources_are_stopped
                  sampleParse "" "" _ Hreach)).
Defined.


(** ** Error messages *)

(** X29.  A failure of a service call reaches the error banner with the
    prefix of the service and the prefix of the handler, both: a failed
    analysis, a failed chat request (whose prefix is therefore doubled)
    and a failed or empty speech response. *)
Theorem failures_are_reported_with_both_prefixes
    (JSON_parse : string -> Settled (option DataAnalysisResult))
    (typeErrorMessage audioErrorMessage cause : string)
    (data : CSVData) (newUserMessage : Message)
    (aiId aiTime messageId : string) (st : AppState) :
  error (fst (analysisSettled
                (analyzeCsvData (fun _ => Rejected cause) JSON_parse
                                typeErrorMessage data) st))
  = Some ("Failed to perform data analysis: Failed to analyze CSV data: "
          ++ cause)%string
  /\ error (fst (chatSettled newUserMessage
                             (sendMessageToChat (Rejected cause))
                             aiId aiTime st))
     = Some ("Failed to send message: Failed to send message: "
             ++ cause)%string
  /\ error (fst (speechSettled audioErrorMessage messageId
                               (generateSpeech (Rejected cause)) st))
     = Some ("Failed to play audio: Failed to generate speech: "
             ++ cause)%string
  /\ error (fst (speechSettled audioErrorMessage messageId
                               (generateSpeech (Resolved None)) st))
     = Some "Failed to play audio: Failed to generate speech: No audio data received from TTS API."
  /\ error (fst (speechSettled audioErrorMessage messageId
                               (generateSpeech (Resolved (Some ""))) st))
     = Some "Failed to play audio: Failed to generate speech: No audio data received from TTS API.".
Proof.
  repeat split.
Qed.

End AppEdgeFacts.

(** * The chat input and the transcript *)

Module TranscriptFacts.
Import Js Types ChatInput App Display TextFacts.

(** X27.  A key press sends only for Enter without Shift; the input box
    is emptied exactly when a message is sent and is left as it was
    otherwise; what is sent has no white space at either end, so sending
    it again would send the same text. *)
Theorem input_is_cleared_only_on_send
    (key : string) (shiftKey : bool) (inputValue : string)
    (isDisabled : bool) :
  match sent (handleKeyPress key shiftKey inputValue isDisabled) with
  | Some text =>
      key = "Enter" /\ shiftKey = false
      /\ inputAfter (handleKeyPress key shiftKey inputValue isDisabled) = ""
      /\ trim text = text
      /\ sent (ChatInput.handleSendMessage text isDisabled) = Some text
  | None =>
      inputAfter (handleKeyPress key shiftKey inputValue isDisabled)
      = inputValue
  end.
Proof.
  unfold handleKeyPress, ChatInput.handleSendMessage, truthy.
  destruct (String.eqb key "Enter") eqn:Hkey; cbn; [| reflexivity].
  apply String.eqb_eq in Hkey.
  destruct shiftKey; cbn; [reflexivity |].
  destruct (String.eqb (trim inputValue) "") eqn:Hblank; cbn;
    [reflexivity |].
  destruct isDisabled; cbn; [reflexivity |].
  rewrite trim_idempotent, Hblank. cbn. auto.
Qed.

Lemma speaker_shown (playingMessageId : option string) (m : Message) :
  speaker (shownMessage playingMessageId m)
  = match sender m with
    | user => NoSpeaker
    | ai => if marks playingMessageId m then Speaking else Idle
    end.
Proof.
  unfold speaker, shownMessage, marks. cbn.
  destruct (sender m); [reflexivity |].
  destruct playingMessageId as [playing |]; [| reflexivity].
  destruct (String.eqb playing (id m)); reflexivity.
Qed.

Lemma nobody_speaks (playing : string) (l : list Message) :
  ~ In playing (map id l) ->
  filter (fun v => isSpeaking (fst v)) (transcriptView (Some playing) l) = [].
Proof.
  unfold transcriptView.
  induction l as [| m l IH]; intros Hout; [reflexivity |].
  cbn [map filter fst]. rewrite speaker_shown.
  assert (marks (Some playing) m = false) as ->.
  { unfold marks. apply String.eqb_neq. intros ->. apply Hout.
    left. reflexivity. }
  replace (isSpeaking match sender m with
                      | user => NoSpeaker
                      | ai => Idle
                      end) with false by (destruct (sender m); reflexivity).
  apply IH. intros Hin. apply Hout. right. exact Hin.
Qed.

(** X28.  The speaker icon follows the playing marker, not the stored
    flag: a user message has no icon, an AI message has the pulsing icon
    exactly when the marker names it; the Listen button follows the stored
    message.  With distinct message ids at most one message is shown as
    speaking. *)
Theorem at_most_one_message_is_speaking
    (playingMessageId : option string) (messages : list Message) :
  NoDup (map id messages) ->
  (List.length
     (filter (fun v => isSpeaking (fst v))
             (transcriptView playingMessageId messages)) <= 1)%nat
  /\ Forall2 (fun m v =>
                fst v = match sender m with
                        | user => NoSpeaker
                        | ai => if marks playingMessageId m
                                then Speaking else Idle
                        end
                /\ snd v = listenable m)
             messages (transcriptView playingMessageId messages).
Proof.
  intros Hids. split.
  - induction messages as [| m l IH]; [cbn; lia |].
    cbn [map] in Hids. inversion_clear Hids as [| ? ? Hout Hrest].
    specialize (IH Hrest).
    unfold transcriptView in *. cbn [map filter fst].
    rewrite speaker_shown.
    destruct (sender m); [exact (Nat.le_trans _ _ _ IH (Nat.le_refl _)) |].
    destruct (marks playingMessageId m) eqn:Hmark; [| exact IH].
    destruct playingMessageId as [playing |]; [| discriminate].
    cbn [marks] in Hmark. apply String.eqb_eq in Hmark. subst playing.
    cbn [isSpeaking List.length].
    pose proof (nobody_speaks (id m) l Hout) as Hnone.
    unfold transcriptView in Hnone. rewrite Hnone. cbn. lia.
  - unfold transcriptView.
    induction messages as [| m l IH]; cbn [map]; constructor.
    + cbn [fst snd]. split; [apply speaker_shown | reflexivity].
    + apply IH. cbn [map] in Hids. inversion Hids. assumption.
Qed.

Lemma at_most_one_message_is_speaking_witness :
  NoDup (map id (chatMessages (app Samples.loaded)))
  /\ map fst (transcriptView (Some "a2") (chatMessages (app Samples.loaded)))
     = [NoSpeaker; Idle; NoSpeaker; Speaking]
  /\ (List.length
        (filter (fun v => isSpeaking (fst v))
                (transcriptView (Some "a2")
                                (chatMessages (app Samples.loaded)))) <= 1)%nat.
Proof.
  assert (NoDup (map id (chatMessages (app Samples.loaded)))) as Hids.
  { vm_compute. repeat constructor; cbn; intuition discriminate. }
  split; [exact Hids |]. split; [reflexivity |].
  exact (proj1 (at_most_one_message_is_speaking
                  (Some "a2") (chatMessages (app Samples.loaded)) Hids)).
Defined.

End TranscriptFacts.
